(** * Credify: a shallow embedding of the credit-claim, metrics and
    redirect helpers of the Credify Streamlit application, with the
    properties of its specification checked against them. *)

From Stdlib Require Import String Ascii List ZArith QArith Qround Lia Lqa Bool.
Import ListNotations.
Open Scope string_scope.

(** Python results: a value or a raised exception. *)
Inductive py_exn : Type :=
  | ValueError
  | AttributeError
  | OverflowError
  | ZeroDivisionError
  | HTTPError
  | KeyError
  | ConnectionError      (* requests.exceptions.ConnectionError *)
  | APIError.            (* postgrest.exceptions.APIError *)

Inductive py_result (A : Type) : Type :=
  | Ok (a : A)
  | Raise (e : py_exn).
Arguments Ok {A} a.
Arguments Raise {A} e.

(** Python's [a / b] on numbers (floats modelled in Q). *)
Definition py_div (a b : Q) : py_result Q :=
  if Qeq_bool b 0 then Raise ZeroDivisionError else Ok (a / b).

(* ------------------------------------------------------------------ *)
(** ** Video-ID extraction ([extract_video_id], src/credify_app.py and
    src/claim_role.py): [re.search] with the pattern
    [(?:v=|<short-link>|embed/)([a-zA-Z0-9_-]{11})]. *)
Module VideoId.
Local Open Scope nat_scope.

(** One regex atom of the alternatives: a literal character or [.]
    (any character but a newline). *)
Inductive atom : Type :=
  | Lit (c : ascii)
  | AnyNoNL.

Definition atom_matches (a : atom) (c : ascii) : bool :=
  match a with
  | Lit d => Ascii.eqb c d
  | AnyNoNL => negb (Ascii.eqb c "010"%char)
  end.

Fixpoint lits (s : string) : list atom :=
  match s with
  | EmptyString => []
  | String c s' => Lit c :: lits s'
  end.

(** [a-zA-Z0-9_-] *)
Definition is_id_char (c : ascii) : bool :=
  let n := nat_of_ascii c in
  ((65 <=? n) && (n <=? 90)) || ((97 <=? n) && (n <=? 122))
  || ((48 <=? n) && (n <=? 57)) || (n =? 95) || (n =? 45).

(** Match an alternative at the head of the string; return the rest. *)
Fixpoint match_prefix (p : list atom) (s : string) : option string :=
  match p with
  | [] => Some s
  | a :: p' =>
      match s with
      | EmptyString => None
      | String c s' => if atom_matches a c then match_prefix p' s' else None
      end
  end.

(** [([a-zA-Z0-9_-]{n})]: exactly [n] id characters (the group). *)
Fixpoint take_id (n : nat) (s : string) : option string :=
  match n with
  | O => Some EmptyString
  | S n' =>
      match s with
      | EmptyString => None
      | String c s' =>
          if is_id_char c then
            match take_id n' s' with
            | Some g => Some (String c g)
            | None => None
            end
          else None
      end
  end.

(** The alternatives are tried in order at one position. *)
Fixpoint match_at (alts : list (list atom)) (s : string) : option string :=
  match alts with
  | [] => None
  | p :: alts' =>
      match match_prefix p s with
      | Some rest =>
          match take_id 11 rest with
          | Some g => Some g
          | None => match_at alts' s
          end
      | None => match_at alts' s
      end
  end.

(** [re.search]: the leftmost position where the pattern matches;
    [match.group(1)]. *)
Fixpoint re_search (alts : list (list atom)) (s : string) : option string :=
  match match_at alts s with
  | Some g => Some g
  | None =>
      match s with
      | EmptyString => None
      | String _ s' => re_search alts s'
      end
  end.

(** src/credify_app.py: [r"(?:v=|youtu\\.be/|embed/)([a-zA-Z0-9_-]{11})"].
    In a raw string [\\.] is the regex "a backslash, then any character". *)
Definition credify_app_pattern : list (list atom) :=
  [ lits "v=";
    (lits "youtu" ++ [Lit "\"%char; AnyNoNL] ++ lits "be/")%list;
    lits "embed/" ].

(** src/claim_role.py: [r"(?:v=|youtu\.be/|embed/)([a-zA-Z0-9_-]{11})"]. *)
Definition claim_role_pattern : list (list atom) :=
  [ lits "v="; lits "youtu.be/"; lits "embed/" ].

Definition extract_video_id (url : string) : option string :=
  re_search credify_app_pattern url.

Definition claim_role_extract_video_id (url : string) : option string :=
  re_search claim_role_pattern url.

(** The start of the "Claim Role" handler, after the required-field
    checks: no identifier shows "Invalid YouTube URL." and stops; an
    identifier goes on to the project lookup (and, for a new project,
    to the video platform). *)
Inductive claim_step : Type :=
  | AbortInvalidUrl
  | LookupProject (video_id : string).

Definition claim_flow (extract : string -> option string) (url : string)
  : claim_step :=
  match extract url with
  | None => AbortInvalidUrl
  | Some vid => LookupProject vid
  end.

End VideoId.

(* ------------------------------------------------------------------ *)
(** ** Video-ID validation in [fetch_youtube_data] (src/credify_app.py).
    A Python [str] is a sequence of Unicode code points. *)
Module FetchValidation.
Local Open Scope N_scope.

Definition pystr := list N.

Definition pystr_of_string (s : string) : pystr :=
  map (fun c => N.of_nat (nat_of_ascii c)) (list_ascii_of_string s).

Section Alnum.

(** [str.isalnum] on code points past Latin-1 follows the Unicode
    database; only the Latin-1 range is written out below. *)
Variable unicode_isalnum : N -> bool.

(** [chr(c).isalnum()]: for c < 256 exactly the Python 3.11 table:
    0-9, A-Z, a-z, ª ² ³ µ ¹ º ¼ ½ ¾, À-Ö, Ø-ö, ø-ÿ. *)
Definition char_isalnum (c : N) : bool :=
  if c <? 256 then
    ((48 <=? c) && (c <=? 57)) || ((65 <=? c) && (c <=? 90))
    || ((97 <=? c) && (c <=? 122))
    || (c =? 170) || (c =? 178) || (c =? 179) || (c =? 181)
    || (c =? 185) || (c =? 186) || ((188 <=? c) && (c <=? 190))
    || ((192 <=? c) && (c <=? 214)) || ((216 <=? c) && (c <=? 246))
    || (248 <=? c)
  else unicode_isalnum c.

(** [str.isalnum()]: non-empty and every character alphanumeric. *)
Definition isalnum (s : pystr) : bool :=
  match s with
  | [] => false
  | _ => forallb char_isalnum s
  end.

(** [s.replace(ch, "")] for a one-character [ch]. *)
Definition remove_char (ch : N) (s : pystr) : pystr :=
  filter (fun c => negb (c =? ch)) s.

(** What [fetch_youtube_data] does before any network traffic: return
    [None] at once, or issue [requests.get] for the video. *)
Inductive fetch_step : Type :=
  | ShortCircuit
  | GetVideo (video_id : pystr).

Definition fetch_youtube_data (video_id : pystr) : fetch_step :=
  (* if not video_id or len(video_id) != 11: return None *)
  if (length video_id =? 0)%nat || negb (length video_id =? 11)%nat
  then ShortCircuit
  (* if not video_id.replace("-", "").replace("_", "").isalnum(): return None *)
  else if negb (isalnum (remove_char 95 (remove_char 45 video_id)))
  then ShortCircuit
  else GetVideo video_id.

End Alnum.

(** The character class [A-Za-z0-9_-] of the specification. *)
Definition spec_id_char (c : N) : bool :=
  ((48 <=? c) && (c <=? 57)) || ((65 <=? c) && (c <=? 90))
  || ((97 <=? c) && (c <=? 122)) || (c =? 45) || (c =? 95).

End FetchValidation.

(* ------------------------------------------------------------------ *)
(** ** Credit rows ([user_projects]) written by the claim workflow. *)
Module Credits.
Local Open Scope nat_scope.

Record credit := mk_credit { c_u_id : string; c_p_id : string; c_u_role : string }.

(** The [user_projects] table, in insertion order. *)
Definition table := list credit.

Definition credit_eqb (a b : credit) : bool :=
  String.eqb (c_u_id a) (c_u_id b) && String.eqb (c_p_id a) (c_p_id b)
  && String.eqb (c_u_role a) (c_u_role b).

Definition count_credit (t : table) (c : credit) : nat :=
  length (filter (credit_eqb c) t).

(** A selected role entry ["<category> - <role>"], after
    [role_entry.split(" - ")]. *)
Definition role_entry := (string * string)%type.

(** src/credify_app.py, [render_add_credit_form]: for every selected role,
    select on (u_id, p_id, u_role) and insert only when nothing is found. *)
Definition add_role_checked (u_id p_id : string) (t : table) (e : role_entry)
  : table :=
  let '(_, role_name) := e in
  let row := mk_credit u_id p_id role_name in
  if existsb (credit_eqb row) t then t else (t ++ [row])%list.

Definition credify_app_add_roles (u_id video_id : string)
  (selected_roles : list role_entry) (t : table) : table :=
  fold_left (add_role_checked u_id video_id) selected_roles t.

(** src/claim_role.py, [claim_role]: [insert] for every selected role. *)
Definition add_role_unchecked (u_id p_id : string) (t : table) (e : role_entry)
  : table :=
  let '(_, role_name) := e in
  (t ++ [mk_credit u_id p_id role_name])%list.

Definition claim_role_add_roles (u_id video_id : string)
  (selected_roles : list role_entry) (t : table) : table :=
  fold_left (add_role_unchecked u_id video_id) selected_roles t.

End Credits.

(* ------------------------------------------------------------------ *)
(** ** Daily time series ([fetch_user_daily_timeseries],
    src/credify_app.py). Timestamps are UTC instants in seconds; a date is
    the UTC day number of an instant. *)
Module DailySeries.
Local Open Scope Z_scope.

Record snapshot := mk_snapshot {
  s_p_id : string;
  s_fetched_at : Z;
  s_view_count : Z;
  s_like_count : Z;
  s_comment_count : Z }.

(** [df["fetched_at"].dt.date] *)
Definition date_of (t : Z) : Z := t / 86400.

Record counts := mk_counts { views : Z; likes : Z; comments : Z }.

Definition add_counts (a b : counts) : counts :=
  mk_counts (views a + views b) (likes a + likes b) (comments a + comments b).

Definition zero_counts : counts := mk_counts 0 0 0.

Definition in_pids (pids : list string) (p : string) : bool :=
  existsb (String.eqb p) pids.

Fixpoint dedup_strings (l : list string) : list string :=
  match l with
  | [] => []
  | x :: l' => if in_pids l' x then dedup_strings l' else x :: dedup_strings l'
  end.

(** A stable insertion sort on a key with a boolean strict order. *)
Section Sort.
Variable A : Type.
Variable lt : A -> A -> bool.
Fixpoint insert_sorted (x : A) (l : list A) : list A :=
  match l with
  | [] => [x]
  | y :: l' => if lt x y then x :: y :: l' else y :: insert_sorted x l'
  end.
Fixpoint sort (l : list A) : list A :=
  match l with
  | [] => []
  | x :: l' => insert_sorted x (sort l')
  end.
End Sort.
Arguments sort {A} lt l.

(** Baseline query: [.lt("fetched_at", start).order("fetched_at", desc=True)],
    then the first row seen per [p_id]. *)
Fixpoint first_per_pid (seen : list string) (rows : list snapshot)
  : list snapshot :=
  match rows with
  | [] => []
  | r :: rs =>
      if in_pids seen (s_p_id r) then first_per_pid seen rs
      else r :: first_per_pid (s_p_id r :: seen) rs
  end.

Definition baseline_rows (pids : list string) (tbl : list snapshot)
    (start : Z) : list snapshot :=
  let sel := filter (fun r => in_pids pids (s_p_id r) && (s_fetched_at r <? start)) tbl in
  (* descending on fetched_at: [a] goes first when it is later *)
  first_per_pid [] (sort (fun a b => s_fetched_at b <? s_fetched_at a) sel).

(** In-range query: [.gte("fetched_at", start).lte("fetched_at", end)]. *)
Definition range_rows (pids : list string) (tbl : list snapshot)
    (start end_ : Z) : list snapshot :=
  filter (fun r => in_pids pids (s_p_id r) && (start <=? s_fetched_at r)
                   && (s_fetched_at r <=? end_)) tbl.

(** [sort_values(["p_id", "date", "fetched_at"])] within one [p_id]. *)
Definition key_lt (a b : snapshot) : bool :=
  (date_of (s_fetched_at a) <? date_of (s_fetched_at b))
  || ((date_of (s_fetched_at a) =? date_of (s_fetched_at b))
      && (s_fetched_at a <? s_fetched_at b)).

(** [groupby(["p_id", "date"]).tail(1)] on the sorted rows of one p_id. *)
Fixpoint last_per_day (rows : list snapshot) : list snapshot :=
  match rows with
  | [] => []
  | r :: rs =>
      match rs with
      | r' :: _ =>
          if date_of (s_fetched_at r) =? date_of (s_fetched_at r')
          then last_per_day rs
          else r :: last_per_day rs
      | [] => [r]
      end
  end.

(** [g[col].diff().fillna(0).clip(lower=0)] for the three columns: the
    first row gets 0, every later row [max 0 (this - previous)]. *)
Definition clip0 (z : Z) : Z := Z.max 0 z.

Definition inc_between (prev cur : snapshot) : counts :=
  mk_counts (clip0 (s_view_count cur - s_view_count prev))
            (clip0 (s_like_count cur - s_like_count prev))
            (clip0 (s_comment_count cur - s_comment_count prev)).

Fixpoint diffs_from (prev : snapshot) (rows : list snapshot)
  : list (Z * counts) :=
  match rows with
  | [] => []
  | r :: rs =>
      (date_of (s_fetched_at r), inc_between prev r) :: diffs_from r rs
  end.

Definition increments (rows : list snapshot) : list (Z * counts) :=
  match rows with
  | [] => []
  | r :: rs => (date_of (s_fetched_at r), zero_counts) :: diffs_from r rs
  end.

Definition project_increments (rows : list snapshot) (pid : string)
  : list (Z * counts) :=
  increments (last_per_day
    (sort key_lt (filter (fun r => String.eqb (s_p_id r) pid) rows))).

(** [groupby("date").agg(sum)]: the dates in increasing order. *)
Definition sum_on (d : Z) (incs : list (Z * counts)) : counts :=
  fold_right (fun '(d', c) acc => if d' =? d then add_counts c acc else acc)
             zero_counts incs.

Fixpoint dedup_Z (l : list Z) : list Z :=
  match l with
  | [] => []
  | x :: l' => if existsb (Z.eqb x) l' then dedup_Z l' else x :: dedup_Z l'
  end.

Definition aggregate (incs : list (Z * counts)) : list (Z * counts) :=
  map (fun d => (d, sum_on d incs))
      (sort Z.ltb (dedup_Z (map fst incs))).

(** [pd.date_range(start_dt, end_dt, freq="D")] *)
Definition day_range (d0 d1 : Z) : list Z :=
  map (fun k => d0 + Z.of_nat k) (seq 0 (Z.to_nat (d1 - d0 + 1))).

Definition lookup_day (agg : list (Z * counts)) (d : Z) : counts :=
  match find (fun '(d', _) => d' =? d) agg with
  | Some (_, c) => c
  | None => zero_counts
  end.

(** The whole function: user's project ids (with duplicates, one per
    role), the [youtube_metrics] table, the window instants. The result
    is the rows of the returned frame (empty frame = []). *)
Definition fetch_user_daily_timeseries (pids : list string)
    (tbl : list snapshot) (start end_ : Z) : list (Z * counts) :=
  match pids with
  | [] => []
  | _ =>
    let rows := (baseline_rows pids tbl start ++ range_rows pids tbl start end_)%list in
    match rows with
    | [] => []
    | _ =>
      let inc_df := flat_map (project_increments rows) (dedup_strings (map s_p_id rows)) in
      let inc_filtered := filter (fun '(d, _) => date_of start <=? d) inc_df in
      let agg := aggregate inc_filtered in
      match agg with
      | [] => []
      | _ => map (fun d => (d, lookup_day agg d))
                 (day_range (date_of start) (date_of end_))
      end
    end
  end.

End DailySeries.

(* ------------------------------------------------------------------ *)
(** ** Cached user aggregate ([update_user_metrics], src/credify_app.py).
    Float arithmetic is modelled in Q; timestamps are the ISO strings
    the code compares with Python's string ordering. *)
Module UserMetrics.
Local Open Scope Z_scope.

(** Python's [<] on [str]: lexicographic on characters, a proper
    prefix is smaller. *)
Fixpoint str_ltb (a b : string) : bool :=
  match a, b with
  | EmptyString, EmptyString => false
  | EmptyString, String _ _ => true
  | String _ _, EmptyString => false
  | String x a', String y b' =>
      let nx := nat_of_ascii x in
      let ny := nat_of_ascii y in
      if (nx <? ny)%nat then true
      else if (ny <? nx)%nat then false
      else str_ltb a' b'
  end.

Definition str_geb (a b : string) : bool := negb (str_ltb a b).

(** [max] over a non-empty list of strings. *)
Definition str_max (x : string) (l : list string) : string :=
  fold_left (fun m y => if str_ltb m y then y else m) l x.

(** A row of [youtube_latest_metrics]; [None] is a NULL / missing key. *)
Record metric_row := mk_metric {
  m_p_id : string;
  m_view_count : option Z;
  m_like_count : option Z;
  m_comment_count : option Z;
  m_share_count : option Z;
  m_fetched_at : option string }.

(** [m.get(k, 0) or 0] *)
Definition or0 (v : option Z) : Z :=
  match v with Some z => z | None => 0 end.

Record um_row := mk_um {
  um_total_view_count : Z;
  um_total_like_count : Z;
  um_total_comment_count : Z;
  um_total_share_count : Z;
  um_avg_engagement_rate : Q;
  um_updated_at : string }.

Record db := mk_db {
  user_projects : list (string * string);      (* (u_id, p_id) *)
  latest_metrics : list metric_row;            (* youtube_latest_metrics *)
  youtube_metrics : list metric_row;           (* youtube_metrics *)
  user_metrics : list (string * um_row);       (* keyed by u_id *)
  um_writes : list (string * um_row) }.        (* every upsert, in order *)

Definition lookup_um (t : list (string * um_row)) (u : string) : option um_row :=
  match find (fun '(k, _) => String.eqb k u) t with
  | Some (_, r) => Some r
  | None => None
  end.

(** [supabase.table("user_metrics").upsert(row)] *)
Definition upsert_um (d : db) (u : string) (r : um_row) : db :=
  mk_db (user_projects d) (latest_metrics d) (youtube_metrics d)
        ((u, r) :: filter (fun '(k, _) => negb (String.eqb k u)) (user_metrics d))
        (um_writes d ++ [(u, r)])%list.

Definition zero_row (now : string) : um_row := mk_um 0 0 0 0 0%Q now.

Definition sumZ (f : metric_row -> Z) (l : list metric_row) : Z :=
  fold_right (fun m acc => f m + acc) 0 l.

(** [((likes + comments + shares) / views) * 100] for rows with
    [views > 0]. *)
Definition engagement_of (m : metric_row) : py_result (list Q) :=
  let v := or0 (m_view_count m) in
  if 0 <? v then
    match py_div (inject_Z (or0 (m_like_count m) + or0 (m_comment_count m)
                            + or0 (m_share_count m))) (inject_Z v) with
    | Ok x => Ok [(x * 100)%Q]
    | Raise e => Raise e
    end
  else Ok [].

Fixpoint engagement_rates (l : list metric_row) : py_result (list Q) :=
  match l with
  | [] => Ok []
  | m :: ms =>
      match engagement_of m with
      | Raise e => Raise e
      | Ok r =>
          match engagement_rates ms with
          | Raise e => Raise e
          | Ok rs => Ok (r ++ rs)%list
          end
      end
  end.

Definition sumQ (l : list Q) : Q := fold_right Qplus 0%Q l.

(** [sum(rates) / len(rates) if rates else 0] *)
Definition avg_engagement (l : list metric_row) : py_result Q :=
  match engagement_rates l with
  | Raise e => Raise e
  | Ok [] => Ok 0%Q
  | Ok rs => py_div (sumQ rs) (inject_Z (Z.of_nat (length rs)))
  end.

Definition aggregate_row (l : list metric_row) (now : string) : py_result um_row :=
  match avg_engagement l with
  | Raise e => Raise e
  | Ok avg =>
      Ok (mk_um (sumZ (fun m => or0 (m_view_count m)) l)
                (sumZ (fun m => or0 (m_like_count m)) l)
                (sumZ (fun m => or0 (m_comment_count m)) l)
                (sumZ (fun m => or0 (m_share_count m)) l)
                avg now)
  end.

Definition nonempty_str (s : string) : bool :=
  match s with EmptyString => false | _ => true end.

(** [[m.get("fetched_at") for m in latest_metrics if m.get("fetched_at")]] *)
Definition ts_candidates (l : list metric_row) : list string :=
  flat_map (fun m => match m_fetched_at m with
                     | Some t => if nonempty_str t then [t] else []
                     | None => [] end) l.

(** The guard: true when the recompute is skipped. *)
Definition fresh (d : db) (u_id : string) (l : list metric_row) : bool :=
  match ts_candidates l with
  | [] => false
  | t :: ts =>
      let latest_ts := str_max t ts in
      match lookup_um (user_metrics d) u_id with
      | Some r => nonempty_str (um_updated_at r) && str_geb (um_updated_at r) latest_ts
      | None => false
      end
  end.

(** [[p["p_id"] for p in user_projects where u_id = u_id]] *)
Definition project_ids_of (d : db) (u_id : string) : list string :=
  map snd (filter (fun '(u, _) => String.eqb u u_id) (user_projects d)).

(** [youtube_latest_metrics ... .in_("p_id", project_ids)] *)
Definition latest_for (d : db) (project_ids : list string) : list metric_row :=
  filter (fun m => existsb (String.eqb (m_p_id m)) project_ids) (latest_metrics d).

(** The Supabase calls of [update_user_metrics]; each is made at most
    once per call of the function. *)
Inductive sb_call : Type :=
  | CallUserProjects        (* user_projects select, line 823 *)
  | CallLatestMetrics       (* youtube_latest_metrics select, line 842 *)
  | CallYoutubeMetrics      (* youtube_metrics select in the except, line 846 *)
  | CallUserMetricsSelect   (* user_metrics select of the guard, line 880 *)
  | CallUpsert.             (* user_metrics upsert, lines 827, 865 or 907 *)

(** How the database server behaves: which calls raise (and with what),
    and the order in which it returns the rows for
    [.order("fetched_at", desc=True)] (ties and NULLs are its own). *)
Record server := mk_server {
  fails : sb_call -> option py_exn;
  order_fetched_desc : list metric_row -> list metric_row }.

Definition run_upsert (sv : server) (d : db) (u : string) (r : um_row) : py_result db :=
  match fails sv CallUpsert with
  | Some e => Raise e
  | None => Ok (upsert_um d u r)
  end.

(** [youtube_metrics ... .in_("p_id", project_ids)] *)
Definition ym_for (d : db) (project_ids : list string) : list metric_row :=
  filter (fun m => existsb (String.eqb (m_p_id m)) project_ids) (youtube_metrics d).

(** The dict built for a youtube_metrics row in the fallback loop. *)
Definition fallback_row (m : metric_row) : metric_row :=
  mk_metric (m_p_id m) (Some (or0 (m_view_count m))) (Some (or0 (m_like_count m)))
            (Some (or0 (m_comment_count m))) (Some (or0 (m_share_count m)))
            (m_fetched_at m).

(** [for m in ...: if pid not in seen_pids: append; seen_pids.add(pid)] *)
Fixpoint first_per_pid (seen : list string) (l : list metric_row) : list metric_row :=
  match l with
  | [] => []
  | m :: ms =>
      if existsb (String.eqb (m_p_id m)) seen then first_per_pid seen ms
      else fallback_row m :: first_per_pid (m_p_id m :: seen) ms
  end.

(** Step 2: [youtube_latest_metrics], or, when that query raises, the
    first youtube_metrics row per project in the server's order; an
    exception of the fallback query is not caught. *)
Definition metrics_for (sv : server) (d : db) (project_ids : list string)
  : py_result (list metric_row) :=
  match fails sv CallLatestMetrics with
  | None => Ok (latest_for d project_ids)
  | Some _ =>
      match fails sv CallYoutubeMetrics with
      | Some e => Raise e
      | None => Ok (first_per_pid [] (order_fetched_desc sv (ym_for d project_ids)))
      end
  end.

(** Step 2b: the guard skips the recompute; an exception of its
    user_metrics read is swallowed ([except Exception: pass]). *)
Definition guard_skips (sv : server) (d : db) (u_id : string) (l : list metric_row) : bool :=
  match fails sv CallUserMetricsSelect with
  | Some _ => false
  | None => fresh d u_id l
  end.

(** [update_user_metrics(u_id)]; [now] is [datetime.utcnow().isoformat()]. *)
Definition update_user_metrics (sv : server) (u_id now : string) (d : db) : py_result db :=
  match fails sv CallUserProjects with
  | Some e => Raise e
  | None =>
    match project_ids_of d u_id with
    | [] => run_upsert sv d u_id (zero_row now)
    | project_ids =>
      match metrics_for sv d project_ids with
      | Raise e => Raise e
      | Ok [] => run_upsert sv d u_id (zero_row now)
      | Ok latest =>
        if guard_skips sv d u_id latest then Ok d
        else match aggregate_row latest now with
             | Raise e => Raise e
             | Ok row => run_upsert sv d u_id row
             end
      end
    end
  end.

(** Two calls in a row, the second on the state the first left. *)
Definition update_twice (sv : server) (u_id now1 now2 : string) (d : db) : py_result db :=
  match update_user_metrics sv u_id now1 d with
  | Raise e => Raise e
  | Ok d1 => update_user_metrics sv u_id now2 d1
  end.

Definition write_count (d : db) : nat := length (um_writes d).

(** *** The standalone script (src/update_user_metrics.py) *)

(** A row of its [latest_metrics] table. *)
Record script_metric := mk_smetric {
  sm_p_id : string;
  sm_view_count : option Z;
  sm_like_count : option Z;
  sm_comment_count : option Z;
  sm_share_count : option Z;
  sm_engagement_rate : option Q }.

Record script_db := mk_sdb {
  s_users : list (string * string);            (* (u_email, u_id) *)
  s_user_projects : list (string * string);    (* (u_id, p_id) *)
  s_latest_metrics : list script_metric;       (* latest_metrics *)
  s_user_metrics : list (string * um_row);
  s_um_writes : list (string * um_row) }.

Inductive script_call : Type :=
  | SCallUsers | SCallUserProjects | SCallLatestMetrics | SCallUpsert.

Definition sumZs (f : script_metric -> Z) (l : list script_metric) : Z :=
  fold_right (fun m acc => f m + acc) 0 l.

(** [m.get("engagement_rate", 0) or 0] *)
Definition or0Q (v : option Q) : Q :=
  match v with Some q => q | None => 0%Q end.

(** [users ... .eq("u_email", u_email)]: [user_resp.data[0]["u_id"]] *)
Definition script_user_id (sd : script_db) (u_email : string) : option string :=
  match find (fun '(em, _) => String.eqb em u_email) (s_users sd) with
  | Some (_, u_id) => Some u_id
  | None => None
  end.

Definition script_project_ids (sd : script_db) (u_id : string) : list string :=
  map snd (filter (fun '(u, _) => String.eqb u u_id) (s_user_projects sd)).

(** [latest_metrics ... .in_("p_id", project_ids)] *)
Definition script_rows (sd : script_db) (project_ids : list string) : list script_metric :=
  filter (fun m => existsb (String.eqb (sm_p_id m)) project_ids) (s_latest_metrics sd).

(** [update_user_metrics(u_email)]; the [print]s are left out. Every
    Supabase call is uncaught. *)
Definition script_update_user_metrics (fails_s : script_call -> option py_exn)
    (u_email now : string) (sd : script_db) : py_result script_db :=
  match fails_s SCallUsers with Some e => Raise e | None =>
  match script_user_id sd u_email with
  | None => Ok sd
  | Some u_id =>
    match fails_s SCallUserProjects with Some e => Raise e | None =>
    match script_project_ids sd u_id with
    | [] => Ok sd
    | project_ids =>
      match fails_s SCallLatestMetrics with Some e => Raise e | None =>
      match script_rows sd project_ids with
      | [] => Ok sd
      | rows =>
        let rates := map (fun m => or0Q (sm_engagement_rate m)) rows in
        match py_div (sumQ rates) (inject_Z (Z.of_nat (length rates))) with
        | Raise e => Raise e
        | Ok avg =>
          let row := mk_um (sumZs (fun m => or0 (sm_view_count m)) rows)
                           (sumZs (fun m => or0 (sm_like_count m)) rows)
                           (sumZs (fun m => or0 (sm_comment_count m)) rows)
                           (sumZs (fun m => or0 (sm_share_count m)) rows) avg now in
          match fails_s SCallUpsert with
          | Some e => Raise e
          | None =>
              Ok (mk_sdb (s_users sd) (s_user_projects sd) (s_latest_metrics sd)
                         ((u_id, row) :: filter (fun '(k, _) => negb (String.eqb k u_id))
                                                (s_user_metrics sd))
                         (s_um_writes sd ++ [(u_id, row)])%list)
          end
        end
      end end
    end end
  end end.

Definition s_write_count (sd : script_db) : nat := length (s_um_writes sd).

End UserMetrics.

(* ------------------------------------------------------------------ *)
(** ** Python [str] helpers on ASCII strings. *)
Module PyStr.
Local Open Scope nat_scope.

(** [str.isspace()] on ASCII: \t \n \v \f \r, \x1c-\x1f and space. *)
Definition is_space (c : ascii) : bool :=
  let n := nat_of_ascii c in ((9 <=? n) && (n <=? 13)) || ((28 <=? n) && (n <=? 32)).

Fixpoint lstrip (s : string) : string :=
  match s with
  | String c s' => if is_space c then lstrip s' else s
  | EmptyString => EmptyString
  end.

Definition rev_string (s : string) : string :=
  string_of_list_ascii (rev (list_ascii_of_string s)).

(** [str.strip()] *)
Definition strip (s : string) : string := rev_string (lstrip (rev_string (lstrip s))).

End PyStr.

(* ------------------------------------------------------------------ *)
(** ** Scheduled ingestion job ([lambda_handler],
    src/aws/get_youtube_metrics/get_youtube_metrics.py). The outside world
    is the answer of each HTTP call; the effects are a trace of events. *)
Module Lambda.
Import PyStr.
Local Open Scope nat_scope.

(** Python [str.split(",")]. *)
Fixpoint split_comma_aux (cur : string) (s : string) : list string :=
  match s with
  | EmptyString => [cur]
  | String c s' =>
      if Ascii.eqb c ","%char then cur :: split_comma_aux EmptyString s'
      else split_comma_aux (cur ++ String c EmptyString) s'
  end.

Definition split_comma (s : string) : list string := split_comma_aux EmptyString s.

(** [[v.strip() for v in VIDEO_IDS_ENV.split(",") if v.strip()] or ["3zKwIqxLTd4"]] *)
Definition video_ids_of_env (video_ids_env : string) : list string :=
  match filter (fun v => negb (String.eqb (strip v) EmptyString)) (split_comma video_ids_env) with
  | [] => ["3zKwIqxLTd4"]
  | l => map strip l
  end.

(** What the video platform's answer turns into on lines 29-38:
    [data = yt_response.json()] or [data.get("items")] raising, no items,
    or items whose [data["items"][0]["statistics"]] and three [int(...)]
    conversions either succeed or raise. *)
Inductive yt_body : Type :=
  | BodyRaises (e : py_exn)
  | BodyNoItems
  | BodyItems (stats : py_result unit).

(** Answers of the outside world for one run. [yt_get vid] is [Raise e]
    when [requests.get] raises and [Ok ok] with [ok = yt_response.ok]
    otherwise ([raise_for_status()] raises exactly when not [ok]).
    [dedupe_found vid] is [None] when anything in the dedupe [try] raises,
    [Some b] otherwise with [b] = [sel.ok and sel.json()]. [insert vid] is
    [Raise e] when [requests.post] raises, [Ok status_code] otherwise. *)
Record world := mk_world {
  yt_get : string -> py_result bool;
  yt_body_of : string -> yt_body;
  dedupe_found : string -> option bool;
  insert : string -> py_result nat }.

Inductive event : Type :=
  | PrintFetched (n : nat)
  | YoutubeGet (vid : string)
  | PrintNoData (vid : string)
  | DedupeGet (vid : string)
  | PrintSkipToday (vid : string)
  | PrintDedupeFailed (vid : string)
  | SupabasePost (vid : string)
  | PrintInsertResponse (vid : string) (status : nat).

Record summary := mk_summary { success : bool; count : nat }.

(** One iteration of the [for vid in video_ids] loop: the events, and
    the exception that leaves the loop body, if any. *)
Definition process_video (w : world) (vid : string) : list event * py_result unit :=
  match yt_get w vid with
  | Raise e => ([YoutubeGet vid], Raise e)
  | Ok false => ([YoutubeGet vid], Raise HTTPError)
  | Ok true =>
    match yt_body_of w vid with
    | BodyRaises e => ([YoutubeGet vid], Raise e)
    | BodyNoItems => ([YoutubeGet vid; PrintNoData vid], Ok tt)
    | BodyItems (Raise e) => ([YoutubeGet vid], Raise e)
    | BodyItems (Ok _) =>
      let dedupe :=
        match dedupe_found w vid with
        | Some true => inl [DedupeGet vid; PrintSkipToday vid]
        | Some false => inr [DedupeGet vid]
        | None => inr [DedupeGet vid; PrintDedupeFailed vid]
        end in
      match dedupe with
      | inl evs => (YoutubeGet vid :: evs, Ok tt)
      | inr evs =>
          match insert w vid with
          | Raise e => (YoutubeGet vid :: evs ++ [SupabasePost vid], Raise e)%list
          | Ok status =>
              (YoutubeGet vid :: evs ++ [SupabasePost vid;
                                         PrintInsertResponse vid status], Ok tt)%list
          end
      end
    end
  end.

Fixpoint process_all (w : world) (vids : list string) : list event * py_result unit :=
  match vids with
  | [] => ([], Ok tt)
  | vid :: rest =>
      let '(evs, r) := process_video w vid in
      match r with
      | Raise e => (evs, Raise e)
      | Ok _ => let '(evs', r') := process_all w rest in ((evs ++ evs')%list, r')
      end
  end.

(** [lambda_handler(event, context)]: [keys_set] tells whether
    SUPABASE_URL, SUPABASE_KEY and YOUTUBE_API_KEY are all in
    [os.environ] (lines 7-9 raise [KeyError] otherwise);
    [video_ids_env] is [os.environ.get("YOUTUBE_VIDEO_IDS", "")]. *)
Definition lambda_handler (keys_set : bool) (video_ids_env : string) (w : world)
  : list event * py_result summary :=
  if negb keys_set then ([], Raise KeyError) else
  let video_ids := video_ids_of_env video_ids_env in
  let '(evs, r) := process_all w video_ids in
  (PrintFetched (length video_ids) :: evs,
   match r with
   | Ok _ => Ok (mk_summary true (length video_ids))
   | Raise e => Raise e
   end).

(** No step of the loop body raises for [vid]: the GET answers OK, the
    body and statistics are read, and the insert request goes through. *)
Definition body_ok (b : yt_body) : bool :=
  match b with
  | BodyRaises _ => false
  | BodyNoItems => true
  | BodyItems (Ok _) => true
  | BodyItems (Raise _) => false
  end.

Definition post_ok (r : py_result nat) : bool :=
  match r with Ok _ => true | Raise _ => false end.

Definition count_youtube_gets (vid : string) (evs : list event) : nat :=
  length (filter (fun e => match e with YoutubeGet v => String.eqb v vid | _ => false end) evs).

End Lambda.

(* ------------------------------------------------------------------ *)
(** ** Redirect base URL ([_normalize_base_url], [_get_production_base_url],
    src/auth.py). [urlparse] is modelled for ASCII input following
    CPython 3.11's [urlsplit] (with its check of a bracketed host),
    [hostname] and [port]. *)
Module Redirect.
Import PyStr.
Local Open Scope nat_scope.

Definition CANONICAL_PRODUCTION_URL := "https://credifyapp.streamlit.app".

(** _ALLOWED_PRODUCTION_HOSTS, _LOCALHOST_HOSTS *)
Definition is_allowed_production_host (h : string) : bool :=
  String.eqb h "credifyapp.streamlit.app".
Definition is_localhost_host (h : string) : bool :=
  String.eqb h "localhost" || String.eqb h "127.0.0.1".

Definition rev_str := rev_string.

(** [s.endswith(suf)] *)
Definition ends_with (suf s : string) : bool := String.prefix (rev_str suf) (rev_str s).

(** [sub in s] *)
Fixpoint contains (sub s : string) : bool :=
  String.prefix sub s ||
  match s with
  | EmptyString => false
  | String _ s' => contains sub s'
  end.

(** [s.rstrip("/")] *)
Fixpoint drop_slashes (s : string) : string :=
  match s with
  | String c s' => if Ascii.eqb c "/"%char then drop_slashes s' else s
  | EmptyString => EmptyString
  end.
Definition rstrip_slash (s : string) : string := rev_str (drop_slashes (rev_str s)).

Definition lower_char (c : ascii) : ascii :=
  let n := nat_of_ascii c in
  if (65 <=? n) && (n <=? 90) then ascii_of_nat (n + 32) else c.
Fixpoint lower (s : string) : string :=
  match s with
  | EmptyString => EmptyString
  | String c s' => String (lower_char c) (lower s')
  end.

(** [s.partition(c)]: (before, found, after) at the first [c]. *)
Fixpoint partition (c : ascii) (s : string) : string * bool * string :=
  match s with
  | EmptyString => (EmptyString, false, EmptyString)
  | String x s' =>
      if Ascii.eqb x c then (EmptyString, true, s')
      else let '(a, f, b) := partition c s' in (String x a, f, b)
  end.

(** [s.rpartition(c)]: at the last [c]; ("", "", s) when absent. *)
Fixpoint rpartition (c : ascii) (s : string) : string * bool * string :=
  match s with
  | EmptyString => (EmptyString, false, EmptyString)
  | String x s' =>
      match rpartition c s' with
      | (a, true, b) => (String x a, true, b)
      | (_, false, _) =>
          if Ascii.eqb x c then (EmptyString, true, s')
          else (EmptyString, false, String x s')
      end
  end.

Definition is_alpha (c : ascii) : bool :=
  let n := nat_of_ascii c in ((65 <=? n) && (n <=? 90)) || ((97 <=? n) && (n <=? 122)).
Definition is_digit (c : ascii) : bool :=
  let n := nat_of_ascii c in (48 <=? n) && (n <=? 57).
(** [scheme_chars]: letters, digits, "+-." *)
Definition is_scheme_char (c : ascii) : bool :=
  is_alpha c || is_digit c || Ascii.eqb c "+"%char || Ascii.eqb c "-"%char
  || Ascii.eqb c "."%char.

Definition all_chars (f : ascii -> bool) (s : string) : bool :=
  forallb f (list_ascii_of_string s).

(** [url.lstrip(_WHATWG_C0_CONTROL_OR_SPACE)] *)
Fixpoint lstrip_c0 (s : string) : string :=
  match s with
  | String c s' => if (nat_of_ascii c <=? 32) then lstrip_c0 s' else s
  | EmptyString => EmptyString
  end.

(** removal of [_UNSAFE_URL_BYTES_TO_REMOVE] = tab, CR, LF *)
Definition remove_unsafe (s : string) : string :=
  string_of_list_ascii
    (filter (fun c => negb (Ascii.eqb c "009"%char || Ascii.eqb c "010"%char
                             || Ascii.eqb c "013"%char))
            (list_ascii_of_string s)).

(** [_splitnetloc(url, 2)] on the part after "//": up to the first of "/?#". *)
Fixpoint split_netloc (s : string) : string * string :=
  match s with
  | EmptyString => (EmptyString, EmptyString)
  | String c s' =>
      if Ascii.eqb c "/"%char || Ascii.eqb c "?"%char || Ascii.eqb c "#"%char
      then (EmptyString, s)
      else let '(a, b) := split_netloc s' in (String c a, b)
  end.

(** [s.split(c)] *)
Fixpoint split_char_aux (c : ascii) (cur : string) (s : string) : list string :=
  match s with
  | EmptyString => [cur]
  | String x s' =>
      if Ascii.eqb x c then cur :: split_char_aux c EmptyString s'
      else split_char_aux c (cur ++ String x EmptyString) s'
  end.
Definition split_char (c : ascii) (s : string) : list string := split_char_aux c EmptyString s.

Definition nonempty (s : string) : bool :=
  match s with EmptyString => false | _ => true end.

Definition is_hex (c : ascii) : bool :=
  let n := nat_of_ascii c in
  is_digit c || ((97 <=? n) && (n <=? 102)) || ((65 <=? n) && (n <=? 70)).

(** [int(s, 10)] for a string of ASCII digits. *)
Fixpoint dec_value (acc : N) (s : string) : N :=
  match s with
  | EmptyString => acc
  | String c s' => dec_value (acc * 10 + (N.of_nat (nat_of_ascii c) - 48))%N s'
  end.

(** [IPv4Address._parse_octet] succeeds. *)
Definition octet_ok (o : string) : bool :=
  match o with
  | EmptyString => false
  | String c0 _ =>
      if all_chars is_digit o && (String.length o <=? 3)
         && negb (negb (String.eqb o "0") && Ascii.eqb c0 "0"%char)
      then (dec_value 0 o <=? 255)%N else false
  end.

(** [IPv4Address(s)] succeeds. *)
Definition ipv4_ok (s : string) : bool :=
  negb (contains "/" s) && nonempty s
  && (length (split_char "."%char s) =? 4) && forallb octet_ok (split_char "."%char s).

(** [IPv6Address._parse_hextet] succeeds (an empty hextet fails in
    [int("", 16)]). *)
Definition hextet_ok (h : string) : bool :=
  all_chars is_hex h && (String.length h <=? 4) && nonempty h.

(** The candidates for the skipped run of [_ip_int_from_string]: the empty
    parts other than the first and the last. *)
Definition inner_empty (parts : list string) : list nat :=
  filter (fun i => negb (nonempty (nth i parts ""))) (seq 1 (length parts - 2)).

(** [IPv6Address._ip_int_from_string(s)] succeeds. An IPv4 suffix
    stands for two hextets, which always parse. *)
Definition ipv6_int_ok (s : string) : bool :=
  if negb (nonempty s) then false else
  let parts0 := split_char ":"%char s in
  if length parts0 <? 3 then false else
  let suffix := last parts0 "" in
  let parts :=
    if contains "." suffix then
      (if ipv4_ok suffix then Some (removelast parts0 ++ ["0"; "0"])%list else None)
    else Some parts0 in
  match parts with
  | None => false
  | Some parts =>
    let n := length parts in
    if 9 <? n then false else
    match inner_empty parts with
    | [] => (n =? 8) && forallb hextet_ok parts
    | [i] =>
        let first_empty := negb (nonempty (nth 0 parts "")) in
        let last_empty := negb (nonempty (last parts "")) in
        let hi := if first_empty then i - 1 else i in
        let lo := if last_empty then n - i - 2 else n - i - 1 in
        (if first_empty then hi =? 0 else true)
        && (if last_empty then lo =? 0 else true)
        && (hi + lo <? 8)
        && forallb hextet_ok (firstn hi parts) && forallb hextet_ok (skipn (n - lo) parts)
    | _ => false
    end
  end.

(** [IPv6Address(s)] succeeds: no "/", a valid scope id after "%", and
    the address part. *)
Definition ipv6_ok (s : string) : bool :=
  negb (contains "/" s) &&
  let '(addr, sep, scope_id) := partition "%"%char s in
  (negb sep || (nonempty scope_id && negb (contains "%" scope_id)))
  && ipv6_int_ok addr.

(** The part after "v" matches [[a-fA-F0-9]+\..+\Z]. *)
Fixpoint ipvfuture_rest (first : bool) (s : string) : bool :=
  match s with
  | String c s' =>
      if is_hex c then ipvfuture_rest false s'
      else if Ascii.eqb c "."%char then
        negb first && nonempty s' && negb (contains (String "010"%char EmptyString) s')
      else false
  | EmptyString => false
  end.

(** [_check_bracketed_host(hostname)] does not raise: an IPvFuture form
    [re.match(r"\Av[a-fA-F0-9]+\..+\Z", hostname)], or
    [ipaddress.ip_address] giving an IPv6 (not an IPv4) address. *)
Definition bracketed_host_ok (h : string) : bool :=
  match h with
  | String "v" rest => ipvfuture_rest true rest
  | _ => negb (ipv4_ok h) && ipv6_ok h
  end.

(** [_check_bracketed_netloc(netloc)] does not raise. *)
Definition bracketed_netloc_ok (nl : string) : bool :=
  let '(_, _, hostname_and_port) := rpartition "@"%char nl in
  let '(before_bracket, have_open_br, bracketed) := partition "["%char hostname_and_port in
  if have_open_br then
    negb (nonempty before_bracket) &&
    let '(hostname, _, port) := partition "]"%char bracketed in
    (negb (nonempty port) || String.prefix ":" port) && bracketed_host_ok hostname
  else
    let '(hostname, _, _) := partition ":"%char hostname_and_port in
    bracketed_host_ok hostname.

Record split_result := mk_split { scheme : string; netloc : string }.

(** [urlsplit(url)], keeping the scheme and netloc. *)
Definition urlsplit (url0 : string) : py_result split_result :=
  let url1 := remove_unsafe (lstrip_c0 url0) in
  let '(before, found, after) := partition ":"%char url1 in
  let '(sch, url2) :=
    match found, before with
    | true, String c0 _ =>
        if is_alpha c0 && all_chars is_scheme_char before
        then (lower before, after) else (EmptyString, url1)
    | _, _ => (EmptyString, url1)
    end in
  match url2 with
  | String "/" (String "/" rest) =>
      let '(nl, _) := split_netloc rest in
      let has_open := contains "[" nl in
      let has_close := contains "]" nl in
      if xorb has_open has_close then Raise ValueError
      else if has_open && has_close && negb (bracketed_netloc_ok nl) then Raise ValueError
      else Ok (mk_split sch nl)
  | _ => Ok (mk_split sch EmptyString)
  end.

(** [_hostinfo]: (hostname, port string or None). *)
Definition hostinfo (r : split_result) : string * option string :=
  let '(_, _, hinfo) := rpartition "@"%char (netloc r) in
  let '(_, have_open_br, bracketed) := partition "["%char hinfo in
  let '(hostname, port) :=
    if have_open_br then
      let '(h, _, p) := partition "]"%char bracketed in
      let '(_, _, p') := partition ":"%char p in (h, p')
    else
      let '(h, _, p) := partition ":"%char hinfo in (h, p) in
  (hostname, match port with EmptyString => None | _ => Some port end).

(** [.hostname]: lower-cased (before a "%" zone), None when empty. *)
Definition hostname (r : split_result) : option string :=
  let '(h, _) := hostinfo r in
  match h with
  | EmptyString => None
  | _ => let '(a, pct, z) := partition "%"%char h in
         Some (lower a ++ (if pct then "%" else "") ++ z)
  end.

Fixpoint digits_value (acc : N) (s : string) : N :=
  match s with
  | EmptyString => acc
  | String c s' => digits_value (acc * 10 + (N.of_nat (nat_of_ascii c) - 48))%N s'
  end.

(** [.port]: [int(port)] when all ASCII digits, else [ValueError];
    [ValueError] out of 0..65535. *)
Definition port (r : split_result) : py_result (option N) :=
  match snd (hostinfo r) with
  | None => Ok None
  | Some p =>
      if all_chars is_digit p then
        let n := digits_value 0 p in
        if (n <=? 65535)%N then Ok (Some n) else Raise ValueError
      else Raise ValueError
  end.

(** [str(n)] for a natural number. *)
Fixpoint decimal_aux (fuel : nat) (n : N) (acc : string) : string :=
  match fuel with
  | O => acc
  | S f =>
      let d := ascii_of_nat (48 + N.to_nat (n mod 10)) in
      let q := (n / 10)%N in
      if (q =? 0)%N then String d acc else decimal_aux f q (String d acc)
  end.
Definition string_of_port (n : N) : string := decimal_aux 20 n EmptyString.

(** [f":{parsed.port}" if parsed.port else ""] *)
Definition port_suffix (p : option N) : string :=
  match p with
  | Some n => if (n =? 0)%N then "" else ":" ++ string_of_port n
  | None => ""
  end.

(** [_normalize_base_url(candidate)]; [None] is Python's [None]. *)
Definition _normalize_base_url (candidate : option string) : py_result (option string) :=
  match candidate with
  | None | Some EmptyString => Ok None
  | Some cand =>
    let value := strip cand in
    match value with
    | EmptyString => Ok None
    | _ =>
      let value := rstrip_slash value in
      match urlsplit (if contains "://" value then value else "https://" ++ value) with
      | Raise e => Raise e
      | Ok parsed =>
        match hostname parsed with
        | None => Ok None
        | Some host =>
          if is_localhost_host host then
            (* scheme = parsed.scheme or "http"; if scheme != "http": scheme = "http" *)
            let scheme := "http" in
            match port parsed with
            | Raise e => Raise e
            | Ok p =>
                Ok (Some (scheme ++ "://localhost" ++ port_suffix p))
            end
          else if is_allowed_production_host host then Ok (Some CANONICAL_PRODUCTION_URL)
          else if ends_with "share.streamlit.io" host then Ok (Some CANONICAL_PRODUCTION_URL)
          else Ok None
        end
      end
    end
  end.

(** [_get_production_base_url()] over the candidates in order: the
    secrets OAUTH_REDIRECT_URL and PRODUCTION_BASE_URL, then the
    environment OAUTH_REDIRECT_URL, PRODUCTION_BASE_URL and SITE_URL. *)
Fixpoint _get_production_base_url (candidates : list (option string)) : py_result string :=
  match candidates with
  | [] => Ok CANONICAL_PRODUCTION_URL
  | c :: cs =>
      match _normalize_base_url c with
      | Raise e => Raise e
      | Ok (Some n) => Ok n
      | Ok None => _get_production_base_url cs
      end
  end.

(** The host [_normalize_base_url] classifies, after its own
    preprocessing of the candidate. *)
Definition candidate_url (cand : string) : string :=
  let value := rstrip_slash (strip cand) in
  if contains "://" value then value else "https://" ++ value.

End Redirect.

(* ------------------------------------------------------------------ *)
(** ** Engagement figure of the minimal uploader (src/add_to_supabase.py):
    [round(((likes + comments) / views), 4) if views else None]. A Python
    float is an IEEE 754 binary64 number, kept here as its exact value in
    Q; [int / int] is the correctly rounded quotient ([OverflowError] when
    it is too large), and [round(x, 4)] rounds the exact value of [x] to
    4 decimals (ties to even) and reads the result back as a float, as
    CPython's [double_round] does. *)
Module Uploader.
Local Open Scope Z_scope.

(** [n / d] rounded to the nearest integer, ties to even ([d > 0]). *)
Definition round_half_even_div (n d : Z) : Z :=
  let q := n / d in
  let r := n mod d in
  match Z.compare (2 * r) d with
  | Lt => q
  | Gt => q + 1
  | Eq => if Z.even q then q else q + 1
  end.

(** [2^e <= a / q] for [a, q > 0]. *)
Definition pow2_le (e a q : Z) : bool :=
  if 0 <=? e then q * 2 ^ e <=? a else q <=? a * 2 ^ (- e).

(** The IEEE 754 binary64 number nearest to [x] (ties to even), or
    [None] when that rounding overflows (magnitude at least 2^1024). *)
Definition binary64_round (x : Q) : option Q :=
  let p := Qnum x in
  let q := Zpos (Qden x) in
  if p =? 0 then Some 0%Q else
  let a := Z.abs p in
  let e0 := Z.log2 a - Z.log2 q in
  let e := if pow2_le e0 a q then e0 else e0 - 1 in
  let k := Z.max (e - 52) (-1074) in
  let m := if 0 <=? k then round_half_even_div a (q * 2 ^ k)
           else round_half_even_div (a * 2 ^ (- k)) q in
  let sm := if p <? 0 then - m else m in
  if 0 <=? k then
    (if 2 ^ 1024 <=? m * 2 ^ k then None else Some (inject_Z (sm * 2 ^ k)))
  else Some (Qmake sm (Z.to_pos (2 ^ (- k)))).

Definition round4 (x : Q) : py_result Q :=
  let z := round_half_even_div (Qnum x * 10000) (Zpos (Qden x)) in
  match binary64_round (Qmake z 10000) with
  | Some y => Ok y
  | None => Raise OverflowError
  end.

Definition engagement (views likes comments : Z) : py_result (option Q) :=
  if views =? 0 then Ok None
  else match binary64_round (inject_Z (likes + comments) / inject_Z views) with
       | None => Raise OverflowError
       | Some x =>
           match round4 x with
           | Ok y => Ok (Some y)
           | Raise e => Raise e
           end
       end.
End Uploader.

(* ------------------------------------------------------------------ *)
(** ** Demo-data seeder ([seed_metrics], src/scripts/seed_demo_data.py).
    [rng.random()] is the [k]-th value of a draw sequence [rnd]; floats
    are modelled in Q; a day is its day number since 1970-01-01. *)
Module Seeder.
Local Open Scope Q_scope.

Record seed_row := mk_row {
  r_p_id : string;
  r_day : Z;
  r_view_count : Z;
  r_like_count : Z;
  r_comment_count : Z }.

(** [int(x)]: truncation toward zero. *)
Definition py_int (x : Q) : Z :=
  if Qle_bool 0 x then Qfloor x else (- Qfloor (- x))%Z.

(** [day.weekday()]: Monday = 0; 1970-01-01 was a Thursday. *)
Definition weekday (day : Z) : Z := ((day + 3) mod 7)%Z.

Section Gen.
Variable rnd : nat -> Q.

(** [rng.uniform(a, b)] = [a + (b - a) * rng.random()] *)
Definition uniform (a b : Q) (k : nat) : Q * nat := (a + (b - a) * rnd k, S k).

(** The increments of one day. *)
Definition day_incs (base_daily_views : Q) (day : Z) (d : nat) (k : nat)
  : (Z * Z * Z) * nat :=
  let weekend_multiplier := if (5 <=? weekday day)%Z then 7#10 else 1 in
  let trend_factor := 1 + inject_Z (Z.of_nat d) * (33 # 100000) in
  let '(daily_variation, k) := uniform (7#10) (15#10) k in
  let r1 := rnd k in
  let k := S k in
  let '(spike_multiplier, k) :=
    if Qlt_le_dec r1 (5#100) then uniform 3 8 k else (1, k) in
  let r2 := rnd k in
  let k := S k in
  let '(dip_multiplier, k) :=
    if (if Qlt_le_dec r2 (10#100) then true else false) && Qeq_bool spike_multiplier 1
    then uniform (4#10) (8#10) k else (1, k) in
  let inc_v := py_int (base_daily_views * weekend_multiplier * trend_factor
                       * daily_variation * spike_multiplier * dip_multiplier) in
  let '(like_rate, k) := uniform (2#100) (5#100) k in
  let inc_l := Z.max 0 (py_int (inject_Z inc_v * like_rate)) in
  let '(comment_rate, k) := uniform (5#1000) (2#100) k in
  let inc_c := Z.max 0 (py_int (inject_Z inc_v * comment_rate)) in
  ((inc_v, inc_l, inc_c), k).

(** [for d in range(days)] for one project, from day index [d]. *)
Fixpoint gen_days (pid : string) (base : Q) (start : Z) (d : nat) (n : nat)
    (cum : Z * Z * Z) (k : nat) : list seed_row * nat :=
  match n with
  | O => ([], k)
  | S n' =>
      let day := (start + Z.of_nat d)%Z in
      let '((iv, il, ic), k) := day_incs base day d k in
      let '(cv, cl, cc) := cum in
      let cum' := ((cv + iv)%Z, (cl + il)%Z, (cc + ic)%Z) in
      let '(cv', cl', cc') := cum' in
      let '(rest, k) := gen_days pid base start (S d) n' cum' k in
      (mk_row pid day cv' cl' cc' :: rest, k)
  end.

(** [[1200, 800, 1500][pid_idx % 3]] *)
Definition base_daily_views (pid_idx : nat) : Q :=
  match Nat.modulo pid_idx 3 with 0%nat => 1200 | 1%nat => 800 | _ => 1500 end.

Fixpoint gen_projects (p_ids : list string) (pid_idx : nat) (start : Z)
    (days : nat) (k : nat) : list seed_row :=
  match p_ids with
  | [] => []
  | pid :: ps =>
      let '(rows, k) := gen_days pid (base_daily_views pid_idx) start 0 days (0, 0, 0)%Z k in
      (rows ++ gen_projects ps (S pid_idx) start days k)%list
  end.

(** [seed_metrics(client, p_ids, days, force)]: the rows inserted.
    [recent] is whether a row of the last 30 days exists; [today] is
    today's UTC day number. *)
Definition seed_metrics (recent : bool) (p_ids : list string) (days : Z)
    (force : bool) (today : Z) : list seed_row :=
  if negb force && recent then []
  else
    let start := (today - (days - 1))%Z in
    gen_projects p_ids 0 start (Z.to_nat days) 0.

(** [main()]: the three demo projects of the script. *)
Definition demo_p_ids : list string := ["dEm0V1dE01a"; "dEm0V1dE01b"; "dEm0V1dE01c"].

Definition main_seed (recent : bool) (days : Z) (force : bool) (today : Z) : list seed_row :=
  seed_metrics recent demo_p_ids days force today.

End Gen.

(** Consecutive rows of one project never decrease. *)
Fixpoint nondecreasing (rows : list seed_row) : Prop :=
  match rows with
  | [] => True
  | r :: rs =>
      match rs with
      | [] => True
      | r' :: _ =>
          (r_day r < r_day r')%Z /\ (r_view_count r <= r_view_count r')%Z
          /\ (r_like_count r <= r_like_count r')%Z
          /\ (r_comment_count r <= r_comment_count r')%Z
      end /\ nondecreasing rs
  end.

Definition rows_of (pid : string) (rows : list seed_row) : list seed_row :=
  filter (fun r => String.eqb (r_p_id r) pid) rows.

End Seeder.

(* ------------------------------------------------------------------ *)
(** ** Token expiry check ([is_token_expired], src/utils/instagram_oauth.py). *)
Module TokenExpiry.
Local Open Scope Z_scope.

(** A parsed [datetime]: wall-clock seconds since the epoch and the UTC
    offset in seconds when aware. *)
Record datetime := mk_dt { dt_seconds : Z; dt_offset : option Z }.

(** The range of [datetime]: 0001-01-01 .. 9999-12-31 23:59:59. *)
Definition MIN_SECONDS : Z := -62135596800.
Definition MAX_SECONDS : Z := 253402300799.

(** [s.replace('Z', '+00:00')] *)
Fixpoint replace_Z (s : string) : string :=
  match s with
  | EmptyString => EmptyString
  | String c s' =>
      if Ascii.eqb c "Z"%char then "+00:00" ++ replace_Z s' else String c (replace_Z s')
  end.

Section Expiry.
(** [datetime.fromisoformat]: [None] when it raises [ValueError]. *)
Variable fromisoformat : string -> option datetime.
(** [datetime.now(timezone.utc)] in seconds. *)
Variable now : Z.

(** [expiry.astimezone(timezone.utc)]: [OverflowError] out of range. *)
Definition astimezone_utc (dt : datetime) (off : Z) : py_result Z :=
  let t := dt_seconds dt - off in
  if (MIN_SECONDS <=? t) && (t <=? MAX_SECONDS) then Ok t else Raise OverflowError.

Definition is_token_expired (expires_at : option string) : py_result bool :=
  match expires_at with
  | None | Some EmptyString => Ok false
  | Some s =>
      let body :=
        match fromisoformat (replace_Z s) with
        | None => Raise ValueError
        | Some expiry =>
            let utc :=
              match dt_offset expiry with
              | None => Ok (dt_seconds expiry)        (* replace(tzinfo=utc) *)
              | Some off => astimezone_utc expiry off
              end in
            match utc with
            | Raise e => Raise e
            | Ok t =>
                let threshold := now + 7 * 86400 in
                Ok (t <=? threshold)
            end
        end in
      (* except (ValueError, AttributeError): return False *)
      match body with
      | Raise ValueError | Raise AttributeError => Ok false
      | r => r
      end
  end.

End Expiry.
End TokenExpiry.

(* ------------------------------------------------------------------ *)
(** ** Python [dict]s with string keys, in insertion order. *)
Module PyDict.

(** [m[k] = v]: an existing key keeps its place. *)
Fixpoint dict_set {V : Type} (m : list (string * V)) (k : string) (v : V)
  : list (string * V) :=
  match m with
  | [] => [(k, v)]
  | (k', v') :: m' =>
      if String.eqb k' k then (k, v) :: m' else (k', v') :: dict_set m' k v
  end.

(** [m.get(k)] *)
Definition dict_get {V : Type} (m : list (string * V)) (k : string) : option V :=
  match find (fun kv => String.eqb (fst kv) k) m with
  | Some (_, v) => Some v
  | None => None
  end.

(** [k in m] *)
Definition dict_mem {V : Type} (m : list (string * V)) (k : string) : bool :=
  match dict_get m k with Some _ => true | None => false end.

End PyDict.

(* ------------------------------------------------------------------ *)
(** ** Slicing into batches: [[l[i:i + size] for i in range(0, len(l), size)]]. *)
Module Batch.
Local Open Scope nat_scope.

Fixpoint chunks_aux {A : Type} (size fuel : nat) (l : list A) : list (list A) :=
  match fuel with
  | O => []
  | S f =>
      match l with
      | [] => []
      | _ => firstn size l :: chunks_aux size f (skipn size l)
      end
  end.

Definition chunks {A : Type} (size : nat) (l : list A) : list (list A) :=
  chunks_aux size (length l) l.

End Batch.

(* ------------------------------------------------------------------ *)
(** ** Batched YouTube reads ([fetch_live_metrics_for_user] and
    [fetch_channels_for_projects], src/credify_app.py). [resp batch] is the
    answer to the request for the ids of [batch] (joined by ","). The
    [@st.cache_data] memoisation of the second one is not modelled. *)
Module YouTubeBatch.
Import PyDict Batch.
Local Open Scope nat_scope.

Inductive api_resp (A : Type) : Type :=
  | NotOk                      (* not res.ok *)
  | Failed                     (* requests.get or res.json() raised *)
  | Items (items : list A).    (* data.get("items"); [] when missing or empty *)
Arguments NotOk {A}.
Arguments Failed {A}.
Arguments Items {A} items.

(** An item of the statistics answer: [item["id"]] and the raw
    [statistics] fields; [None] for a missing key. *)
Record live_item := mk_live_item {
  li_id : option string;
  li_viewCount : option string;
  li_likeCount : option string;
  li_commentCount : option string }.

Record live_entry := mk_live_entry {
  view_count : Z; like_count : Z; comment_count : Z; share_count : Z }.

(** [[p["p_id"] for p in projects_resp.data]] for
    [.select("p_id").eq("u_id", u_id)] on [user_projects]. *)
Definition project_ids_of (t : Credits.table) (u_id : string) : list string :=
  map Credits.c_p_id (filter (fun c => String.eqb (Credits.c_u_id c) u_id) t).

Section Live.
(** [int(s)] on a [str]; [None] when it raises [ValueError]. *)
Variable py_int_str : string -> option Z.

(** [int(stats.get(key, 0))] *)
Definition stat (v : option string) : option Z :=
  match v with None => Some 0%Z | Some s => py_int_str s end.

(** The [for item in data["items"]] loop: an exception ([KeyError] or
    [ValueError]) leaves the rest of the batch to the [except]. *)
Fixpoint store_live (m : list (string * live_entry)) (items : list live_item)
  : list (string * live_entry) :=
  match items with
  | [] => m
  | it :: its =>
      match li_id it, stat (li_viewCount it), stat (li_likeCount it),
            stat (li_commentCount it) with
      | Some p, Some v, Some l, Some c =>
          store_live (dict_set m p (mk_live_entry v l c 0)) its
      | _, _, _, _ => m
      end
  end.

(** The batches requested and the result ([None] is Python's [None]). *)
Definition fetch_live_metrics_for_user (t : Credits.table) (u_id : string)
    (resp : list string -> api_resp live_item)
  : list (list string) * option (list (string * live_entry)) :=
  let project_ids := project_ids_of t u_id in
  match project_ids with
  | [] => ([], Some [])
  | _ =>
      let batches := chunks 50 project_ids in
      let live_metrics :=
        fold_left (fun m b => match resp b with
                              | Items its => store_live m its
                              | _ => m
                              end) batches [] in
      (batches, match live_metrics with [] => None | _ => Some live_metrics end)
  end.
End Live.

(** An item of the snippet answer: [snippet.get("channelId")] and
    [snippet.get("channelTitle")]. *)
Record ch_item := mk_ch_item {
  ci_channelId : option string;
  ci_channelTitle : option string }.

Record channel := mk_channel { ch_title : string; ch_url : string }.

(** [{"title": ch_title or "Unknown Channel", "url": ...}] *)
Definition channel_of (ch_id : string) (it : ch_item) : channel :=
  mk_channel (match ci_channelTitle it with
              | None | Some EmptyString => "Unknown Channel"
              | Some t => t
              end)
             ("https://www.youtube.com/channel/" ++ ch_id).

(** [if ch_id and ch_id not in channels: channels[ch_id] = ...] *)
Definition store_channel (m : list (string * channel)) (it : ch_item)
  : list (string * channel) :=
  match ci_channelId it with
  | Some ch_id =>
      if String.eqb ch_id "" then m
      else if dict_mem m ch_id then m
      else dict_set m ch_id (channel_of ch_id it)
  | None => m
  end.

Definition fetch_channels_for_projects (project_ids : list string)
    (resp : list string -> api_resp ch_item) : list (string * channel) :=
  match project_ids with
  | [] => []
  | _ =>
      fold_left (fun m b => match resp b with
                            | Items its => fold_left store_channel its m
                            | _ => m
                            end) (chunks 50 project_ids) []
  end.

End YouTubeBatch.

(* ------------------------------------------------------------------ *)
(** ** Follow relations and user search (src/supabase_utils.py). The
    [user_follows] table is the list of its rows; an insert is assumed to
    be accepted by the database. *)
Module Follow.
Import PyStr.
Local Open Scope nat_scope.

Record follow_row := mk_follow { follower_id : string; followed_id : string }.

Definition follows := list follow_row.

(** [.eq("follower_id", a).eq("followed_id", b)] *)
Definition row_is (a b : string) (r : follow_row) : bool :=
  String.eqb (follower_id r) a && String.eqb (followed_id r) b.

Definition get_following (t : follows) (u_id : string) : list string :=
  map followed_id (filter (fun r => String.eqb (follower_id r) u_id) t).

(** [len(res.data or []) > 0] *)
Definition is_following (t : follows) (follower followed : string) : bool :=
  0 <? length (filter (row_is follower followed) t).

Definition follow_user (t : follows) (follower followed : string) : follows :=
  if is_following t follower followed then t
  else (t ++ [mk_follow follower followed])%list.

Definition unfollow_user (t : follows) (follower followed : string) : follows :=
  filter (fun r => negb (row_is follower followed r)) t.

Record user := mk_user { u_id : string; u_name : string; u_email : string; u_bio : string }.

(** A [user_metrics] row: [u_id], [total_view_count] (nullable). *)
Record metrics_row := mk_metrics_row { mr_u_id : string; mr_total_view_count : option Z }.

(** A result row: the user's columns with [is_following] and [total_views]. *)
Record hit := mk_hit { h_user : user; h_is_following : bool; h_total_views : Z }.

Fixpoint dedup_users (seen : list string) (rows : list user) : list user :=
  match rows with
  | [] => []
  | r :: rs =>
      if existsb (String.eqb (u_id r)) seen then dedup_users seen rs
      else r :: dedup_users (u_id r :: seen) rs
  end.

(** [{m["u_id"]: m.get("total_view_count", 0) or 0 for m in ...}.get(uid, 0)]:
    the last row of a [u_id] wins. *)
Definition metrics_get (ms : list metrics_row) (uid : string) : Z :=
  fold_left (fun acc m =>
               if String.eqb (mr_u_id m) uid
               then match mr_total_view_count m with Some v => v | None => 0%Z end
               else acc) ms 0%Z.

Section Search.
(** PostgreSQL [value ILIKE pattern]. *)
Variable ilike : string -> string -> bool.

Definition search_users (users : list user) (t : follows) (ms : list metrics_row)
    (query current_u_id : string) : list hit :=
  if String.eqb query "" || (String.length (strip query) <? 1) then []
  else
    let query_clean := strip query in
    let pat := "%" ++ query_clean ++ "%" in
    let name_results :=
      firstn 20 (filter (fun r => ilike (u_name r) pat
                                  && negb (String.eqb (u_id r) current_u_id)) users) in
    let email_results :=
      firstn 20 (filter (fun r => ilike (u_email r) pat
                                  && negb (String.eqb (u_id r) current_u_id)) users) in
    let us := firstn 20 (dedup_users [] (name_results ++ email_results)%list) in
    match us with
    | [] => []
    | _ =>
        let user_ids := map u_id us in
        let followed_ids :=
          map followed_id (filter (fun r => String.eqb (follower_id r) current_u_id
                                           && existsb (String.eqb (followed_id r)) user_ids) t) in
        let ms' := filter (fun m => existsb (String.eqb (mr_u_id m)) user_ids) ms in
        map (fun u => mk_hit u (existsb (String.eqb (u_id u)) followed_ids)
                             (metrics_get ms' (u_id u))) us
    end.
End Search.

End Follow.

(* ------------------------------------------------------------------ *)
(** ** [sanitize_user_input] (src/credify_app.py) on ASCII text:
    [html.unescape], three [re.sub] removals and [' '.join(text.split())]. *)
Module Sanitize.
Import PyStr.
Local Open Scope nat_scope.

(** The text before the first ">" and the text after it. *)
Fixpoint upto_gt (s : string) : option (string * string) :=
  match s with
  | EmptyString => None
  | String c s' =>
      if Ascii.eqb c ">"%char then Some (EmptyString, s')
      else match upto_gt s' with
           | Some (a, b) => Some (String c a, b)
           | None => None
           end
  end.

(** [<[^>]+>] at the start of [s]: the text after the match. *)
Definition match_tag (s : string) : option string :=
  match s with
  | String c s' =>
      if Ascii.eqb c "<"%char then
        match upto_gt s' with
        | Some (String _ _, rest) => Some rest
        | _ => None
        end
      else None
  | EmptyString => None
  end.

(** A literal matched with [re.IGNORECASE]. *)
Fixpoint prefix_ci (p s : string) : option string :=
  match p, s with
  | EmptyString, _ => Some s
  | String a p', String b s' =>
      if Ascii.eqb (Redirect.lower_char a) (Redirect.lower_char b) then prefix_ci p' s'
      else None
  | _, _ => None
  end.

(** [javascript:] *)
Definition match_javascript (s : string) : option string := prefix_ci "javascript:" s.

(** [\w] *)
Definition is_word (c : ascii) : bool :=
  Redirect.is_alpha c || Redirect.is_digit c || Ascii.eqb c "_"%char.

Fixpoint span (f : ascii -> bool) (s : string) : string * string :=
  match s with
  | String c s' => if f c then let '(a, b) := span f s' in (String c a, b)
                   else (EmptyString, s)
  | EmptyString => (EmptyString, EmptyString)
  end.

(** [on\w+\s*=]: [\w], [\s] and "=" are disjoint, so the greedy runs
    never give back a character. *)
Definition match_on_handler (s : string) : option string :=
  match prefix_ci "on" s with
  | None => None
  | Some r0 =>
      let '(w, r1) := span is_word r0 in
      match w with
      | EmptyString => None
      | _ =>
          let '(_, r2) := span is_space r1 in
          match r2 with
          | String c r3 => if Ascii.eqb c "="%char then Some r3 else None
          | EmptyString => None
          end
      end
  end.

(** [re.sub(p, '', s)] for a pattern [p] that never matches the empty
    string, [m] matching [p] at the start of a string: the leftmost match
    is removed and the scan goes on after it. *)
Fixpoint sub_empty (m : string -> option string) (fuel : nat) (s : string) : string :=
  match fuel with
  | O => s
  | S f =>
      match m s with
      | Some rest => sub_empty m f rest
      | None =>
          match s with
          | EmptyString => EmptyString
          | String c s' => String c (sub_empty m f s')
          end
      end
  end.

Definition re_sub_empty (m : string -> option string) (s : string) : string :=
  sub_empty m (String.length s) s.

(** [s.split()] *)
Fixpoint split_ws_aux (cur s : string) : list string :=
  match s with
  | EmptyString => match cur with EmptyString => [] | _ => [cur] end
  | String c s' =>
      if is_space c then
        match cur with
        | EmptyString => split_ws_aux EmptyString s'
        | _ => cur :: split_ws_aux EmptyString s'
        end
      else split_ws_aux (cur ++ String c EmptyString) s'
  end.

Definition split_ws (s : string) : list string := split_ws_aux EmptyString s.

(** [' '.join(l)] *)
Fixpoint join_space (l : list string) : string :=
  match l with
  | [] => EmptyString
  | w :: ws => match ws with
               | [] => w
               | _ => w ++ String " " (join_space ws)
               end
  end.

Section Sanitize.
(** [html.unescape] *)
Variable unescape : string -> string.

Definition sanitize_user_input (text : string) : string :=
  match text with
  | EmptyString => EmptyString
  | _ =>
      let text := unescape text in
      let text := re_sub_empty match_tag text in
      let text := re_sub_empty match_javascript text in
      let text := re_sub_empty match_on_handler text in
      join_space (split_ws text)
  end.
End Sanitize.

End Sanitize.

(* ------------------------------------------------------------------ *)
(** ** [is_valid_image_url] (src/credify_app.py), with [urlparse] as in
    CPython 3.11 on ASCII text. *)
Module ImageUrl.
Import PyStr Redirect.
Local Open Scope nat_scope.

(** The text [urlsplit] reads after the scheme (the same steps as in
    [Redirect.urlsplit]). *)
Definition url_rest (url0 : string) : string :=
  let url1 := remove_unsafe (lstrip_c0 url0) in
  let '(before, found, after) := partition ":"%char url1 in
  match found, before with
  | true, String c0 _ =>
      if is_alpha c0 && all_chars is_scheme_char before then after else url1
  | _, _ => url1
  end.

(** The text before the first "?" or "#". *)
Fixpoint upto_qf (s : string) : string :=
  match s with
  | EmptyString => EmptyString
  | String c s' =>
      if Ascii.eqb c "?"%char || Ascii.eqb c "#"%char then EmptyString
      else String c (upto_qf s')
  end.

(** [uses_params] *)
Definition uses_params (s : string) : bool :=
  existsb (String.eqb s) [""; "ftp"; "hdl"; "prospero"; "http"; "imap"; "https";
                          "shttp"; "rtsp"; "rtspu"; "sip"; "sips"; "mms"; "sftp"; "tel"].

(** [_splitparams(url)[0]] *)
Definition split_params (url : string) : string :=
  if contains "/" url then
    let '(dir, _, last) := rpartition "/"%char url in
    let '(a, found, _) := partition ";"%char last in
    if found then dir ++ "/" ++ a else url
  else let '(a, _, _) := partition ";"%char url in a.

(** [urlparse(url).path] for the scheme [sch] [urlsplit] found. *)
Definition urlparse_path (sch url0 : string) : string :=
  let url2 := url_rest url0 in
  let p := match url2 with
           | String "/" (String "/" rest) => upto_qf (snd (split_netloc rest))
           | _ => upto_qf url2
           end in
  if uses_params sch && contains ";" p then split_params p else p.

Definition image_exts : list string :=
  [".png"; ".jpg"; ".jpeg"; ".gif"; ".webp"; ".bmp"; ".svg"].

Section Head.
(** [requests.head(url, ...)]: [None] when it raises, else the
    [Content-Type] header ("" when missing). *)
Variable head_content_type : string -> option string.

(** The URLs sent a HEAD request, and the result. *)
Definition is_valid_image_url (url : string) : list string * py_result bool :=
  match url with
  | EmptyString => ([], Ok false)
  | _ =>
    let candidate := strip url in
    if 2048 <? String.length candidate then ([], Ok false)
    else
      match urlsplit candidate with
      | Raise e => ([], Raise e)
      | Ok parsed =>
          if negb (String.eqb (scheme parsed) "http" || String.eqb (scheme parsed) "https")
          then ([], Ok false)
          else if String.eqb (netloc parsed) "" then ([], Ok false)
          else
            let path_lower := lower (urlparse_path (scheme parsed) candidate) in
            let has_image_ext := existsb (fun ext => ends_with ext path_lower) image_exts in
            ([candidate],
             match head_content_type candidate with
             | Some ct => if String.prefix "image/" (lower ct) then Ok true else Ok has_image_ext
             | None => Ok has_image_ext
             end)
      end
  end.
End Head.

End ImageUrl.

(* ------------------------------------------------------------------ *)
(** ** Settings read by the OAuth helpers (src/auth.py). A candidate is
    [None] when unset (or when [st.secrets] raises). *)
Module Settings.
Import PyStr.

(** [_read_secret_or_env(key)] from the secret and the environment value. *)
Definition _read_secret_or_env (secret_value env_value : option string) : option string :=
  let pick (raw : option string) :=
    match raw with
    | None => None
    | Some r => match strip r with EmptyString => None | v => Some v end
    end in
  match pick secret_value with
  | Some v => Some v
  | None => pick env_value
  end.

(** [_resolve_instagram_redirect_path()] over the secret and the
    environment [INSTAGRAM_REDIRECT_PATH]. *)
Fixpoint _resolve_instagram_redirect_path (path_candidates : list (option string)) : string :=
  match path_candidates with
  | [] => "/auth/callback"
  | c :: cs =>
      match c with
      | None | Some EmptyString => _resolve_instagram_redirect_path cs
      | Some v =>
          match strip v with
          | EmptyString => _resolve_instagram_redirect_path cs
          | path => if String.prefix "/" path then path else "/" ++ path
          end
      end
  end.

End Settings.

(* ------------------------------------------------------------------ *)
(** ** The seeder's table writes (src/scripts/seed_demo_data.py). *)
Module SeedDb.
Import Batch Seeder Credits.
Local Open Scope nat_scope.

(** [inserted] of [seed_metrics]: the rows go out in batches of 500. *)
Definition seed_metrics_inserted (rnd : nat -> Q) (recent : bool) (p_ids : list string)
    (days : Z) (force : bool) (today : Z) : nat :=
  fold_left (fun inserted batch => inserted + length batch)
            (chunks 500 (seed_metrics rnd recent p_ids days force today)) 0.

(** [ensure_user_links(client, u_id, demos)] on the [user_projects] rows. *)
Definition ensure_user_links (t : table) (u_id : string) (demos : list string) : table :=
  fold_left (fun t p =>
               if existsb (fun c => String.eqb (c_u_id c) u_id && String.eqb (c_p_id c) p) t
               then t else (t ++ [mk_credit u_id p "Demo Role"])%list) demos t.

End SeedDb.

(* ================================================================== *)
(** * Properties *)

Module VideoIdFacts.
Import VideoId.

(** A URL without an identifier stops the claim flow before any lookup. *)
Lemma claim_flow_aborts_without_id (extract : string -> option string) (url : string) :
  extract url = None -> claim_flow extract url = AbortInvalidUrl.
Proof. intro H. unfold claim_flow. rewrite H. reflexivity. Qed.

(** C1 (code_bug): the main application's [extract_video_id] recovers
    the identifier of the watch-URL form but not of the short-link form
    [https://youtu.be/dQw4w9WgXcQ]: its pattern [youtu\\.be/] asks for a
    literal backslash. The claim flow therefore aborts with "Invalid
    YouTube URL." on that input, while the sibling parser of
    src/claim_role.py ([youtu\.be/]) returns [dQw4w9WgXcQ]. *)
Lemma extract_video_id_short_link_missed :
  extract_video_id "https://www.youtube.com/watch?v=dQw4w9WgXcQ" = Some "dQw4w9WgXcQ"
  /\ extract_video_id "https://youtu.be/dQw4w9WgXcQ" = None
  /\ claim_flow extract_video_id "https://youtu.be/dQw4w9WgXcQ" = AbortInvalidUrl
  /\ claim_role_extract_video_id "https://youtu.be/dQw4w9WgXcQ" = Some "dQw4w9WgXcQ"
  /\ claim_role_extract_video_id "https://www.youtube.com/watch?v=dQw4w9WgXcQ"
     = Some "dQw4w9WgXcQ".
Proof. vm_compute. repeat split. Qed.

End VideoIdFacts.

Module FetchValidationFacts.
Import FetchValidation.

(** A candidate whose length is not 11 never reaches the network. *)
Lemma fetch_short_circuits_on_length (uni : N -> bool) (vid : pystr) :
  length vid <> 11%nat -> fetch_youtube_data uni vid = ShortCircuit.
Proof.
  intro H. unfold fetch_youtube_data.
  destruct (Nat.eqb_spec (length vid) 11) as [E|E]; [contradiction|].
  rewrite orb_true_r. reflexivity.
Qed.

(** The failing input of C4: ten ASCII characters and U+00E9 ("é"). *)
Definition latin1_candidate : pystr := (pystr_of_string "dQw4w9WgXc" ++ [233%N])%list.

(** Taken alone, [fetch_youtube_data] lets an 11-character candidate
    holding [é] (outside [A-Za-z0-9_-]) through both checks, because
    Python's [str.isalnum] accepts Unicode letters; this holds whatever
    the Unicode table says beyond Latin-1. No caller passes such a
    candidate (see [FetchReachFacts]). *)
Lemma fetch_youtube_data_accepts_non_ascii_letter (uni : N -> bool) :
  length latin1_candidate = 11%nat
  /\ existsb (fun c => negb (spec_id_char c)) latin1_candidate = true
  /\ fetch_youtube_data uni latin1_candidate = GetVideo latin1_candidate.
Proof. vm_compute. repeat split. Qed.

End FetchValidationFacts.

Module CreditsFacts.
Import Credits.
Local Open Scope list_scope.
Local Open Scope nat_scope.

Lemma credit_eqb_spec (a b : credit) : credit_eqb a b = true <-> a = b.
Proof.
  destruct a as [u1 p1 r1], b as [u2 p2 r2]. unfold credit_eqb; simpl.
  rewrite !andb_true_iff, !String.eqb_eq. split.
  - intros [[-> ->] ->]. reflexivity.
  - intro H. inversion H. auto.
Qed.

Lemma credit_eqb_sym (a b : credit) : credit_eqb a b = credit_eqb b a.
Proof.
  destruct a as [u1 p1 r1], b as [u2 p2 r2]. unfold credit_eqb; simpl.
  rewrite (String.eqb_sym u1), (String.eqb_sym p1), (String.eqb_sym r1). reflexivity.
Qed.

Lemma count_credit_app (t : table) (row x : credit) :
  count_credit (t ++ [row]) x = count_credit t x + (if credit_eqb x row then 1 else 0).
Proof.
  unfold count_credit. rewrite filter_app, length_app. simpl.
  destruct (credit_eqb x row); reflexivity.
Qed.

Lemma existsb_false_count (t : table) (row : credit) :
  existsb (credit_eqb row) t = false -> count_credit t row = 0.
Proof.
  unfold count_credit. induction t as [|y t IH]; simpl; auto.
  intro H. apply orb_false_iff in H as [H1 H2].
  rewrite H1. apply IH. exact H2.
Qed.

Lemma existsb_true_count (t : table) (row : credit) :
  existsb (credit_eqb row) t = true -> 1 <= count_credit t row.
Proof.
  unfold count_credit. induction t as [|y t IH]; simpl; [discriminate|].
  intro H. destruct (credit_eqb row y) eqn:E; simpl; [lia|]. auto.
Qed.

(** One checked insertion keeps every key at most once and makes its own
    key present. *)
Lemma add_role_checked_count (u p : string) (t : table) (e : role_entry) (x : credit) :
  count_credit t x <= 1 -> count_credit (add_role_checked u p t e) x <= 1.
Proof.
  destruct e as [cat r]. unfold add_role_checked.
  destruct (existsb (credit_eqb (mk_credit u p r)) t) eqn:E; auto.
  rewrite count_credit_app. destruct (credit_eqb x (mk_credit u p r)) eqn:X; [|lia].
  apply credit_eqb_spec in X. subst. rewrite (existsb_false_count _ _ E). lia.
Qed.

Lemma add_role_checked_mono (u p : string) (t : table) (e : role_entry) (x : credit) :
  count_credit t x <= count_credit (add_role_checked u p t e) x.
Proof.
  destruct e as [cat r]. unfold add_role_checked.
  destruct (existsb _ t); [lia|]. rewrite count_credit_app. lia.
Qed.

Lemma add_role_checked_present (u p : string) (t : table) (cat r : string) :
  1 <= count_credit (add_role_checked u p t (cat, r)) (mk_credit u p r).
Proof.
  unfold add_role_checked.
  destruct (existsb (credit_eqb (mk_credit u p r)) t) eqn:E.
  - apply existsb_true_count. exact E.
  - rewrite count_credit_app.
    assert (credit_eqb (mk_credit u p r) (mk_credit u p r) = true) as -> by
      (apply credit_eqb_spec; reflexivity). lia.
Qed.

Lemma add_roles_at_most_one (u p : string) (roles : list role_entry) :
  forall (t : table) (x : credit),
  count_credit t x <= 1 -> count_credit (credify_app_add_roles u p roles t) x <= 1.
Proof.
  unfold credify_app_add_roles. induction roles as [|e roles IH]; simpl; auto.
  intros t x H. apply IH. apply add_role_checked_count. exact H.
Qed.

Lemma add_roles_mono (u p : string) (roles : list role_entry) :
  forall (t : table) (x : credit),
  count_credit t x <= count_credit (credify_app_add_roles u p roles t) x.
Proof.
  unfold credify_app_add_roles. induction roles as [|e roles IH]; simpl; auto.
  intros t x. etransitivity; [apply (add_role_checked_mono u p t e x)|]. apply IH.
Qed.

Lemma add_roles_present (u p : string) (roles : list role_entry) :
  forall (t : table) (cat r : string),
  In (cat, r) roles -> 1 <= count_credit (credify_app_add_roles u p roles t) (mk_credit u p r).
Proof.
  unfold credify_app_add_roles. induction roles as [|e roles IH]; simpl; [tauto|].
  intros t cat r [Heq | H]; [subst e|].
  - etransitivity; [apply (add_role_checked_present u p t cat r)|].
    apply add_roles_mono.
  - apply (IH _ cat r H).
Qed.

(** The Profile-page form: submitting the same roles twice leaves one
    row for every selected (user, project, role) that had none. *)
Lemma credify_app_twice_one_row (u p : string) (roles : list role_entry) (t : table)
    (cat r : string) :
  In (cat, r) roles -> count_credit t (mk_credit u p r) = 0 ->
  count_credit (credify_app_add_roles u p roles (credify_app_add_roles u p roles t))
               (mk_credit u p r) = 1.
Proof.
  intros Hin H0.
  pose proof (add_roles_present u p roles (credify_app_add_roles u p roles t) cat r Hin).
  assert (count_credit (credify_app_add_roles u p roles t) (mk_credit u p r) <= 1)
    by (apply add_roles_at_most_one; lia).
  assert (count_credit (credify_app_add_roles u p roles
            (credify_app_add_roles u p roles t)) (mk_credit u p r) <= 1)
    by (apply add_roles_at_most_one; assumption).
  lia.
Qed.

(** C2 (code_bug): on an empty [user_projects] table, submitting the role
    "Editor" for the same user and video twice leaves one row through the
    Profile-page form but two rows through src/claim_role.py, whose loop
    inserts without the existence check. *)
Lemma claim_role_twice_duplicates :
  let roles := [("Post-Production", "Editor")] in
  count_credit (credify_app_add_roles "u1" "dQw4w9WgXcQ" roles
                  (credify_app_add_roles "u1" "dQw4w9WgXcQ" roles []))
               (mk_credit "u1" "dQw4w9WgXcQ" "Editor") = 1
  /\ count_credit (claim_role_add_roles "u1" "dQw4w9WgXcQ" roles
                  (claim_role_add_roles "u1" "dQw4w9WgXcQ" roles []))
               (mk_credit "u1" "dQw4w9WgXcQ" "Editor") = 2.
Proof. vm_compute. split; reflexivity. Qed.

End CreditsFacts.

Module DailySeriesFacts.
Import DailySeries.
Local Open Scope Z_scope.

Definition nonneg (c : counts) : Prop := 0 <= views c /\ 0 <= likes c /\ 0 <= comments c.

Definition nonneg_entry (e : Z * counts) : Prop := nonneg (snd e).

Lemma clip0_nonneg (z : Z) : 0 <= clip0 z.
Proof. unfold clip0. lia. Qed.

Lemma zero_counts_nonneg : nonneg zero_counts.
Proof. unfold nonneg; simpl; lia. Qed.

Lemma inc_between_nonneg (a b : snapshot) : nonneg (inc_between a b).
Proof. unfold nonneg, inc_between; simpl. repeat split; apply clip0_nonneg. Qed.

Lemma add_counts_nonneg (a b : counts) : nonneg a -> nonneg b -> nonneg (add_counts a b).
Proof. unfold nonneg, add_counts; simpl. lia. Qed.

Lemma diffs_from_nonneg (rows : list snapshot) :
  forall prev, Forall nonneg_entry (diffs_from prev rows).
Proof.
  induction rows as [|r rs IH]; intro prev; simpl; constructor; auto.
  apply inc_between_nonneg.
Qed.

Lemma increments_nonneg (rows : list snapshot) : Forall nonneg_entry (increments rows).
Proof.
  destruct rows as [|r rs]; simpl; constructor.
  - apply zero_counts_nonneg.
  - apply diffs_from_nonneg.
Qed.

Lemma project_increments_nonneg (rows : list snapshot) (pid : string) :
  Forall nonneg_entry (project_increments rows pid).
Proof. apply increments_nonneg. Qed.

Lemma sum_on_nonneg (d : Z) (incs : list (Z * counts)) :
  Forall nonneg_entry incs -> nonneg (sum_on d incs).
Proof.
  induction incs as [|[d' c] incs IH]; intro H; simpl.
  - apply zero_counts_nonneg.
  - inversion H as [|? ? Hc Hr]; subst.
    destruct (d' =? d); [apply add_counts_nonneg|]; auto.
Qed.

Lemma aggregate_nonneg (incs : list (Z * counts)) :
  Forall nonneg_entry incs -> Forall nonneg_entry (aggregate incs).
Proof.
  intro H. unfold aggregate. apply Forall_map. apply Forall_forall.
  intros d _. apply sum_on_nonneg. exact H.
Qed.

Lemma lookup_day_nonneg (agg : list (Z * counts)) (d : Z) :
  Forall nonneg_entry agg -> nonneg (lookup_day agg d).
Proof.
  intro H. unfold lookup_day.
  destruct (find (fun '(d', _) => d' =? d) agg) as [[d' c]|] eqn:F.
  - apply find_some in F as [Hin _].
    rewrite Forall_forall in H. apply (H _ Hin).
  - apply zero_counts_nonneg.
Qed.

(** The increments kept in a series: clipped differences, never negative. *)
Lemma series_nonneg (pids : list string) (tbl : list snapshot) (start end_ : Z) :
  Forall nonneg_entry (fetch_user_daily_timeseries pids tbl start end_).
Proof.
  unfold fetch_user_daily_timeseries.
  destruct pids as [|p ps]; [constructor|].
  destruct (baseline_rows _ tbl start ++ range_rows _ tbl start end_)%list as [|r rs];
    [constructor|].
  set (inc := flat_map _ _).
  assert (Hinc : Forall nonneg_entry inc).
  { unfold inc. apply Forall_forall. intros x Hx.
    apply in_flat_map in Hx as [pid [_ Hx]].
    pose proof (project_increments_nonneg (r :: rs) pid) as Hp.
    rewrite Forall_forall in Hp. apply Hp, Hx. }
  assert (Hf : Forall nonneg_entry (filter (fun '(d, _) => date_of start <=? d) inc)).
  { apply Forall_forall. intros x Hx. apply filter_In in Hx as [Hx _].
    rewrite Forall_forall in Hinc. apply Hinc, Hx. }
  pose proof (aggregate_nonneg _ Hf) as Hagg.
  destruct (aggregate _) as [|a0 agg]; [constructor|].
  apply Forall_map. apply Forall_forall. intros d _.
  apply lookup_day_nonneg. exact Hagg.
Qed.

(** The specification's example: one project, cumulative views 100, 140,
    130 on days 1, 2, 3 (likes and comments likewise), window = days 2..3. *)
Definition example_table : list snapshot :=
  [ mk_snapshot "dQw4w9WgXcQ" (1 * 86400 + 3600) 100 10 5;
    mk_snapshot "dQw4w9WgXcQ" (2 * 86400 + 3600) 140 12 5;
    mk_snapshot "dQw4w9WgXcQ" (3 * 86400 + 3600) 130 15 4 ].

(** C3: the derived daily series is never negative, for every user,
    window and snapshot table: each per-project day value is the
    difference to the previous day's last snapshot clipped at 0, summed
    over projects, and missing days are 0. On the example [100, 140, 130]
    the series is day 2 = 40, day 3 = 0 (day 1 is only the baseline). *)
Theorem daily_series_never_negative :
  (forall (pids : list string) (tbl : list snapshot) (start end_ : Z),
     Forall nonneg_entry (fetch_user_daily_timeseries pids tbl start end_))
  /\ map (fun '(d, c) => (d, views c))
       (fetch_user_daily_timeseries ["dQw4w9WgXcQ"] example_table (2 * 86400) (3 * 86400 + 86399))
     = [(2, 40); (3, 0)].
Proof.
  split.
  - apply series_nonneg.
  - vm_compute. reflexivity.
Qed.

End DailySeriesFacts.

Module UserMetricsFacts.
Import UserMetrics.
Local Open Scope Z_scope.

Lemma inject_Z_nonzero (v : Z) : 0 < v -> Qeq_bool (inject_Z v) 0 = false.
Proof.
  intro H. destruct (Qeq_bool (inject_Z v) 0) eqn:E; auto.
  apply Qeq_bool_iff in E. unfold Qeq in E; simpl in E. lia.
Qed.

(** The rate of a row is computed only when its views are positive, so
    [py_div] never raises there. *)
Lemma engagement_of_ok (m : metric_row) : exists r, engagement_of m = Ok r.
Proof.
  unfold engagement_of. destruct (0 <? or0 (m_view_count m)) eqn:V.
  - apply Z.ltb_lt in V. unfold py_div. rewrite (inject_Z_nonzero _ V). eauto.
  - eauto.
Qed.

Lemma engagement_rates_ok (l : list metric_row) : exists rs, engagement_rates l = Ok rs.
Proof.
  induction l as [|m ms IH]; simpl; [eauto|].
  destruct (engagement_of_ok m) as [r ->]. destruct IH as [rs ->]. eauto.
Qed.

Lemma avg_engagement_ok (l : list metric_row) : exists q, avg_engagement l = Ok q.
Proof.
  unfold avg_engagement. destruct (engagement_rates_ok l) as [rs ->].
  destruct rs as [|r rs]; [eauto|].
  unfold py_div. rewrite inject_Z_nonzero by (simpl; lia). eauto.
Qed.

Lemma aggregate_row_ok (l : list metric_row) (now : string) :
  exists row, aggregate_row l now = Ok row /\ um_updated_at row = now.
Proof.
  unfold aggregate_row. destruct (avg_engagement_ok l) as [q ->]. eauto.
Qed.

Lemma str_max_in (x : string) (l : list string) : In (str_max x l) (x :: l).
Proof.
  revert x. induction l as [|y l IH]; intro x; simpl; [auto|].
  unfold str_max in IH |- *. simpl.
  specialize (IH (if str_ltb x y then y else x)).
  destruct (str_ltb x y); simpl in IH |- *; intuition.
Qed.

Lemma upsert_project_ids (d : db) (u : string) (r : um_row) (v : string) :
  project_ids_of (upsert_um d u r) v = project_ids_of d v.
Proof. reflexivity. Qed.

Lemma upsert_latest_for (d : db) (u : string) (r : um_row) (pids : list string) :
  latest_for (upsert_um d u r) pids = latest_for d pids.
Proof. reflexivity. Qed.

Lemma upsert_lookup (d : db) (u : string) (r : um_row) :
  lookup_um (user_metrics (upsert_um d u r)) u = Some r.
Proof. unfold lookup_um; simpl. rewrite String.eqb_refl. reflexivity. Qed.

Lemma upsert_write_count (d : db) (u : string) (r : um_row) :
  write_count (upsert_um d u r) = S (write_count d).
Proof. unfold write_count; simpl. rewrite length_app. simpl. lia. Qed.

(** After a write at [now], the guard fires as soon as [now] is not
    below any contributing snapshot's [fetched_at]. *)
Lemma fresh_after_write (d : db) (u now : string) (l : list metric_row) (r : um_row) :
  ts_candidates l <> [] -> nonempty_str now = true -> um_updated_at r = now ->
  Forall (fun t => str_geb now t = true) (ts_candidates l) ->
  fresh (upsert_um d u r) u l = true.
Proof.
  intros Hne Hnow Hr Hall. unfold fresh.
  destruct (ts_candidates l) as [|t ts] eqn:E; [contradiction|].
  rewrite upsert_lookup, Hr, Hnow. simpl.
  rewrite Forall_forall in Hall. apply Hall. apply str_max_in.
Qed.

Lemma upsert_metrics_for (sv : server) (d : db) (u : string) (r : um_row) (pids : list string) :
  metrics_for sv (upsert_um d u r) pids = metrics_for sv d pids.
Proof. reflexivity. Qed.

(** A user with projects and metric rows reaches the guard. *)
Lemma update_reaches_guard (sv : server) (d : db) (u now : string) (L : list metric_row) :
  fails sv CallUserProjects = None -> project_ids_of d u <> [] ->
  metrics_for sv d (project_ids_of d u) = Ok L -> L <> [] ->
  update_user_metrics sv u now d =
  if guard_skips sv d u L then Ok d
  else match aggregate_row L now with
       | Raise e => Raise e
       | Ok row => run_upsert sv d u row
       end.
Proof.
  intros Hf Hp Hm HL. unfold update_user_metrics. rewrite Hf.
  destruct (project_ids_of d u) as [|p ps]; [contradiction|]. rewrite Hm.
  destruct L as [|m ms]; [contradiction|]. reflexivity.
Qed.

(** A user with no project, or whose projects have no metric rows, gets
    the zero row upserted. *)
Lemma update_zero_row (sv : server) (d : db) (u now : string) :
  fails sv CallUserProjects = None -> fails sv CallUpsert = None ->
  (project_ids_of d u = [] \/ metrics_for sv d (project_ids_of d u) = Ok []) ->
  update_user_metrics sv u now d = Ok (upsert_um d u (zero_row now)).
Proof.
  intros Hf Hu H. unfold update_user_metrics, run_upsert. rewrite Hf, Hu.
  destruct H as [H|H]; destruct (project_ids_of d u) as [|p ps]; try reflexivity;
    [discriminate H|]. rewrite H. reflexivity.
Qed.

Lemma script_div_ok (l : list Q) :
  l <> [] -> exists q, py_div (sumQ l) (inject_Z (Z.of_nat (length l))) = Ok q.
Proof.
  intro H. destruct l as [|x l]; [contradiction|]. unfold py_div.
  rewrite inject_Z_nonzero by (simpl; lia). eauto.
Qed.

(** The script upserts on every call that finds the user, projects and
    metric rows, and keeps what it reads. *)
Lemma script_update_writes (fs : script_call -> option py_exn) (sd : script_db)
    (email now uid : string) :
  (forall k, fs k = None) -> script_user_id sd email = Some uid ->
  script_project_ids sd uid <> [] -> script_rows sd (script_project_ids sd uid) <> [] ->
  exists sd', script_update_user_metrics fs email now sd = Ok sd'
  /\ s_users sd' = s_users sd /\ s_user_projects sd' = s_user_projects sd
  /\ s_latest_metrics sd' = s_latest_metrics sd /\ s_write_count sd' = S (s_write_count sd).
Proof.
  intros Hf Hu Hp Hr. unfold script_update_user_metrics. rewrite !Hf, Hu.
  destruct (script_project_ids sd uid) as [|p ps]; [contradiction|].
  destruct (script_rows sd (p :: ps)) as [|m ms]; [contradiction|].
  destruct (script_div_ok (map (fun m => or0Q (sm_engagement_rate m)) (m :: ms)))
    as [q Hq]; [discriminate|].
  rewrite Hq. eexists. split; [reflexivity|]. repeat split.
  unfold s_write_count. simpl. rewrite length_app. simpl. lia.
Qed.

(** C5 counterexample: for a user with no credited project the
    aggregate is upserted on each of two consecutive calls. *)
Lemma update_twice_no_projects_writes_twice :
  exists d2, update_twice (mk_server (fun _ => None) (fun l => l)) "u1"
               "2026-10-14T10:00:00" "2026-10-14T10:00:01" (mk_db [] [] [] [] []) = Ok d2
             /\ write_count d2 = 2%nat.
Proof. eexists. split; [reflexivity|]. reflexivity. Qed.

(** C5 (amended): suppose the user_projects read, the guard's user_metrics
    read and the upsert succeed, the user has credited projects whose
    latest metrics [L] (from youtube_latest_metrics, or from the
    youtube_metrics fallback) carry at least one [fetched_at], and the
    first call runs at a time [now1] not below any of them (string order,
    as the code compares). Then the second call leaves the state
    unchanged; the first writes once if the cache was stale and not at
    all if it was fresh. Besides: a user with no credited project or whose
    projects have no metric rows gets the zero row upserted on every call;
    when the guard's read raises, the aggregate is upserted again; and the
    standalone script upserts on each of two calls that find the user,
    its projects and metric rows, since it has no guard. *)
Theorem update_user_metrics_second_call_noop (sv : server) (d : db) (u now1 now2 : string)
    (L : list metric_row) :
  fails sv CallUserProjects = None -> fails sv CallUserMetricsSelect = None ->
  fails sv CallUpsert = None ->
  project_ids_of d u <> [] ->
  metrics_for sv d (project_ids_of d u) = Ok L ->
  ts_candidates L <> [] ->
  nonempty_str now1 = true ->
  Forall (fun t => str_geb now1 t = true) (ts_candidates L) ->
  (exists d1,
    update_user_metrics sv u now1 d = Ok d1
    /\ update_user_metrics sv u now2 d1 = Ok d1
    /\ update_twice sv u now1 now2 d = Ok d1
    /\ write_count d1 = (if fresh d u L then write_count d else S (write_count d)))
  /\ (forall sv' d' u' now', fails sv' CallUserProjects = None -> fails sv' CallUpsert = None ->
        (project_ids_of d' u' = [] \/ metrics_for sv' d' (project_ids_of d' u') = Ok []) ->
        update_user_metrics sv' u' now' d' = Ok (upsert_um d' u' (zero_row now')))
  /\ (forall sv' d' u' now' e L', fails sv' CallUserProjects = None -> fails sv' CallUpsert = None ->
        fails sv' CallUserMetricsSelect = Some e -> project_ids_of d' u' <> [] ->
        metrics_for sv' d' (project_ids_of d' u') = Ok L' -> L' <> [] ->
        exists row, aggregate_row L' now' = Ok row
          /\ update_user_metrics sv' u' now' d' = Ok (upsert_um d' u' row))
  /\ (forall fs sd email uid t1 t2, (forall k, fs k = None) -> script_user_id sd email = Some uid ->
        script_project_ids sd uid <> [] -> script_rows sd (script_project_ids sd uid) <> [] ->
        exists sd1 sd2, script_update_user_metrics fs email t1 sd = Ok sd1
          /\ script_update_user_metrics fs email t2 sd1 = Ok sd2
          /\ s_write_count sd2 = S (S (s_write_count sd))).
Proof.
  intros Hf Hs Hu Hp Hm Hts Hnow Hall.
  assert (HL : L <> []) by (intro E; subst L; apply Hts; reflexivity).
  split; [|split; [|split]].
  - assert (G : forall d0, guard_skips sv d0 u L = fresh d0 u L)
      by (intro d0; unfold guard_skips; rewrite Hs; reflexivity).
    assert (Hsecond : forall d0, project_ids_of d0 u = project_ids_of d u ->
              metrics_for sv d0 (project_ids_of d0 u) = Ok L ->
              fresh d0 u L = true -> update_user_metrics sv u now2 d0 = Ok d0).
    { intros d0 E1 E2 F. rewrite (update_reaches_guard sv d0 u now2 L Hf); [|congruence|exact E2|exact HL].
      rewrite G, F. reflexivity. }
    rewrite (update_reaches_guard sv d u now1 L Hf Hp Hm HL), G.
    unfold update_twice. rewrite (update_reaches_guard sv d u now1 L Hf Hp Hm HL), G.
    destruct (fresh d u L) eqn:F.
    + exists d. rewrite (Hsecond d eq_refl Hm F). auto.
    + destruct (aggregate_row_ok L now1) as [row [Hrow Hupd]]. rewrite Hrow.
      unfold run_upsert. rewrite Hu.
      assert (F2 : fresh (upsert_um d u row) u L = true)
        by (apply (fresh_after_write d u now1 L row); assumption).
      assert (E2 : metrics_for sv (upsert_um d u row) (project_ids_of (upsert_um d u row) u) = Ok L)
        by (rewrite upsert_project_ids, upsert_metrics_for; exact Hm).
      rewrite (Hsecond _ (upsert_project_ids _ _ _ _) E2 F2).
      exists (upsert_um d u row). rewrite upsert_write_count. auto.
  - intros sv' d' u' now'. apply update_zero_row.
  - intros sv' d' u' now' e L' Hf' Hu' Hs' Hp' Hm' HL'.
    destruct (aggregate_row_ok L' now') as [row [Hrow _]]. exists row. split; [exact Hrow|].
    rewrite (update_reaches_guard sv' d' u' now' L' Hf' Hp' Hm' HL').
    unfold guard_skips, run_upsert. rewrite Hs', Hrow, Hu'. reflexivity.
  - intros fs sd email uid t1 t2 Hfs Huid Hps Hrows.
    destruct (script_update_writes fs sd email t1 uid Hfs Huid Hps Hrows)
      as [sd1 [E1 [U1 [P1 [L1 W1]]]]].
    assert (Huid1 : script_user_id sd1 email = Some uid)
      by (unfold script_user_id in *; rewrite U1; exact Huid).
    assert (Hp1 : script_project_ids sd1 uid = script_project_ids sd uid)
      by (unfold script_project_ids; rewrite P1; reflexivity).
    assert (Hr1 : forall pids, script_rows sd1 pids = script_rows sd pids)
      by (intro pids; unfold script_rows; rewrite L1; reflexivity).
    destruct (script_update_writes fs sd1 email t2 uid Hfs Huid1) as [sd2 [E2 [_ [_ [_ W2]]]]].
    + rewrite Hp1. exact Hps.
    + rewrite Hp1, Hr1. exact Hrows.
    + exists sd1, sd2. split; [exact E1|split; [exact E2|]]. rewrite W2, W1. reflexivity.
Qed.

End UserMetricsFacts.

Module LambdaFacts.
Import Lambda.
Local Open Scope list_scope.
Local Open Scope nat_scope.

Lemma count_youtube_gets_app (v : string) (a b : list event) :
  count_youtube_gets v (a ++ b) = count_youtube_gets v a + count_youtube_gets v b.
Proof. unfold count_youtube_gets. rewrite filter_app, length_app. reflexivity. Qed.

(** When no step of its loop body raises, a video is fetched exactly
    once and the loop goes on, whatever else happens to it. *)
Lemma process_video_ok (w : world) (vid : string) :
  yt_get w vid = Ok true -> body_ok (yt_body_of w vid) = true -> post_ok (insert w vid) = true ->
  snd (process_video w vid) = Ok tt
  /\ forall v, count_youtube_gets v (fst (process_video w vid))
               = if String.eqb vid v then 1 else 0.
Proof.
  intros G B P. unfold process_video. rewrite G.
  destruct (yt_body_of w vid) as [e| |[u|e]]; try discriminate B; simpl.
  - split; auto. intro v. unfold count_youtube_gets; simpl.
    destruct (String.eqb vid v); reflexivity.
  - destruct (insert w vid) as [st|e]; [|discriminate P].
    destruct (dedupe_found w vid) as [[|]|]; simpl; split; auto; intro v;
      unfold count_youtube_gets; simpl; destruct (String.eqb vid v); reflexivity.
Qed.

Lemma process_all_ok (w : world) (vids : list string) :
  (forall vid, In vid vids ->
     yt_get w vid = Ok true /\ body_ok (yt_body_of w vid) = true /\ post_ok (insert w vid) = true) ->
  snd (process_all w vids) = Ok tt
  /\ forall v, count_youtube_gets v (fst (process_all w vids))
               = length (filter (fun x => String.eqb x v) vids).
Proof.
  induction vids as [|vid vids IH]; intro H; simpl; [split; auto|].
  destruct (H vid (or_introl eq_refl)) as [G [B P]].
  destruct (process_video_ok w vid G B P) as [Hr Hc].
  destruct (process_video w vid) as [evs r] eqn:E. simpl in Hr, Hc. subst r.
  destruct IH as [IHr IHc]; [intros; apply H; right; assumption|].
  destruct (process_all w vids) as [evs' r'] eqn:E'. simpl in IHr, IHc |- *.
  split; [assumption|]. intro v. rewrite count_youtube_gets_app, Hc, IHc.
  destruct (String.eqb vid v); reflexivity.
Qed.

(** The loop stops with the exception of the first video whose body
    raises, and with no other. *)
Lemma process_all_raise (w : world) (e : py_exn) :
  forall vids, snd (process_all w vids) = Raise e ->
  exists vid, In vid vids /\ snd (process_video w vid) = Raise e.
Proof.
  induction vids as [|vid vids IH]; cbn [process_all]; [discriminate|].
  destruct (process_video w vid) as [evs r] eqn:E. destruct r as [u|e'].
  - destruct (process_all _ _) as [evs' r'] eqn:E'. simpl. intro H.
    destruct IH as [v [Hin Hv]]; [exact H|].
    exists v. split; [right; exact Hin|exact Hv].
  - simpl. intro H. injection H as ->. exists vid. split; [left; reflexivity|].
    rewrite E. reflexivity.
Qed.

(** C6 counterexample: one configured video whose platform request
    answers non-OK: [raise_for_status()] raises and the handler returns
    no summary; likewise when the Supabase [requests.post] raises. *)
Lemma lambda_non_ok_response_raises :
  snd (lambda_handler true "dQw4w9WgXcQ"
         (mk_world (fun _ => Ok false) (fun _ => BodyItems (Ok tt))
                   (fun _ => Some false) (fun _ => Ok 201)))
  = Raise HTTPError
  /\ snd (lambda_handler true "dQw4w9WgXcQ"
         (mk_world (fun _ => Ok true) (fun _ => BodyItems (Ok tt))
                   (fun _ => Some false) (fun _ => Raise ConnectionError)))
  = Raise ConnectionError.
Proof. vm_compute. split; reflexivity. Qed.

(** C6 (amended): with the three keys set, when no step of the loop body
    raises for any configured video (each platform GET answers OK, its
    body and statistics are read, each insert request goes through), the
    handler returns [{"success": True, "count": len(video_ids)}] whatever
    happens to each video (no items: logged and skipped; dedupe failure:
    logged, the insert still made; insert status: only printed), and
    fetches each configured video once per occurrence in the list, with
    no retry. In every world, a summary it returns is that one, and an
    exception it raises is the one of a configured video's loop body
    (a non-OK answer, a failed GET, JSON or statistics read, or a failed
    insert request), which aborts the job. *)
Theorem lambda_all_ok_summary (keys_set : bool) (video_ids_env : string) (w : world) :
  keys_set = true ->
  (forall vid, In vid (video_ids_of_env video_ids_env) ->
     yt_get w vid = Ok true /\ body_ok (yt_body_of w vid) = true /\ post_ok (insert w vid) = true) ->
  snd (lambda_handler keys_set video_ids_env w)
    = Ok (mk_summary true (length (video_ids_of_env video_ids_env)))
  /\ (forall v, count_youtube_gets v (fst (lambda_handler keys_set video_ids_env w))
               = length (filter (fun x => String.eqb x v) (video_ids_of_env video_ids_env)))
  /\ (forall w' s, snd (lambda_handler keys_set video_ids_env w') = Ok s ->
        s = mk_summary true (length (video_ids_of_env video_ids_env)))
  /\ (forall w' e, snd (lambda_handler keys_set video_ids_env w') = Raise e ->
        exists vid, In vid (video_ids_of_env video_ids_env) /\ snd (process_video w' vid) = Raise e).
Proof.
  intros K H. subst keys_set. destruct (process_all_ok w _ H) as [Hr Hc]. unfold lambda_handler.
  simpl negb. cbv iota.
  split; [|split; [|split]].
  - destruct (process_all w (video_ids_of_env video_ids_env)) as [evs r]. simpl in Hr |- *.
    subst r. reflexivity.
  - destruct (process_all w (video_ids_of_env video_ids_env)) as [evs r]. simpl in Hc |- *.
    intro v. apply Hc.
  - intros w' s. destruct (process_all w' (video_ids_of_env video_ids_env)) as [evs r].
    simpl. destruct r; intro E; [injection E as <-; reflexivity|discriminate E].
  - intros w' e. destruct (process_all w' (video_ids_of_env video_ids_env)) as [evs r] eqn:P.
    simpl. destruct r as [u|e']; intro E; [discriminate E|]. injection E as ->.
    apply process_all_raise. rewrite P. reflexivity.
Qed.

End LambdaFacts.

Module RedirectFacts.
Import PyStr Redirect.

Lemma localhost_not_production (h : string) :
  is_localhost_host h = true ->
  ends_with "share.streamlit.io" h = false /\ is_allowed_production_host h = false.
Proof.
  unfold is_localhost_host. intro H. apply orb_true_iff in H.
  destruct H as [H|H]; apply String.eqb_eq in H; subst; split; reflexivity.
Qed.

Lemma get_production_cons (c : option string) (cs : list (option string)) :
  _get_production_base_url (c :: cs) =
  match _normalize_base_url c with
  | Raise e => Raise e
  | Ok (Some n) => Ok n
  | Ok None => _get_production_base_url cs
  end.
Proof. reflexivity. Qed.

(** C7 counterexample: a loopback candidate whose port is out of range
    makes [parsed.port] raise [ValueError]; no [http://localhost:<port>]
    is produced and the resolution raises instead of falling back. *)
Lemma normalize_localhost_bad_port_raises :
  _normalize_base_url (Some "http://localhost:99999") = Raise ValueError
  /\ _get_production_base_url [Some "http://localhost:99999"] = Raise ValueError.
Proof. vm_compute. split; reflexivity. Qed.

(** C7 (amended): given the host [h] that [urlparse] finds in the
    (stripped, slash-trimmed, scheme-completed) candidate:
    - [h] ending in [share.streamlit.io], or [h] the canonical host,
      gives the canonical production URL;
    - [h] = [localhost] or [127.0.0.1] gives [http://localhost] plus
      [:<port>] for a non-zero port, and raises when [parsed.port] raises
      (a port that is not all digits or is above 65535);
    - any other [h] is rejected, and the resolution goes on with the
      next configured candidate (the canonical URL when none is left). *)
Theorem normalize_base_url_by_host (cand : string) (parsed : split_result) (h : string) :
  strip cand <> EmptyString ->
  urlsplit (candidate_url cand) = Ok parsed ->
  hostname parsed = Some h ->
  ((ends_with "share.streamlit.io" h = true \/ is_allowed_production_host h = true) ->
     _normalize_base_url (Some cand) = Ok (Some CANONICAL_PRODUCTION_URL))
  /\ (is_localhost_host h = true ->
        _normalize_base_url (Some cand) =
          match port parsed with
          | Ok p => Ok (Some ("http://localhost" ++ port_suffix p))
          | Raise e => Raise e
          end)
  /\ (is_localhost_host h = false -> is_allowed_production_host h = false ->
      ends_with "share.streamlit.io" h = false ->
        _normalize_base_url (Some cand) = Ok None
        /\ _get_production_base_url [Some cand] = Ok CANONICAL_PRODUCTION_URL
        /\ forall cs, _get_production_base_url (Some cand :: cs) = _get_production_base_url cs).
Proof.
  intros Hs Hsp Hh.
  assert (Hn : _normalize_base_url (Some cand) =
    if is_localhost_host h then
      match port parsed with
      | Ok p => Ok (Some ("http://localhost" ++ port_suffix p))
      | Raise e => Raise e
      end
    else if is_allowed_production_host h then Ok (Some CANONICAL_PRODUCTION_URL)
    else if ends_with "share.streamlit.io" h then Ok (Some CANONICAL_PRODUCTION_URL)
    else Ok None).
  { unfold candidate_url in Hsp. unfold _normalize_base_url.
    destruct cand as [|c s]; [exfalso; apply Hs; reflexivity|].
    destruct (strip (String c s)) as [|a v] eqn:E; [contradiction|].
    cbv zeta in Hsp |- *. rewrite Hsp, Hh. reflexivity. }
  split; [|split].
  - intro H. rewrite Hn.
    destruct (is_localhost_host h) eqn:L.
    + destruct (localhost_not_production h L) as [L1 L2].
      rewrite L1, L2 in H. destruct H; discriminate.
    + destruct (is_allowed_production_host h); [reflexivity|].
      destruct H as [H|H]; [rewrite H; reflexivity|discriminate].
  - intro L. rewrite Hn, L. reflexivity.
  - intros L A P. assert (Hnone : _normalize_base_url (Some cand) = Ok None)
      by (rewrite Hn, L, A, P; reflexivity).
    split; [exact Hnone|]. split.
    + rewrite get_production_cons, Hnone. reflexivity.
    + intro cs. rewrite get_production_cons, Hnone. reflexivity.
Qed.

End RedirectFacts.

Module EngagementFacts.
Import UserMetrics UserMetricsFacts.
Local Open Scope Z_scope.

Lemma engagement_rates_zero_views (l : list metric_row) :
  engagement_rates (filter (fun m => or0 (m_view_count m) =? 0) l) = Ok [].
Proof.
  induction l as [|m ms IH]; simpl; [reflexivity|].
  destruct (or0 (m_view_count m) =? 0) eqn:V; simpl; [|exact IH].
  apply Z.eqb_eq in V. unfold engagement_of. rewrite V. simpl. rewrite IH. reflexivity.
Qed.

Definition sample_row : metric_row :=
  mk_metric "dQw4w9WgXcQ" (Some 1000) (Some 40) (Some 10) (Some 0) None.

(** C8: no division by zero: the uploader's figure is absent for
    [views = 0]; the in-app average never raises, is 0 over rows with 0
    views (they are skipped), and is 5 (per cent) for views 1000, likes
    40, comments 10, shares 0. *)
Theorem engagement_no_division_by_zero :
  (forall likes comments, Uploader.engagement 0 likes comments = Ok None)
  /\ (forall l, exists q, avg_engagement l = Ok q)
  /\ (forall l, avg_engagement (filter (fun m => or0 (m_view_count m) =? 0) l) = Ok 0%Q)
  /\ (exists q, avg_engagement [sample_row] = Ok q /\ (q == 5)%Q).
Proof.
  split; [|split; [|split]].
  - intros; reflexivity.
  - apply avg_engagement_ok.
  - intro l. unfold avg_engagement. rewrite engagement_rates_zero_views. reflexivity.
  - eexists. split; [reflexivity|]. vm_compute. reflexivity.
Qed.

End EngagementFacts.

Module TokenExpiryFacts.
Import TokenExpiry.

(** C10: a non-empty [expires_at] that [datetime.fromisoformat] rejects
    (after the [Z] rewrite) yields [False] without an exception, as does a
    missing one. *)
Theorem token_unparseable_not_expired
    (fromisoformat : string -> option datetime) (now : Z) (s : string) :
  fromisoformat (replace_Z s) = None ->
  is_token_expired fromisoformat now (Some s) = Ok false
  /\ is_token_expired fromisoformat now None = Ok false.
Proof.
  intro H. split; [|reflexivity].
  unfold is_token_expired. destruct s as [|c s']; [reflexivity|].
  rewrite H. reflexivity.
Qed.

End TokenExpiryFacts.

Module SeederFacts.
Import Seeder.

Section Draws.
Variable rnd : nat -> Q.
Hypothesis rnd_nonneg : forall k, 0 <= rnd k.

Lemma py_int_nonneg (x : Q) : 0 <= x -> (0 <= py_int x)%Z.
Proof.
  intro H. unfold py_int.
  assert (Qle_bool 0 x = true) as -> by (apply Qle_bool_iff; exact H).
  change 0%Z with (Qfloor 0). apply Qfloor_resp_le. exact H.
Qed.

Lemma base_daily_views_nonneg (i : nat) : 0 <= base_daily_views i.
Proof.
  unfold base_daily_views. destruct (Nat.modulo i 3) as [|[|]]; unfold Qle; simpl; lia.
Qed.

Lemma affine_nonneg (a c : Q) (k : nat) : 0 <= a -> 0 <= c -> 0 <= a + c * rnd k.
Proof.
  intros Ha Hc. pose proof (rnd_nonneg k).
  assert (0 <= c * rnd k) by (apply Qmult_le_0_compat; assumption). lra.
Qed.

(** Every daily increment of the seeder is non-negative. *)
Lemma day_incs_nonneg (base : Q) (day : Z) (d k : nat) (iv il ic : Z) (k' : nat) :
  0 <= base ->
  day_incs rnd base day d k = ((iv, il, ic), k') ->
  (0 <= iv /\ 0 <= il /\ 0 <= ic)%Z.
Proof.
  intros Hb E. unfold day_incs, uniform in E. cbn zeta in E.
  set (w := if (5 <=? weekday day)%Z then 7 # 10 else 1) in E.
  assert (Hw : 0 <= w) by (unfold w; destruct (5 <=? weekday day)%Z; unfold Qle; simpl; lia).
  assert (Ht : 0 <= 1 + inject_Z (Z.of_nat d) * (33 # 100000)).
  { assert (0 <= inject_Z (Z.of_nat d)) by (unfold Qle; simpl; lia).
    assert (0 <= inject_Z (Z.of_nat d) * (33 # 100000))
      by (apply Qmult_le_0_compat; [assumption|unfold Qle; simpl; lia]). lra. }
  assert (Hdv : 0 <= (7 # 10) + ((15 # 10) - (7 # 10)) * rnd k)
    by (apply affine_nonneg; unfold Qle; simpl; lia).
  destruct (Qlt_le_dec (rnd (S k)) (5 # 100)) as [S1|S1];
  destruct (Qlt_le_dec _ (10 # 100)) as [S2|S2]; simpl in E;
  match type of E with
  | context [Qeq_bool ?x 1] => destruct (Qeq_bool x 1)
  | _ => idtac
  end; simpl in E; inversion E; subst; clear E;
  (split; [apply py_int_nonneg|split; lia]);
  repeat apply Qmult_le_0_compat; try assumption;
  try (apply affine_nonneg; unfold Qle; simpl; lia);
  unfold Qle; simpl; lia.
Qed.

Lemma gen_days_spec (pid : string) (base : Q) (start : Z) (Hb : 0 <= base) :
  forall n d cv cl cc k,
  let rows := fst (gen_days rnd pid base start d n (cv, cl, cc) k) in
  nondecreasing rows /\ Forall (fun r => r_p_id r = pid) rows
  /\ match rows with
     | [] => True
     | r :: _ => r_day r = (start + Z.of_nat d)%Z /\ (cv <= r_view_count r)%Z
                 /\ (cl <= r_like_count r)%Z /\ (cc <= r_comment_count r)%Z
     end.
Proof.
  induction n as [|n IH]; intros d cv cl cc k; simpl; [repeat split; constructor|].
  destruct (day_incs rnd base (start + Z.of_nat d) d k) as [[[iv il] ic] k1] eqn:E.
  destruct (day_incs_nonneg _ _ _ _ _ _ _ _ Hb E) as [Hv [Hl Hc]].
  specialize (IH (S d) (cv + iv)%Z (cl + il)%Z (cc + ic)%Z k1).
  destruct (gen_days rnd pid base start (S d) n (cv + iv, cl + il, cc + ic)%Z k1)
    as [rest k2] eqn:G.
  simpl in IH |- *. destruct IH as [IH1 [IH2 IH3]].
  split; [|split].
  - split; [|exact IH1].
    destruct rest as [|r' rs]; [exact I|].
    destruct IH3 as [D [V [L C]]]. simpl. repeat split; lia.
  - constructor; [reflexivity|exact IH2].
  - simpl. repeat split; lia.
Qed.

Lemma rows_of_app (p : string) (a b : list seed_row) :
  rows_of p (a ++ b) = (rows_of p a ++ rows_of p b)%list.
Proof. unfold rows_of. apply filter_app. Qed.

Lemma rows_of_block (p pid : string) (rows : list seed_row) :
  Forall (fun r => r_p_id r = pid) rows ->
  rows_of p rows = if String.eqb pid p then rows else [].
Proof.
  unfold rows_of. induction 1 as [|r rs Hr _ IH]; simpl.
  - destruct (String.eqb pid p); reflexivity.
  - rewrite Hr, IH. destruct (String.eqb pid p); reflexivity.
Qed.

Lemma gen_projects_block (start : Z) (days : nat) (ps : list string) :
  forall idx k, Forall (fun r => In (r_p_id r) ps) (gen_projects rnd ps idx start days k).
Proof.
  induction ps as [|pid ps IH]; intros idx k; simpl; [constructor|].
  destruct (gen_days rnd pid (base_daily_views idx) start 0 days (0, 0, 0)%Z k)
    as [rows k1] eqn:G.
  destruct (gen_days_spec pid (base_daily_views idx) start (base_daily_views_nonneg idx)
              days 0 0 0 0 k) as [_ [Hpid _]].
  rewrite G in Hpid. simpl in Hpid.
  apply Forall_app. split.
  - eapply Forall_impl; [|exact Hpid]. simpl. intros r ->. left. reflexivity.
  - eapply Forall_impl; [|apply IH]. simpl. intros r H. right. exact H.
Qed.

Lemma rows_of_absent (p : string) (rows : list seed_row) :
  Forall (fun r => r_p_id r <> p) rows -> rows_of p rows = [].
Proof.
  unfold rows_of. induction 1 as [|r rs Hr _ IH]; simpl; [reflexivity|].
  destruct (String.eqb_spec (r_p_id r) p); [contradiction|exact IH].
Qed.

(** With distinct project ids, the rows of one project are one
    generated block, cumulative and non-decreasing. *)
Lemma gen_projects_nondecreasing (start : Z) (days : nat) (p : string) :
  forall ps idx k, NoDup ps -> nondecreasing (rows_of p (gen_projects rnd ps idx start days k)).
Proof.
  induction ps as [|pid ps IH]; intros idx k Hnd; simpl; [exact I|].
  inversion Hnd as [|? ? Hnin Hnd']; subst.
  destruct (gen_days rnd pid (base_daily_views idx) start 0 days (0, 0, 0)%Z k)
    as [rows k1] eqn:G.
  destruct (gen_days_spec pid (base_daily_views idx) start (base_daily_views_nonneg idx)
              days 0 0 0 0 k) as [Hmono [Hpid _]].
  rewrite G in Hmono, Hpid. simpl in Hmono, Hpid.
  rewrite rows_of_app, (rows_of_block p pid rows Hpid).
  destruct (String.eqb_spec pid p) as [<-|Hne].
  - rewrite rows_of_absent, app_nil_r; [exact Hmono|].
    eapply Forall_impl; [|apply gen_projects_block]. simpl.
    intros r Hin Heq. rewrite Heq in Hin. contradiction.
  - simpl. apply IH. exact Hnd'.
Qed.

Lemma seed_metrics_nondecreasing (recent : bool) (p_ids : list string) (days : Z)
    (force : bool) (today : Z) (p : string) :
  NoDup p_ids -> nondecreasing (rows_of p (seed_metrics rnd recent p_ids days force today)).
Proof.
  intro Hnd. unfold seed_metrics. destruct (negb force && recent); [exact I|].
  apply gen_projects_nondecreasing. exact Hnd.
Qed.

End Draws.

Lemma demo_p_ids_nodup : NoDup demo_p_ids.
Proof.
  unfold demo_p_ids.
  repeat constructor; simpl; intuition discriminate.
Qed.

(** C9: in every run of the seeder script (the three demo projects, any
    day count, force flag and date, any sequence of [random()] draws,
    which are never negative), each project's generated rows go forward
    one day at a time with view, like and comment counts that never
    decrease, so a day-over-day difference is never negative. *)
Theorem seed_demo_rows_nondecreasing (rnd : nat -> Q) :
  (forall k, 0 <= rnd k) ->
  forall (recent : bool) (days : Z) (force : bool) (today : Z) (p : string),
  nondecreasing (rows_of p (main_seed rnd recent days force today)).
Proof.
  intros Hr recent days force today p. unfold main_seed.
  apply seed_metrics_nondecreasing; [exact Hr|]. apply demo_p_ids_nodup.
Qed.

End SeederFacts.

(* ------------------------------------------------------------------ *)
(** * Instances of the theorems with hypotheses at concrete inputs *)
Module Witnesses.

Import UserMetrics.

Definition one_project_db : db :=
  mk_db [("u1", "dQw4w9WgXcQ")]
        [mk_metric "dQw4w9WgXcQ" (Some 1000%Z) (Some 40%Z) (Some 10%Z) (Some 0%Z)
                   (Some "2026-10-14T09:00:00")]
        [] [] [].

Definition answering_server : server := mk_server (fun _ => None) (fun l => l).

Lemma update_user_metrics_second_call_noop_witness :
  exists d1,
    update_user_metrics answering_server "u1" "2026-10-14T10:00:00" one_project_db = Ok d1
    /\ update_user_metrics answering_server "u1" "2026-10-14T10:00:05" d1 = Ok d1
    /\ update_twice answering_server "u1" "2026-10-14T10:00:00" "2026-10-14T10:00:05"
         one_project_db = Ok d1
    /\ write_count d1 = (if fresh one_project_db "u1" (latest_metrics one_project_db)
                         then write_count one_project_db else S (write_count one_project_db)).
Proof.
  apply (proj1 (UserMetricsFacts.update_user_metrics_second_call_noop
           answering_server one_project_db "u1" "2026-10-14T10:00:00" "2026-10-14T10:00:05"
           (latest_metrics one_project_db)
           eq_refl eq_refl eq_refl ltac:(vm_compute; discriminate) eq_refl
           ltac:(vm_compute; discriminate) eq_refl ltac:(vm_compute; repeat constructor))).
Defined.

Import Lambda.

Definition all_ok_world : world :=
  mk_world (fun _ => Ok true)
           (fun v => if String.eqb v "b" then BodyNoItems else BodyItems (Ok tt))
           (fun v => if String.eqb v "a" then None else Some false) (fun _ => Ok 500%nat).

Lemma lambda_all_ok_summary_witness :
  snd (lambda_handler true "a, b ,a" all_ok_world)
    = Ok (mk_summary true (length (video_ids_of_env "a, b ,a")))
  /\ (forall v, count_youtube_gets v (fst (lambda_handler true "a, b ,a" all_ok_world))
               = length (filter (fun x => String.eqb x v) (video_ids_of_env "a, b ,a")))
  /\ (forall w' s, snd (lambda_handler true "a, b ,a" w') = Ok s ->
        s = mk_summary true (length (video_ids_of_env "a, b ,a")))
  /\ (forall w' e, snd (lambda_handler true "a, b ,a" w') = Raise e ->
        exists vid, In vid (video_ids_of_env "a, b ,a") /\ snd (process_video w' vid) = Raise e).
Proof.
  apply (LambdaFacts.lambda_all_ok_summary true "a, b ,a" all_ok_world); [reflexivity|].
  intros vid Hin. vm_compute in Hin.
  destruct Hin as [<-|[<-|[<-|[]]]]; vm_compute; auto.
Defined.

Import PyStr Redirect.

Lemma normalize_base_url_by_host_witness :
  let cand := "https://x.share.streamlit.io/app/" in
  let h := "x.share.streamlit.io" in
  ((ends_with "share.streamlit.io" h = true \/ is_allowed_production_host h = true) ->
     _normalize_base_url (Some cand) = Ok (Some CANONICAL_PRODUCTION_URL))
  /\ (is_localhost_host h = true ->
        _normalize_base_url (Some cand) =
          match port (mk_split "https" h) with
          | Ok p => Ok (Some ("http://localhost" ++ port_suffix p))
          | Raise e => Raise e
          end)
  /\ (is_localhost_host h = false -> is_allowed_production_host h = false ->
      ends_with "share.streamlit.io" h = false ->
        _normalize_base_url (Some cand) = Ok None
        /\ _get_production_base_url [Some cand] = Ok CANONICAL_PRODUCTION_URL
        /\ forall cs, _get_production_base_url (Some cand :: cs) = _get_production_base_url cs).
Proof.
  apply (RedirectFacts.normalize_base_url_by_host "https://x.share.streamlit.io/app/"
           (mk_split "https" "x.share.streamlit.io") "x.share.streamlit.io");
    vm_compute; try (intro H; discriminate H); reflexivity.
Defined.

Import Seeder.

Lemma seed_demo_rows_nondecreasing_witness :
  nondecreasing (rows_of "dEm0V1dE01b" (main_seed (fun _ => 1 # 2) false 3%Z false 20000%Z)).
Proof.
  apply (SeederFacts.seed_demo_rows_nondecreasing (fun _ => 1 # 2)).
  intro k. unfold Qle. simpl. lia.
Defined.

Import TokenExpiry.

Lemma token_unparseable_not_expired_witness :
  is_token_expired (fun _ => None) 1760400000%Z (Some "not-a-date") = Ok false
  /\ is_token_expired (fun _ => None) 1760400000%Z None = Ok false.
Proof.
  apply (TokenExpiryFacts.token_unparseable_not_expired (fun _ => None) 1760400000%Z "not-a-date").
  reflexivity.
Defined.

End Witnesses.

(* ================================================================== *)
(** * Properties of the helpers around the claims *)

Module BatchFacts.
Import Batch.
Local Open Scope nat_scope.

Lemma chunks_aux_spec {A : Type} (size : nat) (Hs : 0 < size) :
  forall fuel (l : list A), length l <= fuel ->
  concat (chunks_aux size fuel l) = l
  /\ Forall (fun b => 1 <= length b <= size) (chunks_aux size fuel l)
  /\ length (chunks_aux size fuel l) = (length l + size - 1) / size.
Proof.
  induction fuel as [|f IH]; intros l Hl.
  - destruct l; [|simpl in Hl; lia]. simpl. split; [reflexivity|split; [constructor|]].
    symmetry. apply Nat.div_small. lia.
  - destruct l as [|x l'].
    + simpl. split; [reflexivity|split; [constructor|]].
      symmetry. apply Nat.div_small. lia.
    + cbn [chunks_aux].
      assert (Hsk : length (skipn size (x :: l')) <= f)
        by (rewrite length_skipn; simpl length in Hl |- *; lia).
      destruct (IH (skipn size (x :: l')) Hsk) as [C [F N]].
      split; [|split].
      * simpl concat. rewrite C. apply firstn_skipn.
      * constructor; [|exact F].
        rewrite length_firstn. simpl length. lia.
      * simpl length at 1. rewrite N, length_skipn.
        destruct (Nat.le_gt_cases size (length (x :: l'))) as [Hle|Hgt].
        ** replace (length (x :: l') + size - 1)
            with (1 * size + (length (x :: l') - size + size - 1)) by lia.
          rewrite Nat.div_add_l by lia. reflexivity.
        ** replace (length (x :: l') - size) with 0 by lia. simpl length in *.
          rewrite Nat.div_small by lia.
          apply (Nat.div_unique _ _ 1 (length l')); lia.
Qed.

Lemma chunks_spec {A : Type} (size : nat) (l : list A) :
  0 < size ->
  concat (chunks size l) = l
  /\ Forall (fun b => 1 <= length b <= size) (chunks size l)
  /\ length (chunks size l) = (length l + size - 1) / size.
Proof. intro Hs. apply chunks_aux_spec; [exact Hs|lia]. Qed.

Lemma fold_add_length {A : Type} (bs : list (list A)) (n : nat) :
  fold_left (fun k b => k + length b) bs n = n + length (concat bs).
Proof.
  revert n. induction bs as [|b bs IH]; intro n; simpl; [lia|].
  rewrite IH, length_app. lia.
Qed.

End BatchFacts.

Module YouTubeBatchFacts.
Import PyDict Batch YouTubeBatch BatchFacts.
Local Open Scope nat_scope.

Lemma dict_get_set {V : Type} (m : list (string * V)) (k c : string) (v : V) :
  dict_get (dict_set m k v) c = if String.eqb k c then Some v else dict_get m c.
Proof.
  unfold dict_get. induction m as [|[k' v'] m IH]; simpl.
  - destruct (String.eqb k c); reflexivity.
  - destruct (String.eqb_spec k' k) as [->|Hne]; simpl.
    + destruct (String.eqb k c); reflexivity.
    + destruct (String.eqb k' c) eqn:E; [|exact IH].
      apply String.eqb_eq in E. subst c.
      rewrite (proj2 (String.eqb_neq k k')) by congruence. reflexivity.
Qed.

Lemma dict_set_nonempty {V : Type} (m : list (string * V)) (k : string) (v : V) :
  dict_set m k v <> [].
Proof. destruct m as [|[k' v'] m]; simpl; [|destruct (String.eqb k' k)]; discriminate. Qed.

Lemma store_live_nil (py_int_str : string -> option Z) (m : list (string * live_entry))
    (its : list live_item) : m <> [] -> store_live py_int_str m its <> [].
Proof.
  revert m. induction its as [|it its IH]; intros m Hm; simpl; [exact Hm|].
  destruct (li_id it), (stat py_int_str (li_viewCount it)),
           (stat py_int_str (li_likeCount it)), (stat py_int_str (li_commentCount it));
    try exact Hm.
  apply IH, dict_set_nonempty.
Qed.

(** X1: [fetch_live_metrics_for_user] asks the video API for the user's
    project ids in batches: the batches, in order, are exactly the ids of
    the user's user_projects rows, each holds 1 to 50 ids, and there are
    ceil(n / 50) of them (none for a user without projects). *)
Theorem live_metrics_batches (py_int_str : string -> option Z) (t : Credits.table)
    (u_id : string) (resp : list string -> api_resp live_item) :
  let batches := fst (fetch_live_metrics_for_user py_int_str t u_id resp) in
  concat batches = project_ids_of t u_id
  /\ Forall (fun b => 1 <= length b <= 50) batches
  /\ length batches = (length (project_ids_of t u_id) + 49) / 50.
Proof.
  unfold fetch_live_metrics_for_user. cbv zeta.
  destruct (project_ids_of t u_id) as [|p ps] eqn:E.
  - simpl. split; [reflexivity|split; [constructor|reflexivity]].
  - simpl fst. destruct (chunks_spec 50 (p :: ps) ltac:(lia)) as [C [F N]].
    split; [exact C|split; [exact F|]]. rewrite N. f_equal; lia.
Qed.

(** X2: [fetch_live_metrics_for_user] returns an empty dict exactly when the
    user has no project; for a user with projects, when every batch request
    is not ok, raises, or returns no items, it returns None. *)
Theorem live_metrics_result (py_int_str : string -> option Z) (t : Credits.table)
    (u_id : string) (resp : list string -> api_resp live_item) :
  (snd (fetch_live_metrics_for_user py_int_str t u_id resp) = Some []
     <-> project_ids_of t u_id = [])
  /\ (project_ids_of t u_id <> [] ->
      (forall b, In b (chunks 50 (project_ids_of t u_id)) ->
                 resp b = NotOk \/ resp b = Failed \/ resp b = Items []) ->
      snd (fetch_live_metrics_for_user py_int_str t u_id resp) = None).
Proof.
  unfold fetch_live_metrics_for_user. cbv zeta.
  destruct (project_ids_of t u_id) as [|p ps] eqn:E.
  - simpl. split; [tauto|]. intro H. contradiction.
  - cbn [snd]. split.
    + split; [|discriminate].
      destruct (fold_left _ _ _); discriminate.
    + intros _ Hfail.
      assert (Hfold : forall bs (m : list (string * live_entry)),
                 (forall b, In b bs -> resp b = NotOk \/ resp b = Failed \/ resp b = Items []) ->
                 fold_left (fun m b => match resp b with
                                       | Items its => store_live py_int_str m its
                                       | _ => m end) bs m = m).
      { induction bs as [|b bs IH]; intros m Hb; simpl; [reflexivity|].
        rewrite IH by (intros b' Hb'; apply Hb; right; exact Hb').
        destruct (Hb b (or_introl eq_refl)) as [-> | [-> | ->]]; reflexivity. }
      rewrite Hfold by exact Hfail. reflexivity.
Qed.

Definition is_channel (c : string) (it : ch_item) : bool :=
  match ci_channelId it with Some c' => String.eqb c' c | None => false end.

Lemma dict_mem_get {V : Type} (m : list (string * V)) (c : string) :
  dict_mem m c = match dict_get m c with Some _ => true | None => false end.
Proof. reflexivity. Qed.

Lemma store_channel_get (m : list (string * channel)) (it : ch_item) (c : string) :
  c <> "" ->
  dict_get (store_channel m it) c =
  match dict_get m c with
  | Some v => Some v
  | None => if is_channel c it then Some (channel_of c it) else None
  end.
Proof.
  intro Hc. unfold store_channel, is_channel.
  destruct (ci_channelId it) as [k|]; [|destruct (dict_get m c); reflexivity].
  destruct (String.eqb_spec k "") as [->|Hk].
  - rewrite (proj2 (String.eqb_neq "" c)) by congruence. destruct (dict_get m c); reflexivity.
  - rewrite dict_mem_get.
    destruct (String.eqb_spec k c) as [->|Hkc].
    + destruct (dict_get m c) eqn:G; [exact G|].
      rewrite dict_get_set, String.eqb_refl. reflexivity.
    + destruct (dict_get m k) eqn:G; [destruct (dict_get m c); reflexivity|].
      rewrite dict_get_set. rewrite (proj2 (String.eqb_neq k c)) by exact Hkc.
      destruct (dict_get m c); reflexivity.
Qed.

Lemma fold_store_channel_get (its : list ch_item) (c : string) :
  c <> "" -> forall m,
  dict_get (fold_left store_channel its m) c =
  match dict_get m c with
  | Some v => Some v
  | None => option_map (channel_of c) (find (is_channel c) its)
  end.
Proof.
  intro Hc. induction its as [|it its IH]; intro m; simpl.
  - destruct (dict_get m c); reflexivity.
  - rewrite IH, store_channel_get by exact Hc.
    destruct (dict_get m c); [reflexivity|].
    destruct (is_channel c it); reflexivity.
Qed.

Definition answered (resp : list string -> api_resp ch_item) (b : list string) : list ch_item :=
  match resp b with Items its => its | _ => [] end.

Lemma fold_batches_flat (resp : list string -> api_resp ch_item) (bs : list (list string))
    (m : list (string * channel)) :
  fold_left (fun m b => match resp b with
                        | Items its => fold_left store_channel its m
                        | _ => m end) bs m
  = fold_left store_channel (flat_map (answered resp) bs) m.
Proof.
  revert m. induction bs as [|b bs IH]; intro m; simpl; [reflexivity|].
  rewrite fold_left_app, IH. unfold answered. destruct (resp b); reflexivity.
Qed.

(** X3: in the dict [fetch_channels_for_projects] returns, a nonempty
    channel id maps to the channel built from the first answered item (over
    the batches of 50, in order) that carries this channel id, and is
    missing when no item carries it. *)
Theorem channels_first_item_wins (project_ids : list string)
    (resp : list string -> api_resp ch_item) (c : string) :
  c <> "" ->
  dict_get (fetch_channels_for_projects project_ids resp) c =
  option_map (channel_of c)
    (find (is_channel c) (flat_map (answered resp) (chunks 50 project_ids))).
Proof.
  intro Hc. unfold fetch_channels_for_projects.
  destruct project_ids as [|p ps]; [reflexivity|].
  rewrite fold_batches_flat, fold_store_channel_get by exact Hc. reflexivity.
Qed.

End YouTubeBatchFacts.

Module SeedDbFacts.
Import Batch Seeder Credits SeedDb BatchFacts SeederFacts.
Local Open Scope nat_scope.

Lemma gen_days_shape (rnd : nat -> Q) (pid : string) (base : Q) (start : Z) :
  forall n d cum k,
  let rows := fst (gen_days rnd pid base start d n cum k) in
  length rows = n
  /\ map r_day rows = map (fun i => (start + Z.of_nat i)%Z) (seq d n)
  /\ Forall (fun r => r_p_id r = pid) rows.
Proof.
  induction n as [|n IH]; intros d cum k; simpl; [repeat split; constructor|].
  destruct (day_incs rnd base (start + Z.of_nat d) d k) as [[[iv il] ic] k1].
  destruct cum as [[cv cl] cc]. cbv zeta.
  destruct (gen_days rnd pid base start (S d) n (cv + iv, cl + il, cc + ic)%Z k1)
    as [rest k2] eqn:G.
  destruct (IH (S d) (cv + iv, cl + il, cc + ic)%Z k1) as [L [D P]].
  rewrite G in L, D, P. simpl in L, D, P |- *.
  split; [rewrite L; reflexivity|split; [rewrite D; reflexivity|constructor; [reflexivity|exact P]]].
Qed.

Lemma gen_projects_shape (rnd : nat -> Q) (start : Z) (days : nat) :
  forall ps idx k,
  length (gen_projects rnd ps idx start days k) = length ps * days
  /\ Forall (fun r => In (r_p_id r) ps) (gen_projects rnd ps idx start days k).
Proof.
  induction ps as [|pid ps IH]; intros idx k; simpl; [split; [reflexivity|constructor]|].
  destruct (gen_days rnd pid (base_daily_views idx) start 0 days (0, 0, 0)%Z k)
    as [rows k1] eqn:G.
  destruct (gen_days_shape rnd pid (base_daily_views idx) start days 0 (0, 0, 0)%Z k)
    as [L [_ P]].
  rewrite G in L, P. simpl in L, P.
  destruct (IH (S idx) k1) as [L' P'].
  split.
  - rewrite length_app, L, L'. reflexivity.
  - apply Forall_app. split.
    + eapply Forall_impl; [|exact P]. simpl. intros r ->. left. reflexivity.
    + eapply Forall_impl; [|exact P']. simpl. intros r H. right. exact H.
Qed.

Lemma gen_projects_rows_of (rnd : nat -> Q) (start : Z) (days : nat) (p : string) :
  forall ps idx k, NoDup ps -> In p ps ->
  exists idx' k', rows_of p (gen_projects rnd ps idx start days k)
                  = fst (gen_days rnd p (base_daily_views idx') start 0 days (0, 0, 0)%Z k').
Proof.
  induction ps as [|pid ps IH]; intros idx k Hnd Hin; [destruct Hin|]. simpl.
  inversion Hnd as [|? ? Hnin Hnd']; subst.
  destruct (gen_days rnd pid (base_daily_views idx) start 0 days (0, 0, 0)%Z k)
    as [rows k1] eqn:G.
  destruct (gen_days_shape rnd pid (base_daily_views idx) start days 0 (0, 0, 0)%Z k)
    as [_ [_ P]].
  rewrite G in P. simpl in P.
  rewrite rows_of_app, (rows_of_block p pid rows P).
  destruct (String.eqb_spec pid p) as [<-|Hne].
  - rewrite rows_of_absent, app_nil_r.
    + exists idx, k. rewrite G. reflexivity.
    + eapply Forall_impl; [|apply (proj2 (gen_projects_shape rnd start days ps (S idx) k1))].
      simpl. intros r Hr Heq. rewrite Heq in Hr. contradiction.
  - destruct Hin as [Heq|Hin]; [contradiction|].
    simpl. apply IH; assumption.
Qed.

(** X4: [seed_metrics] reports as inserted one row per project and day (none
    when it skips), sent in insert calls of 1 to 500 rows. *)
Theorem seed_inserted_count (rnd : nat -> Q) (recent : bool) (p_ids : list string)
    (days : Z) (force : bool) (today : Z) :
  seed_metrics_inserted rnd recent p_ids days force today
    = (if negb force && recent then 0 else length p_ids * Z.to_nat days)
  /\ Forall (fun b => 1 <= length b <= 500)
            (chunks 500 (seed_metrics rnd recent p_ids days force today)).
Proof.
  unfold seed_metrics_inserted.
  destruct (chunks_spec 500 (seed_metrics rnd recent p_ids days force today) ltac:(lia))
    as [C [F _]].
  split; [|exact F].
  rewrite fold_add_length, C. simpl.
  unfold seed_metrics. destruct (negb force && recent); [reflexivity|].
  apply gen_projects_shape.
Qed.

(** X5: when [seed_metrics] does not skip and the project ids are distinct,
    each project gets exactly one row per day, for the [days] consecutive
    days ending today, in date order. *)
Theorem seed_rows_one_per_day (rnd : nat -> Q) (recent : bool) (p_ids : list string)
    (days : Z) (force : bool) (today : Z) (p : string) :
  NoDup p_ids -> In p p_ids -> negb force && recent = false ->
  map r_day (rows_of p (seed_metrics rnd recent p_ids days force today))
  = map (fun i => (today - (days - 1) + Z.of_nat i)%Z) (seq 0 (Z.to_nat days)).
Proof.
  intros Hnd Hin Hrun. unfold seed_metrics. rewrite Hrun.
  destruct (gen_projects_rows_of rnd (today - (days - 1)) (Z.to_nat days) p p_ids 0 0 Hnd Hin)
    as [idx [k E]].
  rewrite E. apply gen_days_shape.
Qed.

Definition linked (t : table) (u_id p : string) : bool :=
  existsb (fun c => String.eqb (c_u_id c) u_id && String.eqb (c_p_id c) p) t.

Lemma linked_app (t t' : table) (u_id p : string) :
  linked (t ++ t')%list u_id p = linked t u_id p || linked t' u_id p.
Proof. unfold linked. apply existsb_app. Qed.

Lemma ensure_user_links_spec (u_id : string) :
  forall demos t,
  let t' := ensure_user_links t u_id demos in
  (forall p, In p demos \/ linked t u_id p = true -> linked t' u_id p = true)
  /\ (exists added, t' = (t ++ added)%list
        /\ Forall (fun c => c_u_id c = u_id /\ In (c_p_id c) demos /\ c_u_role c = "Demo Role") added)
  /\ ((forall p, In p demos -> linked t u_id p = true) -> t' = t).
Proof.
  unfold ensure_user_links. induction demos as [|q qs IH]; intros t; simpl.
  - split; [intros p [[]|H]; exact H|].
    split; [exists []; rewrite app_nil_r; split; [reflexivity|constructor]|reflexivity].
  - fold (linked t u_id q).
    destruct (linked t u_id q) eqn:L.
    + destruct (IH t) as [A [[added [E F]] I]].
      split; [|split].
      * intros p [[<-|Hp]|Hp]; apply A; [right; exact L|left; exact Hp|right; exact Hp].
      * exists added. split; [exact E|].
        eapply Forall_impl; [|exact F]. simpl. intros c [? [? ?]]. tauto.
      * intro Hall. apply I. intros p Hp. apply Hall. right. exact Hp.
    + set (t1 := (t ++ [mk_credit u_id q "Demo Role"])%list).
      destruct (IH t1) as [A [[added [E F]] I]].
      assert (Lq : linked t1 u_id q = true).
      { unfold t1. rewrite linked_app. simpl. rewrite !String.eqb_refl. apply orb_true_r. }
      split; [|split].
      * intros p [[<-|Hp]|Hp]; apply A; [right; exact Lq|left; exact Hp|].
        right. unfold t1. rewrite linked_app, Hp. reflexivity.
      * exists (mk_credit u_id q "Demo Role" :: added). split.
        -- rewrite E. unfold t1. rewrite <- app_assoc. reflexivity.
        -- constructor; [simpl; tauto|].
           eapply Forall_impl; [|exact F]. simpl. intros c [? [? ?]]. tauto.
      * intro Hall. rewrite Hall in L; [discriminate|left; reflexivity].
Qed.

(** X6: after [ensure_user_links] the user is linked to every demo project;
    running it again adds nothing; and it only appends rows of this user,
    for demo projects, with role Demo Role. *)
Theorem ensure_user_links_rerun (t : table) (u_id : string) (demos : list string) :
  let t' := ensure_user_links t u_id demos in
  (forall p, In p demos -> linked t' u_id p = true)
  /\ ensure_user_links t' u_id demos = t'
  /\ (exists added, t' = (t ++ added)%list
        /\ Forall (fun c => c_u_id c = u_id /\ In (c_p_id c) demos
                            /\ c_u_role c = "Demo Role") added).
Proof.
  cbv zeta.
  destruct (ensure_user_links_spec u_id demos t) as [A [B _]].
  split; [intros p Hp; apply A; left; exact Hp|split; [|exact B]].
  destruct (ensure_user_links_spec u_id demos (ensure_user_links t u_id demos)) as [_ [_ I]].
  apply I. intros p Hp. apply A. left. exact Hp.
Qed.

End SeedDbFacts.

Module FollowFacts.
Import PyStr Follow.
Local Open Scope nat_scope.

Lemma is_following_app (t : follows) (r : follow_row) (x y : string) :
  is_following (t ++ [r])%list x y = is_following t x y || row_is x y r.
Proof.
  unfold is_following. rewrite filter_app, length_app. simpl.
  destruct (row_is x y r); simpl;
  destruct (length (filter (row_is x y) t)); simpl; try reflexivity.
Qed.

Lemma is_following_true (t : follows) (x y : string) :
  is_following t x y = true <-> exists r, In r t /\ row_is x y r = true.
Proof.
  unfold is_following. rewrite Nat.ltb_lt. split.
  - intro H. destruct (filter (row_is x y) t) as [|r l] eqn:E; [simpl in H; lia|].
    exists r. apply (filter_In (row_is x y)). rewrite E. left. reflexivity.
  - intros [r Hr]. apply (filter_In (row_is x y)) in Hr.
    destruct (filter (row_is x y) t); [destruct Hr|simpl; lia].
Qed.

Lemma row_is_mk (x y a b : string) :
  row_is x y (mk_follow a b) = String.eqb x a && String.eqb y b.
Proof. unfold row_is. simpl. rewrite (String.eqb_sym a x), (String.eqb_sym b y). reflexivity. Qed.

Lemma follow_user_status (t : follows) (a b x y : string) :
  is_following (follow_user t a b) x y = is_following t x y || (String.eqb x a && String.eqb y b).
Proof.
  unfold follow_user. destruct (is_following t a b) eqn:F.
  - destruct (String.eqb_spec x a) as [->|]; destruct (String.eqb_spec y b) as [->|];
      simpl; rewrite ?F, ?orb_false_r; reflexivity.
  - rewrite is_following_app, row_is_mk. reflexivity.
Qed.

(** X7: after [follow_user t a b], [is_following x y] holds exactly when it
    held before or (x, y) = (a, b). *)
Theorem follow_user_effect (t : follows) (a b x y : string) :
  is_following (follow_user t a b) x y = is_following t x y || (String.eqb x a && String.eqb y b).
Proof. apply follow_user_status. Qed.

Lemma NoDup_snoc {A : Type} (l : list A) (x : A) :
  NoDup l -> ~ In x l -> NoDup (l ++ [x])%list.
Proof.
  induction 1 as [|y l Hy Hnd IH]; intro Hx; simpl; [constructor; [intros []|constructor]|].
  constructor.
  - rewrite in_app_iff. simpl. intros [H|[H|[]]]; [contradiction|]. subst. apply Hx. left. reflexivity.
  - apply IH. intro H. apply Hx. right. exact H.
Qed.

(** X8: [follow_user] is idempotent, and it never creates a duplicate follow
    row: a table without duplicates stays without duplicates. *)
Theorem follow_user_no_duplicates (t : follows) (a b : string) :
  follow_user (follow_user t a b) a b = follow_user t a b
  /\ (NoDup t -> NoDup (follow_user t a b)).
Proof.
  split.
  - unfold follow_user at 1. rewrite follow_user_status, !String.eqb_refl, orb_true_r. reflexivity.
  - intro Hnd. unfold follow_user. destruct (is_following t a b) eqn:F; [exact Hnd|].
    apply NoDup_snoc; [exact Hnd|]. intro Hin.
    assert (is_following t a b = true) as H; [|rewrite H in F; discriminate].
    apply is_following_true. exists (mk_follow a b). split; [exact Hin|].
    rewrite row_is_mk, !String.eqb_refl. reflexivity.
Qed.

Lemma row_is_true (x y : string) (r : follow_row) :
  row_is x y r = true <-> follower_id r = x /\ followed_id r = y.
Proof.
  unfold row_is. rewrite andb_true_iff, !String.eqb_eq. tauto.
Qed.

Lemma unfollow_filter (t : follows) (a b x y : string) :
  filter (row_is x y) (unfollow_user t a b)
  = if String.eqb x a && String.eqb y b then [] else filter (row_is x y) t.
Proof.
  unfold unfollow_user. induction t as [|r t IH]; simpl;
    [destruct (String.eqb x a && String.eqb y b); reflexivity|].
  destruct (row_is a b r) eqn:Rab; destruct (row_is x y r) eqn:Rxy; simpl;
    rewrite ?Rxy, IH.
  - apply row_is_true in Rab as [A B]. apply row_is_true in Rxy as [X Y].
    assert (String.eqb x a && String.eqb y b = true) as ->
      by (apply andb_true_iff; rewrite !String.eqb_eq; split; congruence).
    reflexivity.
  - reflexivity.
  - destruct (String.eqb x a && String.eqb y b) eqn:C; [|reflexivity].
    apply andb_true_iff in C as [C1 C2]. apply String.eqb_eq in C1, C2. subst.
    rewrite Rxy in Rab. discriminate.
  - destruct (String.eqb x a && String.eqb y b); reflexivity.
Qed.

(** X9: after [unfollow_user t a b], [is_following x y] holds exactly when
    it held before and (x, y) is not (a, b). *)
Theorem unfollow_user_effect (t : follows) (a b x y : string) :
  is_following (unfollow_user t a b) x y
  = is_following t x y && negb (String.eqb x a && String.eqb y b).
Proof.
  unfold is_following. rewrite unfollow_filter.
  destruct (String.eqb x a && String.eqb y b); simpl;
    [rewrite andb_false_r; reflexivity|rewrite andb_true_r; reflexivity].
Qed.

End FollowFacts.

Module SearchFacts.
Import PyStr Follow FollowFacts.
Local Open Scope nat_scope.

Lemma in_firstn_in {A : Type} (n : nat) (l : list A) (x : A) :
  In x (firstn n l) -> In x l.
Proof.
  intro H. rewrite <- (firstn_skipn n l). apply in_or_app. left. exact H.
Qed.

Lemma NoDup_firstn' {A : Type} (n : nat) (l : list A) : NoDup l -> NoDup (firstn n l).
Proof.
  intro H. rewrite <- (firstn_skipn n l) in H. apply NoDup_app_remove_r in H. exact H.
Qed.

Lemma dedup_users_spec (rows : list user) :
  forall seen,
  (forall u, In u (dedup_users seen rows) -> In u rows /\ ~ In (u_id u) seen)
  /\ NoDup (map u_id (dedup_users seen rows)).
Proof.
  induction rows as [|r rs IH]; intro seen; simpl; [split; [intros u []|constructor]|].
  destruct (existsb (String.eqb (u_id r)) seen) eqn:E.
  - destruct (IH seen) as [A B]. split; [|exact B].
    intros u Hu. destruct (A u Hu) as [H1 H2]. split; [right; exact H1|exact H2].
  - destruct (IH (u_id r :: seen)) as [A B].
    assert (Hr : ~ In (u_id r) seen).
    { intro Hin. assert (existsb (String.eqb (u_id r)) seen = true) as X; [|congruence].
      apply existsb_exists. exists (u_id r). split; [exact Hin|apply String.eqb_refl]. }
    split.
    + intros u [<-|Hu]; [split; [left; reflexivity|exact Hr]|].
      destruct (A u Hu) as [H1 H2]. split; [right; exact H1|].
      intro H. apply H2. right. exact H.
    + simpl. constructor; [|exact B].
      intro Hin. apply in_map_iff in Hin as [u [Hu Hin]].
      destruct (A u Hin) as [_ H2]. apply H2. left. symmetry. exact Hu.
Qed.

Lemma flag_is_following (t : follows) (cur uid : string) (user_ids : list string) :
  In uid user_ids ->
  existsb (String.eqb uid)
    (map followed_id (filter (fun r => String.eqb (follower_id r) cur
                                       && existsb (String.eqb (followed_id r)) user_ids) t))
  = is_following t cur uid.
Proof.
  intro Huid. apply Bool.eq_iff_eq_true. rewrite is_following_true, existsb_exists.
  split.
  - intros [x [Hx E]]. apply String.eqb_eq in E. subst x.
    apply in_map_iff in Hx as [r [Hr Hin]]. apply filter_In in Hin as [Hin P].
    apply andb_true_iff in P as [P _].
    exists r. split; [exact Hin|]. apply row_is_true. split; [apply String.eqb_eq; exact P|exact Hr].
  - intros [r [Hin R]]. apply row_is_true in R as [R1 R2].
    exists uid. split; [|apply String.eqb_refl].
    apply in_map_iff. exists r. split; [exact R2|].
    apply filter_In. split; [exact Hin|].
    apply andb_true_iff. split; [apply String.eqb_eq; exact R1|].
    apply existsb_exists. exists uid. split; [exact Huid|]. rewrite R2. apply String.eqb_refl.
Qed.

(** X10: [search_users] returns nothing for a blank query; otherwise at most
    20 hits with distinct user ids, each a user of the table other than the
    current user, whose is_following flag is the current user's follow
    status for that user. *)
Theorem search_users_results (ilike : string -> string -> bool) (users : list user)
    (t : follows) (ms : list metrics_row) (query current_u_id : string) :
  let hs := search_users ilike users t ms query current_u_id in
  (strip query = "" -> hs = [])
  /\ length hs <= 20
  /\ NoDup (map (fun h => u_id (h_user h)) hs)
  /\ Forall (fun h => In (h_user h) users /\ u_id (h_user h) <> current_u_id
                      /\ h_is_following h = is_following t current_u_id (u_id (h_user h))) hs.
Proof.
  unfold search_users. cbv zeta.
  destruct (String.eqb query "" || (String.length (strip query) <? 1)) eqn:B.
  { split; [reflexivity|split; [simpl; lia|split; constructor]]. }
  split.
  { intro Hs. rewrite Hs in B. rewrite orb_true_r in B. discriminate. }
  set (pat := "%" ++ strip query ++ "%").
  set (sel := fun (f : user -> string) =>
                firstn 20 (filter (fun r => ilike (f r) pat
                                            && negb (String.eqb (u_id r) current_u_id)) users)).
  assert (Hsel : forall f u, In u (sel f) -> In u users /\ u_id u <> current_u_id).
  { intros f u Hu. apply in_firstn_in, filter_In in Hu as [Hu P].
    apply andb_true_iff in P as [_ P]. apply negb_true_iff, String.eqb_neq in P.
    split; assumption. }
  change (firstn 20 (filter (fun r => ilike (u_name r) pat
                                      && negb (String.eqb (u_id r) current_u_id)) users))
    with (sel u_name).
  change (firstn 20 (filter (fun r => ilike (u_email r) pat
                                      && negb (String.eqb (u_id r) current_u_id)) users))
    with (sel u_email).
  remember (firstn 20 (dedup_users [] (sel u_name ++ sel u_email)%list)) as us eqn:Hus.
  destruct (dedup_users_spec (sel u_name ++ sel u_email)%list []) as [D1 D2].
  assert (Hlen : length us <= 20) by (rewrite Hus, length_firstn; lia).
  assert (Hnd : NoDup (map u_id us)) by (rewrite Hus, <- firstn_map; apply NoDup_firstn'; exact D2).
  assert (Hin : forall u, In u us -> In u users /\ u_id u <> current_u_id).
  { intros u Hu. rewrite Hus in Hu. apply in_firstn_in, D1 in Hu as [Hu _].
    apply in_app_iff in Hu as [Hu|Hu]; eapply Hsel; exact Hu. }
  clear Hus.
  destruct us as [|u0 us'].
  { split; [simpl; lia|split; constructor]. }
  set (us := u0 :: us') in *.
  split; [|split].
  - rewrite length_map. exact Hlen.
  - rewrite map_map. simpl. exact Hnd.
  - apply Forall_forall. intros h Hh. apply in_map_iff in Hh as [u [<- Hu]]. simpl.
    destruct (Hin u Hu) as [H1 H2]. split; [exact H1|split; [exact H2|]].
    rewrite <- (flag_is_following t current_u_id (u_id u) (map u_id us)) by (apply in_map; exact Hu).
    reflexivity.
Qed.

End SearchFacts.

Module StripFacts.
Import PyStr.

Fixpoint lstrip_l (l : list ascii) : list ascii :=
  match l with
  | c :: l' => if is_space c then lstrip_l l' else l
  | [] => []
  end.

Definition first_ns (l : list ascii) : Prop :=
  match l with [] => True | c :: _ => is_space c = false end.

(** No white space at either end. *)
Definition stripped (s : string) : Prop :=
  first_ns (list_ascii_of_string s) /\ first_ns (rev (list_ascii_of_string s)).

Lemma L_app (a b : string) :
  list_ascii_of_string (a ++ b) = (list_ascii_of_string a ++ list_ascii_of_string b)%list.
Proof. induction a as [|c a IH]; simpl; [reflexivity|rewrite IH; reflexivity]. Qed.

Lemma L_lstrip (s : string) : list_ascii_of_string (lstrip s) = lstrip_l (list_ascii_of_string s).
Proof. induction s as [|c s IH]; simpl; [reflexivity|destruct (is_space c); [exact IH|reflexivity]]. Qed.

Lemma L_rev (s : string) : list_ascii_of_string (rev_string s) = rev (list_ascii_of_string s).
Proof. unfold rev_string. apply list_ascii_of_string_of_list_ascii. Qed.

Lemma L_strip (s : string) :
  list_ascii_of_string (strip s)
  = rev (lstrip_l (rev (lstrip_l (list_ascii_of_string s)))).
Proof. unfold strip. rewrite L_rev, L_lstrip, L_rev, L_lstrip. reflexivity. Qed.

Lemma L_inj (s t : string) : list_ascii_of_string s = list_ascii_of_string t -> s = t.
Proof.
  intro H. rewrite <- (string_of_list_ascii_of_string s), <- (string_of_list_ascii_of_string t), H.
  reflexivity.
Qed.

Lemma lstrip_l_first (l : list ascii) : first_ns (lstrip_l l).
Proof.
  induction l as [|c l IH]; simpl; [exact I|].
  destruct (is_space c) eqn:E; [exact IH|exact E].
Qed.

Lemma lstrip_l_id (l : list ascii) : first_ns l -> lstrip_l l = l.
Proof. destruct l as [|c l]; simpl; [reflexivity|intros ->; reflexivity]. Qed.

Lemma lstrip_l_suffix (l : list ascii) : exists w, l = (w ++ lstrip_l l)%list.
Proof.
  induction l as [|c l [w IH]]; simpl; [exists []; reflexivity|].
  destruct (is_space c); [exists (c :: w); simpl; rewrite <- IH; reflexivity|].
  exists []. reflexivity.
Qed.

Lemma strip_stripped (s : string) : stripped (strip s).
Proof.
  unfold stripped. rewrite L_strip, rev_involutive. split; [|apply lstrip_l_first].
  set (u := lstrip_l (list_ascii_of_string s)).
  assert (Hu : first_ns u) by apply lstrip_l_first.
  destruct (lstrip_l_suffix (rev u)) as [w Hw].
  assert (E : u = (rev (lstrip_l (rev u)) ++ rev w)%list).
  { rewrite <- rev_app_distr, <- Hw, rev_involutive. reflexivity. }
  destruct (rev (lstrip_l (rev u))) as [|c r]; [exact I|].
  rewrite E in Hu. exact Hu.
Qed.

Lemma stripped_strip_id (s : string) : stripped s -> strip s = s.
Proof.
  intros [H1 H2]. apply L_inj. rewrite L_strip, (lstrip_l_id _ H1), (lstrip_l_id _ H2).
  apply rev_involutive.
Qed.

Lemma strip_idem (s : string) : strip (strip s) = strip s.
Proof. apply stripped_strip_id, strip_stripped. Qed.

Lemma in_lstrip_l (l : list ascii) (c : ascii) : In c (lstrip_l l) -> In c l.
Proof.
  destruct (lstrip_l_suffix l) as [w Hw]. intro H. rewrite Hw. apply in_or_app. right. exact H.
Qed.

Lemma in_strip (s : string) (c : ascii) :
  In c (list_ascii_of_string (strip s)) -> In c (list_ascii_of_string s).
Proof.
  rewrite L_strip. intro H. apply in_rev, in_lstrip_l, in_rev, in_lstrip_l in H. exact H.
Qed.

Lemma stripped_slash (s : string) : s <> "" -> stripped s -> stripped ("/" ++ s).
Proof.
  intros Hne [H1 H2]. unfold stripped. simpl. split; [reflexivity|].
  destruct (rev (list_ascii_of_string s)) as [|c r] eqn:E.
  - destruct s; [contradiction|]. simpl in E. destruct (rev (list_ascii_of_string s)); discriminate.
  - simpl. simpl in H2. exact H2.
Qed.

End StripFacts.

Module SettingsFacts.
Import PyStr Settings StripFacts.

(** X11: a value [_read_secret_or_env] returns is nonempty and has no
    surrounding white space, and a secret whose stripped text is nonempty is
    returned (stripped) whatever the environment holds. *)
Theorem read_secret_or_env_stripped (secret_value env_value : option string) :
  (forall v, _read_secret_or_env secret_value env_value = Some v -> v <> "" /\ strip v = v)
  /\ (forall s, strip s <> "" -> _read_secret_or_env (Some s) env_value = Some (strip s)).
Proof.
  split.
  - intros v. unfold _read_secret_or_env.
    assert (P : forall raw v, match raw with
                              | None => None
                              | Some r => match strip r with EmptyString => None | v => Some v end
                              end = Some v -> v <> "" /\ strip v = v).
    { intros [r|] w H; [|discriminate].
      destruct (strip r) as [|c s'] eqn:E; [discriminate|]. injection H as <-.
      split; [discriminate|]. rewrite <- E. apply strip_idem. }
    destruct secret_value as [r|].
    + destruct (strip r) as [|c s'] eqn:E.
      * apply P.
      * intro H. injection H as <-. split; [discriminate|]. rewrite <- E. apply strip_idem.
    + apply P.
  - intros s Hs. unfold _read_secret_or_env.
    destruct (strip s) as [|c s']; [contradiction|reflexivity].
Qed.

(** X12: [_resolve_instagram_redirect_path] always returns a path that
    starts with / and has no surrounding white space. *)
Theorem instagram_redirect_path_shape (path_candidates : list (option string)) :
  let path := _resolve_instagram_redirect_path path_candidates in
  String.prefix "/" path = true /\ strip path = path.
Proof.
  induction path_candidates as [|c cs IH]; simpl; [split; reflexivity|].
  destruct c as [v|]; [|exact IH].
  destruct v as [|a v']; [exact IH|].
  assert (Hs : stripped (strip (String a v'))) by apply strip_stripped.
  assert (G : forall p, p <> "" -> stripped p ->
    let r := if String.prefix "/" p then p else "/" ++ p in
    String.prefix "/" r = true /\ strip r = r).
  { intros p Hne Hp. simpl. destruct (String.prefix "/" p) eqn:P.
    - split; [exact P|]. apply stripped_strip_id. exact Hp.
    - split.
      + simpl. destruct (ascii_dec "/" "/") as [_|n]; [destruct p; reflexivity|congruence].
      + apply stripped_strip_id, stripped_slash; [exact Hne|exact Hp]. }
  destruct (strip (String a v')) as [|b w] eqn:E; [exact IH|].
  exact (G (String b w) ltac:(discriminate) Hs).
Qed.

End SettingsFacts.

Module LambdaExtraFacts.
Import PyStr Lambda StripFacts.

Lemma split_comma_no_comma (s : string) :
  forall cur, ~ In ","%char (list_ascii_of_string cur) ->
  forall x, In x (split_comma_aux cur s) -> ~ In ","%char (list_ascii_of_string x).
Proof.
  induction s as [|c s IH]; intros cur Hcur x Hx; simpl in Hx.
  - destruct Hx as [<-|[]]. exact Hcur.
  - destruct (Ascii.eqb c ","%char) eqn:E.
    + destruct Hx as [<-|Hx]; [exact Hcur|].
      apply (IH EmptyString); [simpl; tauto|exact Hx].
    + apply (IH (cur ++ String c EmptyString)); [|exact Hx].
      rewrite L_app. simpl. rewrite in_app_iff. simpl. intros [H|[H|[]]]; [contradiction|].
      subst c. discriminate.
Qed.

(** X13: the video id list the Lambda handler reads from VIDEO_IDS is never
    empty, and each id in it is nonempty, stripped and free of commas. *)
Theorem video_ids_clean (video_ids_env : string) :
  video_ids_of_env video_ids_env <> []
  /\ forall v, In v (video_ids_of_env video_ids_env) ->
     v <> "" /\ strip v = v /\ ~ In ","%char (list_ascii_of_string v).
Proof.
  unfold video_ids_of_env.
  destruct (filter _ (split_comma video_ids_env)) as [|x l] eqn:F.
  - split; [discriminate|]. intros v [<-|[]].
    split; [discriminate|split; [reflexivity|]]. simpl. intuition discriminate.
  - split; [discriminate|]. intros v Hv.
    apply in_map_iff in Hv as [y [<- Hy]].
    rewrite <- F in Hy. apply filter_In in Hy as [Hy P].
    split; [|split].
    + intro H. rewrite H in P. discriminate.
    + apply strip_idem.
    + intro H. apply in_strip in H. revert H.
      apply (split_comma_no_comma video_ids_env EmptyString); [simpl; tauto|exact Hy].
Qed.

Lemma process_video_post (w : world) (vid v : string) :
  In (SupabasePost v) (fst (process_video w vid)) ->
  v = vid /\ yt_get w vid = Ok true /\ yt_body_of w vid = BodyItems (Ok tt)
  /\ dedupe_found w vid <> Some true.
Proof.
  unfold process_video.
  destruct (yt_get w vid) as [[|]|e]; simpl; try (intros [H|[]]; discriminate H).
  destruct (yt_body_of w vid) as [e| |[[]|e]]; simpl;
    try (intros [H|[]]; discriminate H); try (intros [H|[H|[]]]; discriminate H).
  destruct (dedupe_found w vid) as [[|]|] eqn:D; simpl;
    [intros [H|[H|[H|[]]]]; discriminate H| |];
    destruct (insert w vid); simpl; intro H;
    repeat (destruct H as [H|H]; [try discriminate H; injection H as ->|]);
    try contradiction; repeat split; try reflexivity; discriminate.
Qed.

Lemma process_all_post (w : world) (v : string) :
  forall vids, In (SupabasePost v) (fst (process_all w vids)) ->
  In v vids /\ yt_get w v = Ok true /\ yt_body_of w v = BodyItems (Ok tt)
  /\ dedupe_found w v <> Some true.
Proof.
  induction vids as [|vid vids IH]; simpl; [intros []|].
  destruct (process_video w vid) as [evs r] eqn:P.
  assert (Hp : In (SupabasePost v) evs ->
               v = vid /\ yt_get w vid = Ok true /\ yt_body_of w vid = BodyItems (Ok tt)
               /\ dedupe_found w vid <> Some true)
    by (intro H; apply (process_video_post w vid v); rewrite P; exact H).
  destruct r as [u|e].
  - destruct (process_all w vids) as [evs' r'] eqn:Q. simpl.
    rewrite in_app_iff. intros [H|H].
    + destruct (Hp H) as [-> Hs]. split; [left; reflexivity|exact Hs].
    + destruct (IH H) as [Hin Hs]. split; [right; exact Hin|exact Hs].
  - simpl. intro H. destruct (Hp H) as [-> Hs]. split; [left; reflexivity|exact Hs].
Qed.

(** X14: the Lambda handler posts a metrics row for video v only when its
    keys are set, v is a configured id, the video API answered ok for v
    with items whose statistics were read, and the dedupe query did not
    report a row for today. *)
Theorem lambda_posts_only_fresh_data (keys_set : bool) (video_ids_env : string) (w : world)
    (v : string) :
  In (SupabasePost v) (fst (lambda_handler keys_set video_ids_env w)) ->
  keys_set = true /\ In v (video_ids_of_env video_ids_env) /\ yt_get w v = Ok true
  /\ yt_body_of w v = BodyItems (Ok tt) /\ dedupe_found w v <> Some true.
Proof.
  unfold lambda_handler. destruct keys_set; simpl; [|intros []].
  destruct (process_all w (video_ids_of_env video_ids_env)) as [evs r] eqn:P. simpl.
  intros [H|H]; [discriminate|].
  split; [reflexivity|]. apply process_all_post. rewrite P. exact H.
Qed.

End LambdaExtraFacts.

Module RedirectExtraFacts.
Import PyStr Redirect.

Lemma normalize_base_url_values (c : option string) (n : string) :
  _normalize_base_url c = Ok (Some n) ->
  n = CANONICAL_PRODUCTION_URL \/ exists p, n = "http://localhost" ++ port_suffix p.
Proof.
  unfold _normalize_base_url. intro H.
  repeat match type of H with
         | context [match ?x with _ => _ end] => destruct x eqn:?
         end; try discriminate;
  injection H as <-; first [left; reflexivity | right; eexists; reflexivity].
Qed.

(** X15: a base URL [_get_production_base_url] returns is either the
    canonical production URL or http://localhost with an optional port
    suffix; it never passes another host through. *)
Theorem production_base_url_values (candidates : list (option string)) (r : string) :
  _get_production_base_url candidates = Ok r ->
  r = CANONICAL_PRODUCTION_URL \/ exists p, r = "http://localhost" ++ port_suffix p.
Proof.
  induction candidates as [|c cs IH]; simpl.
  - intro H. injection H as <-. left. reflexivity.
  - destruct (_normalize_base_url c) as [[n|]|e] eqn:N; intro H.
    + injection H as <-. apply (normalize_base_url_values c). exact N.
    + apply IH. exact H.
    + discriminate.
Qed.

End RedirectExtraFacts.

Module TokenExtraFacts.
Import TokenExpiry.
Local Open Scope Z_scope.

(** X16: [is_token_expired] is monotone in time: a token reported as
    expiring at [now] is still reported as expiring at any later time. *)
Theorem token_expired_stays_expired (fromisoformat : string -> option datetime)
    (now now' : Z) (expires_at : option string) :
  now <= now' ->
  is_token_expired fromisoformat now expires_at = Ok true ->
  is_token_expired fromisoformat now' expires_at = Ok true.
Proof.
  intro Hle. unfold is_token_expired.
  destruct expires_at as [[|c s]|]; try discriminate.
  destruct (fromisoformat (replace_Z (String c s))) as [dt|]; [|discriminate].
  destruct (match dt_offset dt with
            | Some off => astimezone_utc dt off
            | None => Ok (dt_seconds dt)
            end) as [t|[]]; try discriminate.
  intro H. injection H as H. f_equal. apply Z.leb_le. apply Z.leb_le in H. lia.
Qed.

(** X17: [is_token_expired] raises OverflowError (which it does not catch)
    for a nonempty timestamp that parses with a UTC offset but lies outside
    datetime's range once converted to UTC. *)
Theorem token_out_of_range_raises (fromisoformat : string -> option datetime) (now : Z)
    (s : string) (dt : datetime) (off : Z) :
  s <> "" ->
  fromisoformat (replace_Z s) = Some dt ->
  dt_offset dt = Some off ->
  dt_seconds dt - off < MIN_SECONDS \/ MAX_SECONDS < dt_seconds dt - off ->
  is_token_expired fromisoformat now (Some s) = Raise OverflowError.
Proof.
  intros Hs Hf Ho Hr. unfold is_token_expired.
  destruct s as [|c s']; [contradiction|].
  rewrite Hf, Ho. unfold astimezone_utc.
  replace ((MIN_SECONDS <=? dt_seconds dt - off) && (dt_seconds dt - off <=? MAX_SECONDS))
    with false; [reflexivity|].
  symmetry. apply andb_false_iff.
  destruct Hr as [Hr|Hr]; [left|right]; apply Z.leb_gt; lia.
Qed.

End TokenExtraFacts.

Module SanitizeFacts.
Import PyStr Sanitize StripFacts.
Local Open Scope nat_scope.

Lemma str_app_assoc (a b c : string) : a ++ (b ++ c) = (a ++ b) ++ c.
Proof. induction a as [|x a IH]; simpl; [reflexivity|rewrite IH; reflexivity]. Qed.

Lemma str_length_app (a b : string) : String.length (a ++ b) = String.length a + String.length b.
Proof. induction a as [|x a IH]; simpl; [reflexivity|rewrite IH; reflexivity]. Qed.

Definition is_bracket (c : ascii) : bool := Ascii.eqb c "<"%char || Ascii.eqb c ">"%char.

(** Every "<" is directly followed by ">" or has no ">" after it. *)
Definition nt (l : list ascii) : Prop :=
  forall a b, l = (a ++ "<"%char :: b)%list -> hd_error b = Some ">"%char \/ ~ In ">"%char b.

Lemma nt_tail (c : ascii) (l : list ascii) : nt (c :: l) -> nt l.
Proof. intros H a b E. apply (H (c :: a) b). rewrite E. reflexivity. Qed.

Lemma nt_suffix (p l : list ascii) : nt (p ++ l)%list -> nt l.
Proof. induction p as [|c p IH]; simpl; [tauto|intro H; apply IH, (nt_tail c), H]. Qed.

Lemma nt_cons (c : ascii) (l : list ascii) : c <> "<"%char -> nt l -> nt (c :: l).
Proof.
  intros Hc H [|d a] b E; simpl in E; injection E as E1 E2.
  - congruence.
  - apply (H a b E2).
Qed.

Lemma nt_lt (l : list ascii) :
  nt l -> hd_error l = Some ">"%char \/ ~ In ">"%char l -> nt ("<"%char :: l).
Proof.
  intros H Hh [|d a] b E; simpl in E.
  - injection E as E2. subst l. exact Hh.
  - injection E as E1 E2. apply (H a b E2).
Qed.

(** Keep a character, drop a non-bracket, or replace a non-bracket by a
    non-bracket. *)
Inductive relax : list ascii -> list ascii -> Prop :=
  | relax_nil : relax [] []
  | relax_keep c l l' : relax l l' -> relax (c :: l) (c :: l')
  | relax_drop c l l' : is_bracket c = false -> relax l l' -> relax (c :: l) l'
  | relax_repl c d l l' : is_bracket c = false -> is_bracket d = false ->
      relax l l' -> relax (c :: l) (d :: l').

Lemma relax_refl (l : list ascii) : relax l l.
Proof. induction l; constructor; assumption. Qed.

Lemma relax_keep_app (p l l' : list ascii) : relax l l' -> relax (p ++ l)%list (p ++ l')%list.
Proof. induction p; simpl; [tauto|intro H; constructor; auto]. Qed.

Lemma relax_drop_app (p l l' : list ascii) :
  (forall c, In c p -> is_bracket c = false) -> relax l l' -> relax (p ++ l)%list l'.
Proof.
  induction p as [|c p IH]; simpl; [tauto|].
  intros Hp H. apply relax_drop; [apply Hp; left; reflexivity|]. apply IH; [|exact H].
  intros d Hd. apply Hp. right. exact Hd.
Qed.

Lemma relax_no_gt (l l' : list ascii) : relax l l' -> ~ In ">"%char l -> ~ In ">"%char l'.
Proof.
  induction 1 as [|c l l' _ IH|c l l' _ _ IH|c d l l' _ Hd _ IH]; simpl; intros Hn.
  - tauto.
  - intros [E|E]; [apply Hn; left; exact E|apply IH; [tauto|exact E]].
  - apply IH. tauto.
  - intros [E|E]; [subst d; discriminate|apply IH; [tauto|exact E]].
Qed.

Lemma relax_nt (l l' : list ascii) : relax l l' -> nt l -> nt l'.
Proof.
  induction 1 as [|c l l' R IH|c l l' Hc R IH|c d l l' Hc Hd R IH]; intro H.
  - exact H.
  - pose proof (IH (nt_tail _ _ H)) as H'.
    destruct (ascii_dec c "<"%char) as [->|Hne]; [|apply nt_cons; assumption].
    apply nt_lt; [exact H'|].
    destruct (H [] l eq_refl) as [Hh|Hn].
    + left. destruct l as [|x l]; [discriminate|]. injection Hh as ->.
      inversion R; subst; try discriminate. reflexivity.
    + right. apply (relax_no_gt l l' R Hn).
  - apply IH, (nt_tail c), H.
  - apply nt_cons; [intros ->; discriminate|]. apply IH, (nt_tail c), H.
Qed.

(** The matchers remove a prefix. *)
Definition removes_prefix (m : string -> option string) (ok : ascii -> bool) : Prop :=
  forall s r, m s = Some r ->
  exists p, s = p ++ r /\ p <> "" /\ forall c, In c (list_ascii_of_string p) -> ok c = true.

Lemma sub_empty_relax (m : string -> option string) :
  removes_prefix m (fun c => negb (is_bracket c)) ->
  forall f s, relax (list_ascii_of_string s) (list_ascii_of_string (sub_empty m f s)).
Proof.
  intros Hm f. induction f as [|f IH]; intro s; simpl; [apply relax_refl|].
  destruct (m s) as [r|] eqn:E.
  - destruct (Hm s r E) as [p [-> [_ Hp]]]. rewrite L_app. apply relax_drop_app; [|apply IH].
    intros c Hc. apply negb_true_iff, Hp, Hc.
  - destruct s as [|c s']; simpl; [constructor|]. constructor. apply IH.
Qed.

Lemma sub_empty_chars (m : string -> option string) (ok : ascii -> bool) :
  removes_prefix m ok ->
  forall f s c, In c (list_ascii_of_string (sub_empty m f s)) -> In c (list_ascii_of_string s).
Proof.
  intros Hm f. induction f as [|f IH]; intros s c; simpl; [tauto|].
  destruct (m s) as [r|] eqn:E.
  - destruct (Hm s r E) as [p [-> _]]. rewrite L_app. intro H. apply in_or_app. right.
    apply (IH r c H).
  - destruct s as [|d s']; simpl; [tauto|]. intros [H|H]; [left; exact H|right; apply IH, H].
Qed.

Lemma upto_gt_spec (s : string) :
  match upto_gt s with
  | Some (a, b) => s = a ++ String ">" b /\ ~ In ">"%char (list_ascii_of_string a)
  | None => ~ In ">"%char (list_ascii_of_string s)
  end.
Proof.
  induction s as [|c s IH]; simpl; [tauto|].
  destruct (Ascii.eqb c ">"%char) eqn:E.
  - apply Ascii.eqb_eq in E. subst c. split; [reflexivity|simpl; tauto].
  - apply Ascii.eqb_neq in E. destruct (upto_gt s) as [[a b]|].
    + destruct IH as [-> IH]. split; [reflexivity|]. simpl. intros [H|H]; [congruence|tauto].
    + simpl. intros [H|H]; [congruence|tauto].
Qed.

Lemma match_tag_prefix : removes_prefix match_tag (fun _ => true).
Proof.
  intros s r. unfold match_tag. destruct s as [|c s']; [discriminate|].
  destruct (Ascii.eqb c "<"%char); [|discriminate].
  pose proof (upto_gt_spec s') as U. destruct (upto_gt s') as [[[|x a] b]|]; try discriminate.
  intro H. injection H as <-. destruct U as [-> _].
  exists (String c (String x a ++ ">")). split; [|split; [discriminate|intros; reflexivity]].
  simpl. rewrite <- str_app_assoc. reflexivity.
Qed.

Lemma sub_tag_nt (f : nat) (s : string) :
  String.length s <= f -> nt (list_ascii_of_string (sub_empty match_tag f s)).
Proof.
  revert s. induction f as [|f IH]; intros s Hf.
  - destruct s; [|simpl in Hf; lia]. intros [|x a] b E; discriminate.
  - simpl. destruct (match_tag s) as [r|] eqn:E.
    + apply IH. destruct (match_tag_prefix s r E) as [p [-> [Hp _]]].
      rewrite str_length_app in Hf. destruct p; [contradiction|simpl in Hf; lia].
    + destruct s as [|c s']; simpl; [intros [|x a] b Hab; discriminate|].
      simpl in Hf. pose proof (IH s' ltac:(lia)) as H'.
      destruct (ascii_dec c "<"%char) as [->|Hne]; [|apply nt_cons; assumption].
      apply nt_lt; [exact H'|].
      unfold match_tag in E. simpl in E.
      pose proof (upto_gt_spec s') as U. destruct (upto_gt s') as [[[|x a] b]|].
      * destruct U as [-> _]. left. destruct f as [|f]; [reflexivity|].
        cbn [sub_empty]. destruct (match_tag (">" ++ b)) eqn:E2; [|reflexivity].
        unfold match_tag in E2. simpl in E2. discriminate.
      * discriminate.
      * right. intro H. apply U. apply (sub_empty_chars _ _ match_tag_prefix f s' _ H).
Qed.

Lemma prefix_ci_spec (p s r : string) :
  prefix_ci p s = Some r -> exists q, s = q ++ r /\ String.length q = String.length p
    /\ forall c, In c (list_ascii_of_string q) ->
         exists c', In c' (list_ascii_of_string p)
                    /\ Redirect.lower_char c' = Redirect.lower_char c.
Proof.
  revert s. induction p as [|a p IH]; intros s H; simpl in H.
  - injection H as <-. exists EmptyString. repeat split. simpl. tauto.
  - destruct s as [|b s']; [discriminate|].
    destruct (Ascii.eqb (Redirect.lower_char a) (Redirect.lower_char b)) eqn:E; [|discriminate].
    apply Ascii.eqb_eq in E.
    destruct (IH s' H) as [q [-> [Hl Hq]]]. exists (String b q).
    split; [reflexivity|split; [simpl; rewrite Hl; reflexivity|]].
    intros c [<-|Hc]; [exists a; split; [left|]; auto|].
    destruct (Hq c Hc) as [c' [H1 H2]]. exists c'. split; [right; exact H1|exact H2].
Qed.

Lemma lower_char_bracket (c : ascii) :
  is_bracket c = true -> Redirect.lower_char c = c.
Proof.
  unfold is_bracket. intro H. apply orb_true_iff in H as [H|H]; apply Ascii.eqb_eq in H; subst c;
  reflexivity.
Qed.

Lemma prefix_ci_no_bracket (p s r : string) :
  (forall c, In c (list_ascii_of_string p) -> is_bracket c = false) ->
  prefix_ci p s = Some r -> exists q, s = q ++ r /\ String.length q = String.length p
    /\ forall c, In c (list_ascii_of_string q) -> negb (is_bracket c) = true.
Proof.
  intros Hp H. destruct (prefix_ci_spec p s r H) as [q [E [Hl Hq]]].
  exists q. split; [exact E|split; [exact Hl|]]. intros c Hc. apply negb_true_iff.
  destruct (is_bracket c) eqn:B; [|reflexivity].
  destruct (Hq c Hc) as [c' [H1 H2]]. rewrite (lower_char_bracket c B) in H2.
  exfalso. pose proof (Hp c' H1) as Hc'.
  unfold is_bracket in B, Hc'. apply orb_true_iff in B as [B|B]; apply Ascii.eqb_eq in B; subst c;
  revert H2 Hc'; destruct c' as [[] [] [] [] [] [] [] []]; vm_compute; congruence.
Qed.

Lemma match_javascript_prefix : removes_prefix match_javascript (fun c => negb (is_bracket c)).
Proof.
  intros s r H. destruct (prefix_ci_no_bracket "javascript:" s r
    ltac:(intros c Hc; simpl in Hc; intuition (subst; reflexivity)) H)
    as [q [E [Hl Hq]]].
  exists q. split; [exact E|split; [intros ->; discriminate|exact Hq]].
Qed.

Lemma span_spec (f : ascii -> bool) (s : string) :
  let '(a, b) := span f s in s = a ++ b /\ forall c, In c (list_ascii_of_string a) -> f c = true.
Proof.
  induction s as [|c s IH]; simpl; [split; [reflexivity|simpl; tauto]|].
  destruct (f c) eqn:F; [|split; [reflexivity|simpl; tauto]].
  destruct (span f s) as [a b]. destruct IH as [-> IH]. split; [reflexivity|].
  intros d [<-|Hd]; [exact F|apply IH, Hd].
Qed.

Lemma word_no_bracket (c : ascii) : is_word c = true -> is_bracket c = false.
Proof. destruct c as [[] [] [] [] [] [] [] []]; vm_compute; congruence. Qed.

Lemma space_no_bracket (c : ascii) : is_space c = true -> is_bracket c = false.
Proof. destruct c as [[] [] [] [] [] [] [] []]; vm_compute; congruence. Qed.

Lemma match_on_handler_prefix : removes_prefix match_on_handler (fun c => negb (is_bracket c)).
Proof.
  intros s r. unfold match_on_handler.
  destruct (prefix_ci "on" s) as [r0|] eqn:P; [|discriminate].
  destruct (prefix_ci_no_bracket "on" s r0
    ltac:(intros c Hc; simpl in Hc; intuition (subst; reflexivity)) P)
    as [q [-> [Hl Hq]]].
  pose proof (span_spec is_word r0) as S1. destruct (span is_word r0) as [w r1].
  destruct S1 as [-> Hw].
  destruct w as [|x w']; [discriminate|].
  pose proof (span_spec is_space r1) as S2. destruct (span is_space r1) as [sp r2].
  destruct S2 as [-> Hs].
  destruct r2 as [|e r3]; [discriminate|].
  destruct (Ascii.eqb e "="%char) eqn:Eq; [|discriminate].
  apply Ascii.eqb_eq in Eq. subst e. intro H. injection H as <-.
  exists (q ++ String x w' ++ sp ++ "="). split.
  - rewrite <- !str_app_assoc. reflexivity.
  - split; [destruct q; [discriminate|intros; discriminate]|].
    intros c. rewrite !L_app, !in_app_iff. intros [H|[H|[H|H]]].
    + apply Hq, H.
    + apply negb_true_iff, word_no_bracket, Hw, H.
    + apply negb_true_iff, space_no_bracket, Hs, H.
    + destruct H as [<-|[]]. reflexivity.
Qed.

Lemma split_join_relax (s : string) :
  forall cur, (forall c, In c (list_ascii_of_string cur) -> is_space c = false) ->
  relax (list_ascii_of_string cur ++ list_ascii_of_string s)%list
        (list_ascii_of_string (join_space (split_ws_aux cur s))).
Proof.
  induction s as [|c s IH]; intros cur Hcur; simpl.
  - rewrite app_nil_r. destruct cur; apply relax_refl.
  - destruct (is_space c) eqn:Sp.
    + assert (IH0 := IH EmptyString ltac:(simpl; tauto)). simpl in IH0.
      destruct cur as [|x cur'].
      * simpl. apply relax_drop; [apply space_no_bracket, Sp|exact IH0].
      * set (rest := split_ws_aux EmptyString s) in *.
        change (relax (list_ascii_of_string (String x cur') ++ c :: list_ascii_of_string s)%list
                (list_ascii_of_string (join_space (String x cur' :: rest)))).
        destruct rest as [|w ws] eqn:R.
        -- simpl join_space. rewrite <- (app_nil_r (list_ascii_of_string (String x cur'))) at 2.
           apply relax_keep_app. apply relax_drop; [apply space_no_bracket, Sp|exact IH0].
        -- cbn [join_space]. rewrite L_app. apply relax_keep_app. simpl.
           apply relax_repl; [apply space_no_bracket, Sp|reflexivity|exact IH0].
    + specialize (IH (cur ++ String c EmptyString)).
      rewrite L_app, <- app_assoc in IH. apply IH.
      intros d. rewrite in_app_iff. simpl. intros [H|[<-|[]]]; [apply Hcur, H|exact Sp].
Qed.

Lemma L_eq_app_lt (s : string) (a : list ascii) (m : string) (b : list ascii) :
  list_ascii_of_string s = (a ++ "<"%char :: list_ascii_of_string m ++ ">"%char :: b)%list ->
  m <> "" -> ~ In ">"%char (list_ascii_of_string m) -> ~ nt (list_ascii_of_string s).
Proof.
  intros E Hm Hn H. destruct (H a _ E) as [Hh|Hh].
  - destruct m as [|x m']; [contradiction|]. simpl in Hh. injection Hh as ->.
    apply Hn. left. reflexivity.
  - apply Hh. apply in_or_app. right. left. reflexivity.
Qed.

(** On a text where every "<" is followed by ">" or by no ">" at all,
    the tag pattern never matches. *)
Lemma sub_tag_id (f : nat) (s : string) :
  nt (list_ascii_of_string s) -> sub_empty match_tag f s = s.
Proof.
  revert s. induction f as [|f IH]; intros s H; [reflexivity|]. simpl.
  destruct (match_tag s) as [r|] eqn:E.
  - exfalso. destruct s as [|c s']; [discriminate|]. unfold match_tag in E.
    destruct (Ascii.eqb c "<"%char) eqn:C; [|discriminate]. apply Ascii.eqb_eq in C. subst c.
    pose proof (upto_gt_spec s') as U. destruct (upto_gt s') as [[[|x a] b]|]; try discriminate.
    destruct U as [-> Hna]. destruct (H [] _ eq_refl) as [Hh|Hh].
    + simpl in Hh. injection Hh as Hx. apply Hna. left. exact Hx.
    + apply Hh. right. clear. induction a as [|y a IHa]; simpl; [left; reflexivity|right; exact IHa].
  - destruct s as [|c s']; [reflexivity|]. rewrite (IH s' (nt_tail _ _ H)). reflexivity.
Qed.

(** X18: running the tag filter re.sub(r'<[^>]+>', '', .) again on the
    output of [sanitize_user_input] changes nothing: the output holds no
    '<', then one or more characters other than '>', then '>', whatever
    [html.unescape] produced. *)
Theorem sanitize_no_tag_left (unescape : string -> string) (text : string) :
  let out := sanitize_user_input unescape text in
  re_sub_empty match_tag out = out
  /\ ~ exists a m b, m <> "" /\ ~ In ">"%char (list_ascii_of_string m)
         /\ out = a ++ "<" ++ m ++ ">" ++ b.
Proof.
  cbv zeta.
  assert (Hnt : nt (list_ascii_of_string (sanitize_user_input unescape text))).
  { unfold sanitize_user_input. destruct text as [|c t].
    - intros [|x a'] b' H; discriminate.
    - set (u := unescape (String c t)).
      set (t1 := re_sub_empty match_tag u).
      set (t2 := re_sub_empty match_javascript t1).
      set (t3 := re_sub_empty match_on_handler t2).
      apply (relax_nt (list_ascii_of_string t3)).
      + pose proof (split_join_relax t3 EmptyString ltac:(simpl; tauto)) as R. exact R.
      + apply (relax_nt (list_ascii_of_string t2));
          [apply sub_empty_relax, match_on_handler_prefix|].
        apply (relax_nt (list_ascii_of_string t1));
          [apply sub_empty_relax, match_javascript_prefix|].
        apply sub_tag_nt. lia. }
  split; [apply sub_tag_id, Hnt|].
  intros [a [m [b [Hm [Hn E]]]]].
  apply (L_eq_app_lt (sanitize_user_input unescape text) (list_ascii_of_string a) m
           (list_ascii_of_string b)); [|exact Hm|exact Hn|exact Hnt].
  rewrite E, !L_app. reflexivity.
Qed.

(** Words [split] gives: nonempty, without white space. *)
Lemma split_ws_words (s : string) :
  forall cur, (forall c, In c (list_ascii_of_string cur) -> is_space c = false) ->
  forall w, In w (split_ws_aux cur s) ->
  w <> "" /\ forall c, In c (list_ascii_of_string w) -> is_space c = false.
Proof.
  induction s as [|c s IH]; intros cur Hcur w Hw; simpl in Hw.
  - destruct cur as [|x cur']; [destruct Hw|].
    destruct Hw as [<-|[]]. split; [discriminate|exact Hcur].
  - destruct (is_space c) eqn:Sp.
    + destruct cur as [|x cur'].
      * apply (IH EmptyString); [simpl; tauto|exact Hw].
      * destruct Hw as [<-|Hw]; [split; [discriminate|exact Hcur]|].
        apply (IH EmptyString); [simpl; tauto|exact Hw].
    + apply (IH (cur ++ String c EmptyString)); [|exact Hw].
      intros d. rewrite L_app, in_app_iff. intros [H|[<-|[]]]; [apply Hcur, H|exact Sp].
Qed.

Definition ws_ok (l : list ascii) : Prop :=
  forall a c b, l = (a ++ c :: b)%list -> is_space c = true ->
  c = " "%char /\ a <> [] /\ b <> [] /\ first_ns b.

Lemma join_ws_ok (ws : list string) :
  (forall w, In w ws -> w <> "" /\ forall c, In c (list_ascii_of_string w) -> is_space c = false) ->
  ws_ok (list_ascii_of_string (join_space ws))
  /\ (ws <> [] -> first_ns (list_ascii_of_string (join_space ws))
                  /\ list_ascii_of_string (join_space ws) <> []).
Proof.
  induction ws as [|w ws IH]; intro Hw.
  - split; [|congruence]. intros [|x a] c b E; discriminate.
  - destruct (Hw w (or_introl eq_refl)) as [Hne Hsp].
    assert (Hfirst : first_ns (list_ascii_of_string w) /\ list_ascii_of_string w <> []).
    { destruct w as [|x w']; [contradiction|]. split; [apply Hsp; left; reflexivity|discriminate]. }
    destruct (IH (fun v Hv => Hw v (or_intror Hv))) as [IHok IHne].
    destruct ws as [|v vs].
    + cbn [join_space]. split; [|intros _; exact Hfirst].
      intros a c b E Hc. exfalso. rewrite (Hsp c) in Hc; [discriminate|].
      rewrite E. apply in_or_app. right. left. reflexivity.
    + assert (Hj : first_ns (list_ascii_of_string (join_space (v :: vs)))
                   /\ list_ascii_of_string (join_space (v :: vs)) <> [])
        by (apply IHne; discriminate).
      change (join_space (w :: v :: vs)) with (w ++ String " " (join_space (v :: vs))).
      rewrite L_app. simpl.
      split; [|intros _; destruct (list_ascii_of_string w) as [|x l] eqn:Ew;
                [destruct Hfirst as [_ []]; reflexivity|split; [apply (Hsp x); left; reflexivity|discriminate]]].
      intros a c b E Hc.
      apply app_eq_app in E as [l [[E1 E2]|[E1 E2]]].
      * (* c lies in w, or is the separator *)
        destruct l as [|y l]; simpl in E2; injection E2 as E2 E3.
        -- subst c b. rewrite app_nil_r in E1. subst a.
           split; [reflexivity|split; [exact (proj2 Hfirst)|split; [exact (proj2 Hj)|exact (proj1 Hj)]]].
        -- exfalso. subst y. rewrite (Hsp c) in Hc; [discriminate|]. rewrite E1. apply in_or_app.
           right. left. reflexivity.
      * (* c lies after w *)
        destruct l as [|y l]; simpl in E2; injection E2 as E2 E3.
        -- subst c b. split; [reflexivity|split; [|split; [exact (proj2 Hj)|exact (proj1 Hj)]]].
           rewrite E1, app_nil_r. exact (proj2 Hfirst).
        -- destruct (IHok l c b E3 Hc) as [H1 [H2 [H3 H4]]].
           split; [exact H1|split; [|split; [exact H3|exact H4]]].
           rewrite E1. destruct (list_ascii_of_string w); [destruct Hfirst as [_ []]; reflexivity|].
           discriminate.
Qed.

(** X19: in the output of [sanitize_user_input] every white-space character
    is a plain space that is neither first nor last and is followed by a
    non-space character. *)
Theorem sanitize_whitespace_normal (unescape : string -> string) (text : string) :
  forall a c b,
  list_ascii_of_string (sanitize_user_input unescape text) = (a ++ c :: b)%list ->
  is_space c = true -> c = " "%char /\ a <> [] /\ b <> [] /\ first_ns b.
Proof.
  unfold sanitize_user_input. destruct text as [|x t].
  - intros [|y a] c b E; discriminate.
  - apply join_ws_ok. apply split_ws_words. simpl. tauto.
Qed.

End SanitizeFacts.

Module ImageUrlFacts.
Import PyStr Redirect ImageUrl.
Local Open Scope nat_scope.

Lemma urlsplit_raise (url : string) (e : py_exn) : urlsplit url = Raise e -> e = ValueError.
Proof.
  unfold urlsplit. intro H.
  repeat match type of H with
         | context [match ?x with _ => _ end] => destruct x; try discriminate H
         end.
  all: injection H as <-; reflexivity.
Qed.

(** X20: [is_valid_image_url] sends at most one HEAD request, to the
    stripped URL, and only once that URL is at most 2048 characters long and
    parses with scheme http or https and a nonempty netloc; it returns true
    only in that case; and the only exception it lets through is urlparse's
    ValueError, raised before any request. *)
Theorem image_url_checks (head_content_type : string -> option string) (url : string) :
  let '(heads, r) := is_valid_image_url head_content_type url in
  let passes := String.length (strip url) <= 2048
                /\ exists p, urlsplit (strip url) = Ok p
                   /\ (scheme p = "http" \/ scheme p = "https") /\ netloc p <> "" in
  (heads = [] \/ (heads = [strip url] /\ passes))
  /\ (r = Ok true -> heads = [strip url] /\ passes)
  /\ (forall e, r = Raise e -> e = ValueError /\ heads = [] /\ urlsplit (strip url) = Raise e).
Proof.
  unfold is_valid_image_url. destruct url as [|c u].
  - split; [left; reflexivity|split; [discriminate|intros e H; discriminate]].
  - set (cand := strip (String c u)).
    destruct (2048 <? String.length cand) eqn:L.
    + split; [left; reflexivity|split; [discriminate|intros e H; discriminate]].
    + apply Nat.ltb_ge in L.
      destruct (urlsplit cand) as [p|e] eqn:U.
      * destruct (negb (String.eqb (scheme p) "http" || String.eqb (scheme p) "https")) eqn:Sc.
        { split; [left; reflexivity|split; [discriminate|intros e H; discriminate]]. }
        destruct (String.eqb (netloc p) "") eqn:N.
        { split; [left; reflexivity|split; [discriminate|intros e H; discriminate]]. }
        assert (P : String.length cand <= 2048
                    /\ exists p0, urlsplit cand = Ok p0
                       /\ (scheme p0 = "http" \/ scheme p0 = "https") /\ netloc p0 <> "").
        { split; [exact L|]. exists p. split; [exact U|split].
          - apply negb_false_iff, orb_true_iff in Sc.
            destruct Sc as [S|S]; apply String.eqb_eq in S; [left|right]; exact S.
          - apply String.eqb_neq, N. }
        rewrite <- U.
        split; [right; split; [reflexivity|exact P]|split; [intros _; split; [reflexivity|exact P]|]].
        intros e. destruct (head_content_type cand) as [ct|];
          [destruct (String.prefix "image/" (lower ct))|]; discriminate.
      * split; [left; reflexivity|split; [discriminate|]].
        intros e' H. injection H as <-.
        split; [apply (urlsplit_raise cand), U|split; [reflexivity|first [exact U|reflexivity]]].
Qed.

(** X21: [is_valid_image_url] raises ValueError, instead of returning False,
    for a nonempty URL of at most 2048 characters that urlparse rejects (an
    unbalanced [ or ] in the netloc), and sends no request. *)
Theorem image_url_parse_error_escapes (head_content_type : string -> option string)
    (url : string) :
  url <> "" ->
  String.length (strip url) <= 2048 ->
  urlsplit (strip url) = Raise ValueError ->
  is_valid_image_url head_content_type url = ([], Raise ValueError).
Proof.
  intros Hne Hl Hu. unfold is_valid_image_url.
  destruct url as [|c u]; [contradiction|].
  apply Nat.ltb_ge in Hl. rewrite Hl, Hu. reflexivity.
Qed.

End ImageUrlFacts.

Module UserMetricsExtraFacts.
Import UserMetrics UserMetricsFacts.
Local Open Scope Z_scope.

Lemma find_filter_other (l : list (string * um_row)) (u v : string) :
  v <> u ->
  find (fun '(k, _) => String.eqb k v) (filter (fun '(k, _) => negb (String.eqb k u)) l)
  = find (fun '(k, _) => String.eqb k v) l.
Proof.
  intro Hvu. induction l as [|[k r] l IH]; simpl; [reflexivity|].
  destruct (String.eqb k u) eqn:Ku; simpl.
  - apply String.eqb_eq in Ku. subst k.
    replace (String.eqb u v) with false; [exact IH|].
    symmetry. apply String.eqb_neq. congruence.
  - destruct (String.eqb k v); [reflexivity|exact IH].
Qed.

Lemma upsert_lookup_other (d : db) (u : string) (r : um_row) (v : string) :
  v <> u -> lookup_um (user_metrics (upsert_um d u r)) v = lookup_um (user_metrics d) v.
Proof.
  intro Hvu. unfold lookup_um. cbn [user_metrics upsert_um find].
  replace (String.eqb u v) with false by (symmetry; apply String.eqb_neq; congruence).
  rewrite find_filter_other by exact Hvu. reflexivity.
Qed.

Definition totals_of (l : list metric_row) (r : um_row) : Prop :=
  um_total_view_count r = sumZ (fun m => or0 (m_view_count m)) l
  /\ um_total_like_count r = sumZ (fun m => or0 (m_like_count m)) l
  /\ um_total_comment_count r = sumZ (fun m => or0 (m_comment_count m)) l
  /\ um_total_share_count r = sumZ (fun m => or0 (m_share_count m)) l.

Lemma upsert_keeps (d : db) (u : string) (r : um_row) :
  user_projects (upsert_um d u r) = user_projects d
  /\ latest_metrics (upsert_um d u r) = latest_metrics d
  /\ youtube_metrics (upsert_um d u r) = youtube_metrics d
  /\ (forall v, v <> u -> lookup_um (user_metrics (upsert_um d u r)) v = lookup_um (user_metrics d) v).
Proof. split; [reflexivity|split; [reflexivity|split; [reflexivity|]]]. apply upsert_lookup_other. Qed.

(** X22: [update_user_metrics] raises only the exception of one of its
    uncaught Supabase calls (the user_projects read, the youtube_metrics
    fallback read after a failed youtube_latest_metrics read, or the
    upsert), and returns when none of these fails. When it returns, it has
    changed neither user_projects nor the metrics tables nor any other
    user's cached row; either the freshness guard skipped the recompute
    (its read succeeded and found the cache fresh) and nothing changed,
    or the user's cached row carries the time of the call and the sums of
    the views, likes, comments and shares of the metrics it read (none
    for a user without projects). *)
Theorem update_user_metrics_effect (sv : server) (u_id now : string) (d : db) :
  (forall e, update_user_metrics sv u_id now d = Raise e ->
     fails sv CallUserProjects = Some e
     \/ (fails sv CallLatestMetrics <> None /\ fails sv CallYoutubeMetrics = Some e)
     \/ fails sv CallUpsert = Some e)
  /\ (fails sv CallUserProjects = None -> fails sv CallYoutubeMetrics = None ->
      fails sv CallUpsert = None -> exists d', update_user_metrics sv u_id now d = Ok d')
  /\ (forall d', update_user_metrics sv u_id now d = Ok d' ->
      user_projects d' = user_projects d /\ latest_metrics d' = latest_metrics d
      /\ youtube_metrics d' = youtube_metrics d
      /\ (forall v, v <> u_id -> lookup_um (user_metrics d') v = lookup_um (user_metrics d) v)
      /\ ((exists L, metrics_for sv d (project_ids_of d u_id) = Ok L /\ L <> []
             /\ fails sv CallUserMetricsSelect = None /\ fresh d u_id L = true /\ d' = d)
          \/ exists r L, lookup_um (user_metrics d') u_id = Some r /\ um_updated_at r = now
             /\ totals_of L r
             /\ ((project_ids_of d u_id = [] /\ L = [])
                 \/ metrics_for sv d (project_ids_of d u_id) = Ok L))).
Proof.
  unfold update_user_metrics.
  destruct (fails sv CallUserProjects) as [e0|] eqn:FP.
  { split; [intros e H; injection H as ->; left; reflexivity|].
    split; [discriminate|intros d' H; discriminate H]. }
  unfold run_upsert. destruct (fails sv CallUpsert) as [eu|] eqn:FU.
  - (* the upsert raises *)
    destruct (project_ids_of d u_id) as [|p ps] eqn:P.
    + split; [intros e H; injection H as ->; right; right; reflexivity|].
      split; [discriminate|intros d' H; discriminate H].
    + destruct (metrics_for sv d (p :: ps)) as [L|em] eqn:M.
      * destruct L as [|m ms].
        -- split; [intros e H; injection H as ->; right; right; reflexivity|].
           split; [discriminate|intros d' H; discriminate H].
        -- destruct (guard_skips sv d u_id (m :: ms)) eqn:G.
           ++ split; [intros e H; discriminate H|].
              split; [intros; eauto|]. intros d' H. injection H as <-.
              split; [reflexivity|split; [reflexivity|split; [reflexivity|split; [reflexivity|]]]].
              left. exists (m :: ms). unfold guard_skips in G.
              destruct (fails sv CallUserMetricsSelect); [discriminate G|].
              repeat split; auto; discriminate.
           ++ destruct (aggregate_row_ok (m :: ms) now) as [row [-> _]].
              split; [intros e H; injection H as ->; right; right; reflexivity|].
              split; [discriminate|intros d' H; discriminate H].
      * unfold metrics_for in M.
        destruct (fails sv CallLatestMetrics) as [el|] eqn:FL; [|discriminate M].
        destruct (fails sv CallYoutubeMetrics) as [ey|] eqn:FY; [|discriminate M].
        injection M as <-.
        split; [intros e H; injection H as ->; right; left; split; [discriminate|reflexivity]|].
        split; [intros _ H; discriminate H|intros d' H; discriminate H].
  - destruct (project_ids_of d u_id) as [|p ps] eqn:P.
    + split; [intros e H; discriminate H|]. split; [intros; eauto|].
      intros d' H. injection H as <-. destruct (upsert_keeps d u_id (zero_row now)) as [K1 [K2 [K3 K4]]].
      split; [exact K1|split; [exact K2|split; [exact K3|split; [exact K4|]]]].
      right. exists (zero_row now), []. split; [apply upsert_lookup|split; [reflexivity|]].
      split; [repeat split|left; split; reflexivity].
    + destruct (metrics_for sv d (p :: ps)) as [L|em] eqn:M.
      * destruct L as [|m ms].
        -- split; [intros e H; discriminate H|]. split; [intros; eauto|].
           intros d' H. injection H as <-.
           destruct (upsert_keeps d u_id (zero_row now)) as [K1 [K2 [K3 K4]]].
           split; [exact K1|split; [exact K2|split; [exact K3|split; [exact K4|]]]].
           right. exists (zero_row now), []. split; [apply upsert_lookup|split; [reflexivity|]].
           split; [repeat split|right; reflexivity].
        -- destruct (guard_skips sv d u_id (m :: ms)) eqn:G.
           ++ split; [intros e H; discriminate H|].
              split; [intros; eauto|]. intros d' H. injection H as <-.
              split; [reflexivity|split; [reflexivity|split; [reflexivity|split; [reflexivity|]]]].
              left. exists (m :: ms). unfold guard_skips in G.
              destruct (fails sv CallUserMetricsSelect); [discriminate G|].
              repeat split; auto; discriminate.
           ++ destruct (aggregate_row_ok (m :: ms) now) as [row [Hrow Hupd]]. rewrite Hrow.
              split; [intros e H; discriminate H|]. split; [intros; eauto|].
              intros d' H. injection H as <-.
              destruct (upsert_keeps d u_id row) as [K1 [K2 [K3 K4]]].
              split; [exact K1|split; [exact K2|split; [exact K3|split; [exact K4|]]]].
              right. exists row, (m :: ms). split; [apply upsert_lookup|split; [exact Hupd|]].
              split; [|right; reflexivity].
              unfold aggregate_row in Hrow. destruct (avg_engagement (m :: ms)); [|discriminate Hrow].
              injection Hrow as <-. repeat split.
      * unfold metrics_for in M.
        destruct (fails sv CallLatestMetrics) as [el|] eqn:FL; [|discriminate M].
        destruct (fails sv CallYoutubeMetrics) as [ey|] eqn:FY; [|discriminate M].
        injection M as <-.
        split; [intros e H; injection H as ->; right; left; split; [discriminate|reflexivity]|].
        split; [intros _ H; discriminate H|intros d' H; discriminate H].
Qed.

End UserMetricsExtraFacts.

Module DailySeriesExtraFacts.
Import DailySeries.
Local Open Scope Z_scope.

Lemma filter_filter_weaker {A : Type} (f g : A -> bool) (l : list A) :
  (forall x, f x = true -> g x = true) -> filter f (filter g l) = filter f l.
Proof.
  intro H. induction l as [|x l IH]; simpl; [reflexivity|].
  destruct (g x) eqn:G; simpl.
  - destruct (f x); [rewrite IH; reflexivity|exact IH].
  - destruct (f x) eqn:F; [rewrite (H x F) in G; discriminate|exact IH].
Qed.

(** X23: for a window with start <= end, [fetch_user_daily_timeseries]
    depends only on the snapshots of the user's projects fetched no later
    than the window's end. *)
Theorem daily_series_reads_only_own_rows (pids : list string) (tbl : list snapshot)
    (start end_ : Z) :
  start <= end_ ->
  fetch_user_daily_timeseries pids tbl start end_
  = fetch_user_daily_timeseries pids
      (filter (fun r => in_pids pids (s_p_id r) && (s_fetched_at r <=? end_)) tbl) start end_.
Proof.
  intro Hse. unfold fetch_user_daily_timeseries, baseline_rows, range_rows.
  rewrite !filter_filter_weaker; [reflexivity| |].
  - intros r H. apply andb_true_iff in H as [H H2]. apply andb_true_iff in H as [H1 _].
    rewrite H1, H2. reflexivity.
  - intros r H. apply andb_true_iff in H as [H1 H2]. rewrite H1. simpl.
    apply Z.ltb_lt in H2. apply Z.leb_le. lia.
Qed.

End DailySeriesExtraFacts.

Module VideoIdExtraFacts.
Import VideoId.
Local Open Scope nat_scope.

Lemma match_prefix_suffix (p : list atom) (s r : string) :
  match_prefix p s = Some r -> exists q, s = q ++ r.
Proof.
  revert s. induction p as [|a p IH]; intros s H; simpl in H.
  - injection H as <-. exists EmptyString. reflexivity.
  - destruct s as [|c s']; [discriminate|].
    destruct (atom_matches a c); [|discriminate].
    destruct (IH s' H) as [q ->]. exists (String c q). reflexivity.
Qed.

Lemma take_id_spec (n : nat) (s g : string) :
  take_id n s = Some g ->
  String.length g = n /\ (forall c, In c (list_ascii_of_string g) -> is_id_char c = true)
  /\ exists r, s = g ++ r.
Proof.
  revert s g. induction n as [|n IH]; intros s g H; simpl in H.
  - injection H as <-. split; [reflexivity|split; [simpl; tauto|exists s; reflexivity]].
  - destruct s as [|c s']; [discriminate|].
    destruct (is_id_char c) eqn:C; [|discriminate].
    destruct (take_id n s') as [g'|] eqn:T; [|discriminate]. injection H as <-.
    destruct (IH s' g' T) as [Hl [Hc [r ->]]].
    split; [simpl; rewrite Hl; reflexivity|split].
    + intros d [<-|Hd]; [exact C|apply Hc, Hd].
    + exists r. reflexivity.
Qed.

Definition is_id (g : string) : Prop :=
  String.length g = 11 /\ forall c, In c (list_ascii_of_string g) -> is_id_char c = true.

Lemma match_at_spec (alts : list (list atom)) (s g : string) :
  match_at alts s = Some g -> is_id g /\ exists a b, s = a ++ g ++ b.
Proof.
  induction alts as [|p alts IH]; cbn [match_at]; [discriminate|].
  destruct (match_prefix p s) as [rest|] eqn:M; [|exact IH].
  destruct (take_id 11 rest) as [g'|] eqn:T; [|exact IH].
  intro H. injection H as <-.
  destruct (take_id_spec 11 rest g' T) as [Hl [Hc [r ->]]].
  destruct (match_prefix_suffix p s _ M) as [q ->].
  split; [split; assumption|]. exists q, r. reflexivity.
Qed.

Lemma re_search_spec (alts : list (list atom)) (s g : string) :
  re_search alts s = Some g -> is_id g /\ exists a b, s = a ++ g ++ b.
Proof.
  induction s as [|c s IH]; cbn [re_search].
  - destruct (match_at alts EmptyString) eqn:M; [|discriminate].
    intro H. injection H as <-. apply (match_at_spec alts), M.
  - destruct (match_at alts (String c s)) eqn:M.
    + intro H. injection H as <-. apply (match_at_spec alts), M.
    + intro H. destruct (IH H) as [Hg [a [b E]]]. split; [exact Hg|].
      exists (String c a), b. rewrite E. reflexivity.
Qed.

(** X24: a video id returned by [extract_video_id] (of credify_app.py or of
    claim_role.py) is 11 characters of [A-Za-z0-9_-] taken from the URL. *)
Theorem extracted_id_is_substring (url g : string) :
  (extract_video_id url = Some g \/ claim_role_extract_video_id url = Some g) ->
  String.length g = 11
  /\ (forall c, In c (list_ascii_of_string g) -> is_id_char c = true)
  /\ exists a b, url = a ++ g ++ b.
Proof.
  intros [H|H]; apply re_search_spec in H as [[Hl Hc] Hs]; auto.
Qed.

End VideoIdExtraFacts.


Module FetchReachFacts.
Import FetchValidation VideoIdExtraFacts.
Local Open Scope N_scope.

(** An ASCII character outside [A-Za-z0-9_-] is not alphanumeric. *)
Lemma ascii_non_id_not_alnum (uni : N -> bool) (c : N) :
  c < 128 -> spec_id_char c = false -> char_isalnum uni c = false.
Proof.
  intros Hc Hs. unfold spec_id_char in Hs. unfold char_isalnum.
  replace (c <? 256) with true by (symmetry; apply N.ltb_lt; lia).
  repeat rewrite orb_false_iff in Hs. repeat rewrite andb_false_iff in Hs.
  destruct Hs as [[[[[H1|H1] [H2|H2]] [H3|H3]] H4] H5];
  repeat match goal with
         | H : (_ <=? _) = false |- _ => apply N.leb_gt in H
         end;
  repeat (apply orb_false_iff; split);
  repeat match goal with
         | |- (_ =? _) = false => apply N.eqb_neq; lia
         | |- (_ <=? _) = false => apply N.leb_gt; lia
         | |- (_ && _) = false => apply andb_false_iff
         | |- _ \/ _ => first [left; apply N.leb_gt; lia | right; apply N.leb_gt; lia]
         end.
Qed.

Lemma in_remove_char (ch c : N) (s : pystr) :
  In c s -> c <> ch -> In c (remove_char ch s).
Proof.
  intros H Hne. unfold remove_char. apply filter_In. split; [exact H|].
  destruct (N.eqb_spec c ch); [contradiction|reflexivity].
Qed.

Lemma isalnum_false_of_in (uni : N -> bool) (c : N) (s : pystr) :
  In c s -> char_isalnum uni c = false -> isalnum uni s = false.
Proof.
  intros H Hc. unfold isalnum. destruct s as [|x s]; [reflexivity|].
  apply not_true_is_false. intro F. rewrite forallb_forall in F.
  rewrite (F c H) in Hc. discriminate.
Qed.

Lemma fetch_get_id (uni : N -> bool) (vid c : pystr) :
  fetch_youtube_data uni vid = GetVideo c -> c = vid /\ length vid = 11%nat.
Proof.
  unfold fetch_youtube_data.
  destruct ((length vid =? 0)%nat || negb (length vid =? 11)%nat) eqn:L; [discriminate|].
  destruct (negb (isalnum uni (remove_char 95 (remove_char 45 vid)))); [discriminate|].
  intro H. injection H as <-. split; [reflexivity|].
  apply orb_false_iff in L as [_ L]. apply negb_false_iff, Nat.eqb_eq in L. exact L.
Qed.

Lemma id_char_spec (c : ascii) :
  VideoId.is_id_char c = true -> spec_id_char (N.of_nat (nat_of_ascii c)) = true.
Proof.
  destruct c as [[] [] [] [] [] [] [] []]; vm_compute; intro H;
    first [reflexivity | discriminate H].
Qed.

Lemma length_pystr_of_string (s : string) :
  length (pystr_of_string s) = String.length s.
Proof.
  unfold pystr_of_string. rewrite length_map.
  induction s as [|c s IH]; simpl; [reflexivity|]. rewrite IH. reflexivity.
Qed.

(** C4: [fetch_youtube_data] returns [None] before any request for every
    candidate whose length is not 11 and for every candidate holding an
    ASCII character outside [A-Za-z0-9_-]. Its one caller, the Profile
    claim flow, passes only what [extract_video_id] returned, so every
    candidate that reaches the video platform through it is 11 characters
    of [A-Za-z0-9_-]. (The [str.isalnum] check alone would also let
    non-ASCII letters through, but no such candidate reaches it.) *)
Theorem fetch_only_valid_ids_reach_api (uni : N -> bool) :
  (forall vid, length vid <> 11%nat -> fetch_youtube_data uni vid = ShortCircuit)
  /\ (forall vid, existsb (fun c => (c <? 128) && negb (spec_id_char c)) vid = true ->
        fetch_youtube_data uni vid = ShortCircuit)
  /\ (forall url vid c,
        VideoId.claim_flow VideoId.extract_video_id url = VideoId.LookupProject vid ->
        fetch_youtube_data uni (pystr_of_string vid) = GetVideo c ->
        length c = 11%nat /\ forallb spec_id_char c = true).
Proof.
  split; [|split].
  - intros vid H. apply FetchValidationFacts.fetch_short_circuits_on_length, H.
  - intros vid H. apply existsb_exists in H as [c [Hin Hc]].
    apply andb_true_iff in Hc as [Hlt Hs]. apply N.ltb_lt in Hlt. apply negb_true_iff in Hs.
    assert (H45 : c <> 45) by (intro E; subst c; discriminate Hs).
    assert (H95 : c <> 95) by (intro E; subst c; discriminate Hs).
    assert (Hfalse : isalnum uni (remove_char 95 (remove_char 45 vid)) = false)
      by (apply (isalnum_false_of_in uni c);
          [apply in_remove_char; [apply in_remove_char|]; assumption
          |apply ascii_non_id_not_alnum; assumption]).
    unfold fetch_youtube_data. rewrite Hfalse. simpl negb.
    destruct ((length vid =? 0)%nat || negb (length vid =? 11)%nat); reflexivity.
  - intros url vid c Hflow Hget.
    unfold VideoId.claim_flow in Hflow.
    destruct (VideoId.extract_video_id url) as [g|] eqn:E; [|discriminate Hflow].
    injection Hflow as <-.
    destruct (re_search_spec _ _ _ E) as [[Hl Hc] _].
    destruct (fetch_get_id uni _ _ Hget) as [-> _].
    split; [rewrite length_pystr_of_string; exact Hl|].
    apply forallb_forall. intros x Hx. unfold pystr_of_string in Hx.
    apply in_map_iff in Hx as [a [<- Ha]]. apply id_char_spec, Hc, Ha.
Qed.

End FetchReachFacts.

(** ** Witnesses: the hypotheses of the properties above hold at these
    inputs. *)
Module ExtraWitnesses.
Local Open Scope nat_scope.

Definition no_stats (_ : string) : option Z := None.
Definition demo_credits : Credits.table := [Credits.mk_credit "u" "p1" "Editor"].
Definition live_not_ok (_ : list string) : YouTubeBatch.api_resp YouTubeBatch.live_item :=
  YouTubeBatch.NotOk.

(** X2 at a user with one project and a failing API. *)
Lemma live_metrics_result_witness :
  YouTubeBatch.project_ids_of demo_credits "u" <> []
  /\ snd (YouTubeBatch.fetch_live_metrics_for_user no_stats demo_credits "u" live_not_ok) = None.
Proof.
  split; [vm_compute; discriminate|].
  apply (proj2 (YouTubeBatchFacts.live_metrics_result no_stats demo_credits "u" live_not_ok)).
  - vm_compute. discriminate.
  - intros b _. left. reflexivity.
Defined.

Definition one_channel (_ : list string) : YouTubeBatch.api_resp YouTubeBatch.ch_item :=
  YouTubeBatch.Items [YouTubeBatch.mk_ch_item (Some "UC1") (Some "Studio")].

(** X3 at one video whose channel is UC1. *)
Lemma channels_first_item_wins_witness :
  "UC1" <> ""
  /\ PyDict.dict_get (YouTubeBatch.fetch_channels_for_projects ["v1"] one_channel) "UC1"
     = option_map (YouTubeBatch.channel_of "UC1")
         (find (YouTubeBatchFacts.is_channel "UC1")
            (flat_map (YouTubeBatchFacts.answered one_channel) (Batch.chunks 50 ["v1"]))).
Proof.
  split; [discriminate|].
  apply (YouTubeBatchFacts.channels_first_item_wins ["v1"] one_channel "UC1").
  discriminate.
Defined.

Definition zero_draws (_ : nat) : Q := 0%Q.

(** X5 at one project, three days, a run that does not skip. *)
Lemma seed_rows_one_per_day_witness :
  NoDup ["p"] /\ In "p" ["p"] /\ negb false && false = false
  /\ map Seeder.r_day (Seeder.rows_of "p" (Seeder.seed_metrics zero_draws false ["p"] 3 false 100))
     = map (fun i => (100 - (3 - 1) + Z.of_nat i)%Z) (seq 0 (Z.to_nat 3)).
Proof.
  assert (Hnd : NoDup ["p"]) by (constructor; [intros []|constructor]).
  split; [exact Hnd|split; [left; reflexivity|split; [reflexivity|]]].
  apply (SeedDbFacts.seed_rows_one_per_day zero_draws false ["p"] 3 false 100 "p").
  - exact Hnd.
  - left. reflexivity.
  - reflexivity.
Defined.

Definition one_follow : Follow.follows := [Follow.mk_follow "a" "b"].

(** X8 at a one-row table. *)
Lemma follow_user_no_duplicates_witness :
  NoDup one_follow /\ NoDup (Follow.follow_user one_follow "a" "c").
Proof.
  assert (Hnd : NoDup one_follow) by (constructor; [intros []|constructor]).
  split; [exact Hnd|].
  apply (proj2 (FollowFacts.follow_user_no_duplicates one_follow "a" "c")). exact Hnd.
Defined.

Definition ilike_all (_ _ : string) : bool := true.

(** X10 at a blank query. *)
Lemma search_users_results_witness :
  PyStr.strip " " = ""
  /\ Follow.search_users ilike_all [] [] [] " " "u" = [].
Proof.
  split; [reflexivity|].
  apply (proj1 (SearchFacts.search_users_results ilike_all [] [] [] " " "u")). reflexivity.
Defined.

Definition fresh_world : Lambda.world :=
  Lambda.mk_world (fun _ => Ok true) (fun _ => Lambda.BodyItems (Ok tt)) (fun _ => Some false)
                  (fun _ => Ok 201%nat).

(** X14 at one configured video that passes every check. *)
Lemma lambda_posts_only_fresh_data_witness :
  In (Lambda.SupabasePost "abc") (fst (Lambda.lambda_handler true "abc" fresh_world))
  /\ true = true /\ In "abc" (Lambda.video_ids_of_env "abc")
  /\ Lambda.yt_get fresh_world "abc" = Ok true
  /\ Lambda.yt_body_of fresh_world "abc" = Lambda.BodyItems (Ok tt)
  /\ Lambda.dedupe_found fresh_world "abc" <> Some true.
Proof.
  assert (H : In (Lambda.SupabasePost "abc") (fst (Lambda.lambda_handler true "abc" fresh_world)))
    by (vm_compute; repeat (first [left; reflexivity | right])).
  split; [exact H|].
  exact (LambdaExtraFacts.lambda_posts_only_fresh_data true "abc" fresh_world "abc" H).
Defined.

(** X15 at a local development URL. *)
Lemma production_base_url_values_witness :
  Redirect._get_production_base_url [Some "localhost:8501"] = Ok "http://localhost:8501"
  /\ ("http://localhost:8501" = Redirect.CANONICAL_PRODUCTION_URL
      \/ exists p, "http://localhost:8501" = "http://localhost" ++ Redirect.port_suffix p).
Proof.
  assert (H : Redirect._get_production_base_url [Some "localhost:8501"]
              = Ok "http://localhost:8501") by (vm_compute; reflexivity).
  split; [exact H|].
  exact (RedirectExtraFacts.production_base_url_values [Some "localhost:8501"] _ H).
Defined.

Definition naive_parse (_ : string) : option TokenExpiry.datetime :=
  Some (TokenExpiry.mk_dt 1000 None).

(** X16 at a naive timestamp, checked at two times. *)
Lemma token_expired_stays_expired_witness :
  (0 <= 10)%Z
  /\ TokenExpiry.is_token_expired naive_parse 0 (Some "2025") = Ok true
  /\ TokenExpiry.is_token_expired naive_parse 10 (Some "2025") = Ok true.
Proof.
  assert (H : TokenExpiry.is_token_expired naive_parse 0 (Some "2025") = Ok true)
    by (vm_compute; reflexivity).
  split; [lia|split; [exact H|]].
  apply (TokenExtraFacts.token_expired_stays_expired naive_parse 0 10 (Some "2025")); [lia|exact H].
Defined.

Definition early_parse (_ : string) : option TokenExpiry.datetime :=
  Some (TokenExpiry.mk_dt 0 (Some 62135596801%Z)).

(** X17 at an aware timestamp before year 1 in UTC. *)
Lemma token_out_of_range_raises_witness :
  TokenExpiry.dt_offset (TokenExpiry.mk_dt 0 (Some 62135596801%Z)) = Some 62135596801%Z
  /\ TokenExpiry.is_token_expired early_parse 0 (Some "0001-01-01T00:00:00+23:59")
     = Raise OverflowError.
Proof.
  split; [reflexivity|].
  apply (TokenExtraFacts.token_out_of_range_raises early_parse 0 "0001-01-01T00:00:00+23:59"
           (TokenExpiry.mk_dt 0 (Some 62135596801%Z)) 62135596801%Z).
  - discriminate.
  - reflexivity.
  - reflexivity.
  - left. vm_compute. reflexivity.
Defined.

(** X19 at a text with a double space. *)
Lemma sanitize_whitespace_normal_witness :
  list_ascii_of_string (Sanitize.sanitize_user_input (fun s => s) "a  b")
    = (["a"%char] ++ " "%char :: ["b"%char])%list
  /\ PyStr.is_space " "%char = true
  /\ (" "%char = " "%char /\ ["a"%char] <> [] /\ ["b"%char] <> []
      /\ StripFacts.first_ns ["b"%char]).
Proof.
  assert (H : list_ascii_of_string (Sanitize.sanitize_user_input (fun s => s) "a  b")
              = (["a"%char] ++ " "%char :: ["b"%char])%list) by (vm_compute; reflexivity).
  split; [exact H|split; [reflexivity|]].
  exact (SanitizeFacts.sanitize_whitespace_normal (fun s => s) "a  b" _ _ _ H eq_refl).
Defined.

Definition head_fails (_ : string) : option string := None.

(** X21 at a URL with an unclosed IPv6 bracket. *)
Lemma image_url_parse_error_escapes_witness :
  String.length (PyStr.strip "http://[bad") <= 2048
  /\ Redirect.urlsplit (PyStr.strip "http://[bad") = Raise ValueError
  /\ ImageUrl.is_valid_image_url head_fails "http://[bad" = ([], Raise ValueError).
Proof.
  assert (L : String.length (PyStr.strip "http://[bad") <= 2048)
    by (apply Nat.leb_le; vm_compute; reflexivity).
  assert (U : Redirect.urlsplit (PyStr.strip "http://[bad") = Raise ValueError)
    by (vm_compute; reflexivity).
  split; [exact L|split; [exact U|]].
  apply (ImageUrlFacts.image_url_parse_error_escapes head_fails "http://[bad").
  - discriminate.
  - exact L.
  - exact U.
Defined.

(** X23 at a one-day window. *)
Lemma daily_series_reads_only_own_rows_witness :
  (0 <= 86400)%Z
  /\ DailySeries.fetch_user_daily_timeseries ["p"] [] 0 86400
     = DailySeries.fetch_user_daily_timeseries ["p"]
         (filter (fun r => DailySeries.in_pids ["p"] (DailySeries.s_p_id r)
                           && (DailySeries.s_fetched_at r <=? 86400)%Z) []) 0 86400.
Proof.
  split; [lia|].
  apply (DailySeriesExtraFacts.daily_series_reads_only_own_rows ["p"] [] 0 86400). lia.
Defined.

(** X24 at a watch URL. *)
Lemma extracted_id_is_substring_witness :
  VideoId.extract_video_id "https://www.youtube.com/watch?v=dQw4w9WgXcQ" = Some "dQw4w9WgXcQ"
  /\ String.length "dQw4w9WgXcQ" = 11.
Proof.
  assert (H : VideoId.extract_video_id "https://www.youtube.com/watch?v=dQw4w9WgXcQ"
              = Some "dQw4w9WgXcQ") by (vm_compute; reflexivity).
  split; [exact H|].
  exact (proj1 (VideoIdExtraFacts.extracted_id_is_substring
                  "https://www.youtube.com/watch?v=dQw4w9WgXcQ" "dQw4w9WgXcQ" (or_introl H))).
Defined.

End ExtraWitnesses.
